(** * next-llms-generator: the crawl / extract / assemble pipeline

    A shallow embedding of [src/generate.ts] (class [LLMSGenerator]), of
    [src/content-filter.ts] (class [ContentFilter]), of the argument
    parser of [src/cli.ts] and of the route handler with its cache, with
    the properties of the pipeline stated and proved over it.

    Conventions.
    - A JavaScript string is a [string]: a sequence of 8-bit code units.
    - A JavaScript [number] that the code uses as a count or a limit is a
      [Z] (limits may be zero or negative; the code never checks them);
      lengths and indices are [nat].
    - A thrown value is a [Thrown]; a computation that may throw returns
      [Thrown + A] ([inl] is the throw).
    - What the code obtains from the platform (the network, the DOM, the URL
      parser, the regular-expression engine, [Array.prototype.sort], the
      file system, the clock) is a parameter of the section that models
      the code using it.

    The file has three parts: the model of the code; the terms the
    properties are stated in, with a small platform and inputs to evaluate
    the model on; the properties and their proofs. *)

From Stdlib Require Import ZArith Lia Bool Ascii String DecimalString Floats.
From stdpp Require Import base option list strings sorting gmap.

Local Open Scope string_scope.
Local Open Scope Z_scope.
Local Open Scope nat_scope.
Local Open Scope list_scope.

(** ** JavaScript strings *)

Module JS.

(** [WhiteSpace] and [LineTerminator] code units below 256: what
    [String.prototype.trim] strips. *)
Definition is_ws (c : ascii) : bool :=
  let n := nat_of_ascii c in
  ((9 <=? n) && (n <=? 13)) || (n =? 32) || (n =? 160).

Fixpoint trimStart (s : string) : string :=
  match s with
  | EmptyString => EmptyString
  | String c r => if is_ws c then trimStart r else s
  end.

Definition trimEnd (s : string) : string :=
  String.rev (trimStart (String.rev s)).

Definition trim (s : string) : string := trimEnd (trimStart s).

Definition startsWith (s p : string) : bool := String.prefix p s.

Definition endsWith (s suffix : string) : bool :=
  String.prefix (String.rev suffix) (String.rev s).

(** [s.includes(pat)] *)
Fixpoint includes (s pat : string) : bool :=
  if String.prefix pat s then true
  else match s with
       | EmptyString => false
       | String _ r => includes r pat
       end.

(** [s.substring(0, n)] for a number [n]: a negative [n] counts as 0. *)
Definition substring0 (s : string) (n : Z) : string :=
  String.substring 0 (Z.to_nat n) s.

(** Truthiness of a string and of an optional string. *)
Definition truthy (s : string) : bool := negb (String.eqb s "").

Definition truthy_opt (o : option string) : bool :=
  match o with Some s => truthy s | None => false end.

(** [a || b] on strings. *)
Definition or_else (a b : string) : string := if truthy a then a else b.

(** [`${n}`] for an integral number. *)
Definition Z_toString (n : Z) : string :=
  NilZero.string_of_int (Z.to_int n).

Definition nat_toString (n : nat) : string := Z_toString (Z.of_nat n).

End JS.

(** ** Data model ([src/types.ts]) *)

Inductive ErrorType :=
| NETWORK_ERROR | PARSE_ERROR | TIMEOUT_ERROR
| ROBOTS_BLOCKED | INVALID_URL | CONTENT_TOO_LARGE.

(** A thrown value: a [GeneratorError], another [Error], or a value that is
    not an [Error] at all. *)
Inductive Thrown :=
| GeneratorError (message : string) (type : ErrorType) (url : option string)
| JsError (message : string)
| NonError.

(** [error instanceof Error ? error.message : 'Unknown error'] *)
Definition error_message (e : Thrown) : string :=
  match e with
  | GeneratorError m _ _ => m
  | JsError m => m
  | NonError => "Unknown error"
  end.

Record SitemapUrl := mkSitemapUrl {
  loc : string;
  su_lastmod : option string
}.

Record PageResult := mkPageResult {
  url : string;
  title : string;
  content : string;
  success : bool;
  error : option string;
  timestamp : nat;
  contentLength : nat;
  lastmod : option string;
  language : option string;
  statusCode : option Z;
  skipReason : option string;
  truncated : option bool;
  originalLength : option nat
}.

(** [if (lastmod) result.lastmod = lastmod] *)
Definition set_lastmod (lm : option string) (r : PageResult) : PageResult :=
  if JS.truthy_opt lm then
    mkPageResult (url r) (title r) (content r) (success r) (error r)
      (timestamp r) (contentLength r) lm (language r) (statusCode r)
      (skipReason r) (truncated r) (originalLength r)
  else r.

(** [if (language) result.language = language] *)
Definition set_language (lang : option string) (r : PageResult) : PageResult :=
  if JS.truthy_opt lang then
    mkPageResult (url r) (title r) (content r) (success r) (error r)
      (timestamp r) (contentLength r) (lastmod r) lang (statusCode r)
      (skipReason r) (truncated r) (originalLength r)
  else r.

(** ** The network, as [fetch] sees it *)

Record Response := mkResponse {
  status : Z;
  statusText : string;
  contentType : option string;      (* headers.get('content-type') *)
  text : Thrown + string            (* await response.text() *)
}.

(** [response.ok] *)
Definition ok (r : Response) : bool :=
  ((200 <=? status r) && (status r <=? 299))%Z.

Inductive FetchOutcome :=
| Rejected (e : Thrown)        (* transport failure, abort on timeout *)
| Resolved (r : Response).

(** What the network answers to the [attempt]-th request of one
    [fetchWithRetry] call for [url]. *)
Definition Network := string -> nat -> FetchOutcome.

Inductive Event :=
| EvFetch (url : string) (attempt : nat)
| EvSleep (ms : nat).

(** ** Fetcher: [fetchWithRetry] *)

Section Fetcher.
Variable fetch : Network.

(** One iteration of the [for] loop: the [try] block. *)
Definition fetchAttempt (u : string) (attempt : nat) : Thrown + Response :=
  match fetch u attempt with
  | Rejected e => inl e
  | Resolved response =>
      if ok response then inr response
      else inl (GeneratorError
                  ("HTTP " +:+ JS.Z_toString (status response) +:+ ": "
                     +:+ statusText response)
                  NETWORK_ERROR (Some u))
  end.

(** The loop [for (attempt = 0; attempt < retries; attempt++)], entered at
    [attempt] with [fuel = retries - attempt] iterations left. *)
Fixpoint fetchLoop (u : string) (retries attempt fuel : nat)
  : list Event * (Thrown + Response) :=
  match fuel with
  | O => ([], inl (GeneratorError
                     ("Failed to fetch after " +:+ JS.nat_toString retries
                        +:+ " attempts")
                     NETWORK_ERROR (Some u)))
  | S fuel' =>
      match fetchAttempt u attempt with
      | inr response => ([EvFetch u attempt], inr response)
      | inl e =>
          if attempt =? retries - 1 then ([EvFetch u attempt], inl e)
          else
            let '(tr, res) := fetchLoop u retries (S attempt) fuel' in
            (EvFetch u attempt :: EvSleep (250 * (attempt + 1)) :: tr, res)
      end
  end.

Definition fetchWithRetry_n (u : string) (retries : nat)
  : list Event * (Thrown + Response) :=
  fetchLoop u retries 0 retries.

(** Every caller uses the default [retries = 3]. *)
Definition fetchWithRetry (u : string) : list Event * (Thrown + Response) :=
  fetchWithRetry_n u 3.

End Fetcher.

(** ** Crawl worker: [crawlSinglePage] *)

(** What [extractContent] returns. *)
Record Extracted := mkExtracted {
  ex_title : string;
  ex_content : string;
  ex_language : option string
}.

Section CrawlWorker.
(** [this.extractContent(url, html)] (modelled further down) and the
    user's [options.contentTransformer]; either may throw. *)
Variable extractContent : string -> string -> Thrown + Extracted.
Variable contentTransformer : string -> string -> Thrown + string.

(** The object literal of the four skip branches. *)
Definition skipped (startTime : nat) (u : string) (lm : option string)
    (body err : string) (code : Z) (reason : string) : PageResult :=
  set_lastmod lm
    {| url := u; title := "Skipped"; content := body; success := false;
       error := Some err; timestamp := startTime; contentLength := 0;
       lastmod := None; language := None; statusCode := Some code;
       skipReason := Some reason; truncated := Some false;
       originalLength := None |}.

(** The [try] block of [crawlSinglePage]. *)
Definition crawlSinglePage_try (fetch : Network) (startTime : nat)
    (u : string) (lm : option string) : Thrown + PageResult :=
  match snd (fetchWithRetry fetch u) with
  | inl e => inl e
  | inr response =>
      if negb (ok response) then
        inr (skipped startTime u lm
               ("Failed to fetch: " +:+ JS.Z_toString (status response)
                  +:+ " " +:+ statusText response)
               ("HTTP " +:+ JS.Z_toString (status response))
               (status response)
               ("http-" +:+ JS.Z_toString (status response)))
      else
        let ctype := default "" (contentType response) in
        if negb (JS.includes ctype "text/html") then
          inr (skipped startTime u lm "No content extracted."
                 "Non-HTML content type" (status response) "content-type")
        else
          match text response with
          | inl e => inl e
          | inr html =>
              if (5 * 1024 * 1024 <? Z.of_nat (String.length html))%Z then
                inr (skipped startTime u lm "No content extracted."
                       "Content too large" (status response) "too-large")
              else
                match extractContent u html with
                | inl e => inl e
                | inr ex =>
                    match contentTransformer (ex_content ex) u with
                    | inl e => inl e
                    | inr transformedContent =>
                        inr (set_language (ex_language ex)
                               (set_lastmod lm
                                  {| url := u; title := ex_title ex;
                                     content := transformedContent;
                                     success := true; error := None;
                                     timestamp := startTime;
                                     contentLength :=
                                       String.length transformedContent;
                                     lastmod := None; language := None;
                                     statusCode := Some (status response);
                                     skipReason := None;
                                     truncated := Some false;
                                     originalLength :=
                                       Some (String.length
                                               transformedContent) |}))
                    end
                end
          end
  end.

(** [crawlSinglePage]: the [catch] turns a throw into a [parse-error]
    skip, so the function itself never throws. *)
Definition crawlSinglePage (fetch : Network) (startTime : nat)
    (u : string) (lm : option string) : PageResult :=
  match crawlSinglePage_try fetch startTime u lm with
  | inr result => result
  | inl e =>
      skipped startTime u lm
        ("(Fetch/parse error: " +:+ error_message e +:+ ")")
        (error_message e) 0%Z "parse-error"
  end.

End CrawlWorker.

(** ** Crawl worker pool: [crawlPages]

    [concurrency] copies of the [worker] closure share [currentIndex] and
    [results].  A worker runs without interruption between two [await]s, so
    the pool is a transition system whose steps are: a worker at the head
    of its [while] loop claims the next index (or leaves the loop), and a
    worker whose [await this.crawlSinglePage(...)] has settled stores the
    result.  The scheduler and the network choose which worker moves next
    and what the network answered during the call.  [crawlSinglePage]
    catches what is thrown inside it, so the worker's own [catch] (which
    would store a result titled ['Error']) is never entered. *)

Inductive Worker :=
| AtLoopHead
| Awaiting (index : nat) (startTime : nat)
| Returned.

Record Pool := mkPool {
  currentIndex : nat;
  results : list (option PageResult);   (* a JS array, [None] is a hole *)
  workers : list Worker;
  calls : list nat    (* ghost: indices [crawlSinglePage] was called for *)
}.

(** One scheduling decision: the worker that moves, the clock, and how the
    network behaved during the call that settles. *)
Record Tick := mkTick {
  who : nat;
  now : nat;
  net : Network
}.

(** [arr[i] = x] on a JS array: writing past the end leaves holes. *)
Definition array_set {A} (i : nat) (x : A) (arr : list (option A))
  : list (option A) :=
  if i <? length arr then <[i := Some x]> arr
  else arr ++ replicate (i - length arr) None ++ [Some x].

(** [arr.filter(Boolean)] on an array of objects: drops the holes. *)
Definition filter_Boolean {A} (arr : list (option A)) : list A :=
  omap id arr.

Section CrawlPool.
Variable extractContent : string -> string -> Thrown + Extracted.
Variable contentTransformer : string -> string -> Thrown + string.
Variable urls : list SitemapUrl.

(** [Array.from({ length: concurrency }, () => worker())]: a length below
    one gives no worker. *)
Definition pool_init (concurrency : Z) : Pool :=
  {| currentIndex := 0; results := [];
     workers := replicate (Z.to_nat concurrency) AtLoopHead;
     calls := [] |}.

Definition set_worker (w : nat) (st : Worker) (p : Pool) : Pool :=
  {| currentIndex := currentIndex p; results := results p;
     workers := <[w := st]> (workers p); calls := calls p |}.

(** One step of worker [who t]. *)
Definition pool_step (p : Pool) (t : Tick) : Pool :=
  match workers p !! who t with
  | None | Some Returned => p
  | Some AtLoopHead =>
      if currentIndex p <? length urls then
        let index := currentIndex p in
        let p' := {| currentIndex := S index; results := results p;
                     workers := workers p; calls := calls p |} in
        match urls !! index with
        | Some urlEntry =>
            if JS.truthy (loc urlEntry) then
              set_worker (who t) (Awaiting index (now t))
                {| currentIndex := S index; results := results p;
                   workers := workers p; calls := calls p ++ [index] |}
            else p'                               (* if (!url) continue *)
        | None => p'
        end
      else set_worker (who t) Returned p
  | Some (Awaiting index startTime) =>
      match urls !! index with
      | Some urlEntry =>
          set_worker (who t) AtLoopHead
            {| currentIndex := currentIndex p;
               results :=
                 array_set index
                   (crawlSinglePage extractContent contentTransformer
                      (net t) startTime (loc urlEntry) (su_lastmod urlEntry))
                   (results p);
               workers := workers p; calls := calls p |}
      | None => set_worker (who t) AtLoopHead p
      end
  end.

Definition pool_run (p : Pool) (sched : list Tick) : Pool :=
  foldl pool_step p sched.

(** [await Promise.all(workers)] has resolved. *)
Definition pool_done (p : Pool) : bool :=
  forallb (fun w => match w with Returned => true | _ => false end)
          (workers p).

(** [crawlPages(urls)] under a schedule: [None] while some worker is
    still running. *)
Definition crawlPages (concurrency : Z) (sched : list Tick)
  : option (list PageResult) :=
  let p := pool_run (pool_init concurrency) sched in
  if pool_done p then Some (filter_Boolean (results p)) else None.

End CrawlPool.

(** ** Sitemap resolver: [extractUrlsFromXml], [parseSitemap], [extractUrls] *)

Module Xml.

(** Split [s] at the first occurrence of [pat]: what precedes it and what
    follows it. *)
Fixpoint find_sub (pat s : string) : option (string * string) :=
  if String.prefix pat s then
    Some (EmptyString, String.substring (String.length pat)
                         (String.length s - String.length pat) s)
  else match s with
       | EmptyString => None
       | String c r =>
           match find_sub pat r with
           | Some (before, after) => Some (String c before, after)
           | None => None
           end
       end.

(** The longest prefix without ['<'] (the greedy [[^<]+]) and the rest. *)
Fixpoint span_not_lt (s : string) : string * string :=
  match s with
  | EmptyString => (EmptyString, EmptyString)
  | String c r =>
      if Ascii.eqb c "<"%char then (EmptyString, s)
      else let '(run, rest) := span_not_lt r in (String c run, rest)
  end.

(** First match of [/<tag>([^<]+)<\/tag>/] in [s]: the captured group and
    what follows the match.  [opening] is ["<tag>"], [closing] is
    ["</tag>"]. *)
Fixpoint match_tag (opening closing : string) (fuel : nat) (s : string)
  : option (string * string) :=
  match fuel with
  | O => None
  | S fuel' =>
      match find_sub opening s with
      | None => None
      | Some (_, rest) =>
          let '(run, after) := span_not_lt rest in
          if JS.truthy run && String.prefix closing after then
            Some (run, String.substring (String.length closing)
                         (String.length after - String.length closing) after)
          else match_tag opening closing fuel' rest
      end
  end.

Definition match_loc (s : string) : option (string * string) :=
  match_tag "<loc>" "</loc>" (S (String.length s)) s.

Definition match_lastmod (s : string) : option (string * string) :=
  match_tag "<lastmod>" "</lastmod>" (S (String.length s)) s.

(** The captured groups of [xml.matchAll(/<url>([\s\S]*?)<\/url>/g)]. *)
Fixpoint url_blocks (fuel : nat) (xml : string) : list string :=
  match fuel with
  | O => []
  | S fuel' =>
      match find_sub "<url>" xml with
      | None => []
      | Some (_, rest) =>
          match find_sub "</url>" rest with
          | None => []
          | Some (block, rest') => block :: url_blocks fuel' rest'
          end
      end
  end.

(** The captured groups of [xml.matchAll(/<loc>([^<]+)<\/loc>/g)]. *)
Fixpoint all_locs (fuel : nat) (xml : string) : list string :=
  match fuel with
  | O => []
  | S fuel' =>
      match match_loc xml with
      | None => []
      | Some (captured, rest) => captured :: all_locs fuel' rest
      end
  end.

End Xml.

(** The body of the [for (const match of urlMatches)] loop. *)
Definition entry_of_block (urlBlock : string) : option SitemapUrl :=
  if negb (JS.truthy urlBlock) then None
  else
    match Xml.match_loc urlBlock with
    | Some (l, _) =>
        Some {| loc := JS.trim l;
                su_lastmod :=
                  match Xml.match_lastmod urlBlock with
                  | Some (m, _) => Some (JS.trim m)
                  | None => None
                  end |}
    | None => None
    end.

Definition extractUrlsFromXml (xml : string) : list SitemapUrl :=
  let sitemapUrls :=
    omap entry_of_block (Xml.url_blocks (S (String.length xml)) xml) in
  if length sitemapUrls =? 0 then
    map (fun l => {| loc := JS.trim l; su_lastmod := None |})
        (Xml.all_locs (S (String.length xml)) xml)
  else sitemapUrls.

Record SitemapResult := mkSitemapResult {
  sr_urls : list SitemapUrl;
  isIndex : bool;
  childSitemaps : option (list string)
}.

(** A JS [Map] keyed by strings, in insertion order: [set] on a present key
    replaces the value where it stands. *)
Fixpoint Map_set {V} (k : string) (v : V) (m : list (string * V))
  : list (string * V) :=
  match m with
  | [] => [(k, v)]
  | (k', v') :: m' =>
      if String.eqb k k' then (k, v) :: m' else (k', v') :: Map_set k v m'
  end.

Definition Map_has {V} (k : string) (m : list (string * V)) : bool :=
  existsb (fun kv => String.eqb k (fst kv)) m.

Fixpoint Map_get {V} (k : string) (m : list (string * V)) : option V :=
  match m with
  | [] => None
  | (k', v) :: m' => if String.eqb k k' then Some v else Map_get k m'
  end.

Definition Map_values {V} (m : list (string * V)) : list V := map snd m.

Section Sitemap.
Variable fetch : Network.
(** [new URL(s).hostname]; [None] when the constructor throws. *)
Variable hostname : string -> option string.
Variable siteUrl : string.
Variable sitemapUrl : string.

(** The [try] block of [parseSitemap]. *)
Definition parseSitemap_try (sitemap : string) : Thrown + SitemapResult :=
  match snd (fetchWithRetry fetch sitemap) with
  | inl e => inl e
  | inr response =>
      match text response with
      | inl e => inl e
      | inr xml =>
          let urls := extractUrlsFromXml xml in
          let is_xml := fun urlEntry => JS.endsWith (loc urlEntry) ".xml" in
          if existsb is_xml urls then
            inr {| sr_urls := []; isIndex := true;
                   childSitemaps := Some (map loc (List.filter is_xml urls)) |}
          else
            match hostname siteUrl with
            | None => inl (JsError "Invalid URL")
            | Some siteHost =>
                inr {| sr_urls :=
                         List.filter (fun urlEntry =>
                                   match hostname (loc urlEntry) with
                                   | Some h => String.eqb h siteHost
                                   | None => false
                                   end) urls;
                       isIndex := false; childSitemaps := None |}
            end
      end
  end.

Definition parseSitemap (sitemap : string) : Thrown + SitemapResult :=
  match parseSitemap_try sitemap with
  | inr r => inr r
  | inl _ =>
      inl (GeneratorError ("Failed to parse sitemap: " +:+ sitemap)
             NETWORK_ERROR (Some sitemap))
  end.

(** The [for (const childSitemap of ...)] loop over the [allUrls] map: a
    child that fails to parse is skipped. *)
Definition merge_child (allUrls : list (string * SitemapUrl))
    (childSitemap : string) : list (string * SitemapUrl) :=
  match parseSitemap childSitemap with
  | inr childResult =>
      foldl (fun m urlEntry => Map_set (loc urlEntry) urlEntry m)
            allUrls (sr_urls childResult)
  | inl _ => allUrls
  end.

Definition extractUrls : Thrown + list SitemapUrl :=
  match parseSitemap sitemapUrl with
  | inl e => inl e
  | inr sitemapResult =>
      match isIndex sitemapResult, childSitemaps sitemapResult with
      | true, Some children =>
          inr (Map_values (foldl merge_child [] children))
      | _, _ => inr (sr_urls sitemapResult)
      end
  end.

End Sitemap.

(** ** URL normalizer and matcher: [normalizeUrl], [isInternalUrl],
       [matchesAnyPattern] *)

(** A parsed [URL] object, as far as the code looks into it: the query
    (without its ["?"]; [None] is the null query), the fragment, and the
    rest (scheme, host, port, path). *)
Record URLObj (R : Type) := mkURL {
  u_rest : R;
  u_query : option string;
  u_fragment : option string
}.
Arguments mkURL {R} _ _ _.
Arguments u_rest {R} _.
Arguments u_query {R} _.
Arguments u_fragment {R} _.

(** The platform's URL library: [new URL(s)] ([None] when it throws),
    [url.toString()], [url.hostname], and the parser and serializer of
    [URLSearchParams]. *)
Record UrlApi := mkUrlApi {
  UrlRest : Type;
  parseURL : string -> option (URLObj UrlRest);
  href : URLObj UrlRest -> string;
  hostname_of : UrlRest -> string;
  parseQuery : string -> list (string * string);
  serializeQuery : list (string * string) -> string
}.

(** [params.set(name, value)]: the first pair named [name] takes the value
    and the others are removed; without one, the pair is appended. *)
Fixpoint URLSearchParams_set (name value : string)
    (params : list (string * string)) : list (string * string) :=
  match params with
  | [] => [(name, value)]
  | (n, v) :: rest =>
      if String.eqb name n then
        (name, value)
          :: List.filter (fun nv => negb (String.eqb name (fst nv))) rest
      else (n, v) :: URLSearchParams_set name value rest
  end.

(** A string-or-RegExp pattern; a regular expression is its [test]. *)
Inductive Pattern :=
| PString (s : string)
| PRegExp (test : string -> bool).

Definition matchesAnyPattern (u : string) (patterns : list Pattern) : bool :=
  existsb (fun pattern =>
             match pattern with
             | PString s => JS.includes u s
             | PRegExp test => test u
             end) patterns.

Section UrlNormalizer.
Variable api : UrlApi.
Variable siteUrl : string.
Variable keepQueryParams : list string.

(** [new URL(s).hostname] *)
Definition hostname (s : string) : option string :=
  match parseURL api s with
  | Some u => Some (hostname_of api (u_rest u))
  | None => None
  end.

Definition isInternalUrl (u : string) : bool :=
  match hostname u, hostname siteUrl with
  | Some h, Some siteHost => String.eqb h siteHost
  | _, _ => false
  end.

(** [urlObj.searchParams.get(param)] *)
Definition searchParams_get (urlObj : URLObj (UrlRest api)) (param : string)
  : option string :=
  Map_get param (parseQuery api (default "" (u_query urlObj))).

(** [urlObj.search = s]: the empty string gives the null query. *)
Definition set_search (urlObj : URLObj (UrlRest api)) (s : string)
  : URLObj (UrlRest api) :=
  mkURL (u_rest urlObj) (if JS.truthy s then Some s else None)
        (u_fragment urlObj).

(** [urlObj.hash = ''] *)
Definition clear_hash (urlObj : URLObj (UrlRest api))
  : URLObj (UrlRest api) :=
  mkURL (u_rest urlObj) (u_query urlObj) None.

(** The [for (const param of keepQueryParams)] loop. *)
Definition paramsToKeep (urlObj : URLObj (UrlRest api))
  : list (string * string) :=
  foldl (fun kept param =>
           match searchParams_get urlObj param with
           | Some value => URLSearchParams_set param value kept
           | None => kept
           end) [] keepQueryParams.

(** The URL object [normalizeUrl] serializes. *)
Definition normalized (urlObj : URLObj (UrlRest api))
  : URLObj (UrlRest api) :=
  let urlObj := clear_hash urlObj in
  if 0 <? length keepQueryParams then
    set_search urlObj (serializeQuery api (paramsToKeep urlObj))
  else set_search urlObj "".

Definition normalizeUrl (u : string) : string :=
  match parseURL api u with
  | Some urlObj => href api (normalized urlObj)
  | None => u
  end.

End UrlNormalizer.

(** ** Filtering the candidate URLs: [filterUrls] *)

(** [arr.slice(0, end)] for an integral [end]: a negative [end] counts from
    the end of the array. *)
Definition slice0 {A} (arr : list A) (e : Z) : list A :=
  if (e <? 0)%Z then take (Z.to_nat (Z.of_nat (length arr) + e)) arr
  else take (Z.to_nat e) arr.

Section FilterUrls.
Variable siteUrl : string.
Variable includePatterns excludePatterns : list Pattern.
Variable maxPages : Z.

Definition filterUrls (urls : list SitemapUrl) : list SitemapUrl :=
  let filtered := urls in
  let filtered :=
    if 0 <? length includePatterns then
      List.filter (fun urlEntry =>
                     matchesAnyPattern (loc urlEntry) includePatterns)
                  filtered
    else filtered in
  let filtered :=
    if 0 <? length excludePatterns then
      List.filter (fun urlEntry =>
                     negb (matchesAnyPattern (loc urlEntry) excludePatterns))
                  filtered
    else filtered in
  let filtered := slice0 filtered maxPages in
  if length filtered =? 0 then [{| loc := siteUrl; su_lastmod := None |}]
  else filtered.

End FilterUrls.

(** ** Recursive link discoverer: [discoverUrlsRecursively] *)

Inductive DiscoveryMethod := sitemap | internal_link | external_link.

Record DiscoveredUrl := mkDiscoveredUrl {
  d_url : string;
  depth : nat;
  parentUrl : option string;
  discoveryMethod : DiscoveryMethod;
  d_lastmod : option string
}.

(** [set.add(x)] on a JS [Set] of strings, in insertion order. *)
Definition Set_add (x : string) (s : list string) : list string :=
  if existsb (String.eqb x) s then s else s ++ [x].

Section Discovery.
Variable api : UrlApi.
Variable fetch : Network.
(** The [href] of every [a[href]] element of the document that JSDOM
    builds from the page ([html], loaded at [url]); constructing the DOM
    may throw. *)
Variable anchorHrefs : string -> string -> Thrown + list string.
(** [new URL(href, base).toString()]; [None] when it throws. *)
Variable resolveUrl : string -> string -> option string.
Variable siteUrl : string.
Variable keepQueryParams : list string.
Variable enableRecursiveDiscovery : bool.
Variable maxRecursiveDepth : Z.
Variable maxLinksPerPage : Z.
Variable concurrency : Z.

Definition sitemap_entry (u : string) (lm : option string) : DiscoveredUrl :=
  {| d_url := u; depth := 0; parentUrl := None; discoveryMethod := sitemap;
     d_lastmod := if JS.truthy_opt lm then lm else None |}.

Definition extractLinksFromPage (u : string) (d : nat)
  : list DiscoveredUrl :=
  match snd (fetchWithRetry fetch u) with
  | inl _ => []
  | inr response =>
      match text response with
      | inl _ => []
      | inr html =>
          match anchorHrefs u html with
          | inl _ => []
          | inr hrefs =>
              let links :=
                omap (fun h =>
                        match resolveUrl h u with
                        | Some absoluteUrl =>
                            let n := normalizeUrl api keepQueryParams
                                       absoluteUrl in
                            if isInternalUrl api siteUrl n
                               && negb (String.eqb n u)
                            then Some n else None
                        | None => None
                        end) hrefs in
              map (fun link =>
                     {| d_url := link; depth := d; parentUrl := Some u;
                        discoveryMethod := internal_link;
                        d_lastmod := None |})
                  (slice0 links maxLinksPerPage)
          end
      end
  end.

(** [extractLinksFromPages]: the workers [shift] the pages off the queue
    in order; a worker that shifts an empty string leaves its loop.  The
    links are listed here in queue order (the order in which the workers'
    fetches settle permutes the pages' blocks, nothing else). *)
Fixpoint extractLinksLoop (workersLeft : nat) (queue : list string)
    (d : nat) : list DiscoveredUrl :=
  match queue, workersLeft with
  | [], _ | _, O => []
  | u :: rest, S w =>
      if JS.truthy u then
        extractLinksFromPage u d ++ extractLinksLoop workersLeft rest d
      else extractLinksLoop w rest d
  end.

Definition extractLinksFromPages (pages : list string) (d : nat)
  : list DiscoveredUrl :=
  extractLinksLoop (Z.to_nat concurrency) pages d.

(** The state of the discovery loop: the [discovered] map and the
    [toProcess] set. *)
Definition Frontier : Type :=
  list (string * DiscoveredUrl) * list string.

Definition add_initial (st : Frontier) (urlEntry : SitemapUrl) : Frontier :=
  let normalizedUrl := normalizeUrl api keepQueryParams (loc urlEntry) in
  (Map_set normalizedUrl (sitemap_entry normalizedUrl (su_lastmod urlEntry))
           (fst st),
   Set_add normalizedUrl (snd st)).

Definition add_new (st : Frontier) (newUrl : DiscoveredUrl) : Frontier :=
  let normalizedUrl := normalizeUrl api keepQueryParams (d_url newUrl) in
  if negb (Map_has normalizedUrl (fst st))
     && isInternalUrl api siteUrl normalizedUrl
  then (Map_set normalizedUrl newUrl (fst st),
        Set_add normalizedUrl (snd st))
  else st.

(** The loop [for (depth = 0; depth < maxRecursiveDepth; depth++)],
    entered at depth [d] with [fuel] rounds left. *)
Fixpoint discoverLoop (fuel : nat) (d : nat) (st : Frontier) : Frontier :=
  match fuel with
  | O => st
  | S fuel' =>
      let currentLevelUrls :=
        List.filter (fun u =>
                       match Map_get u (fst st) with
                       | Some du => depth du =? d
                       | None => false
                       end) (snd st) in
      if length currentLevelUrls =? 0 then st
      else
        let newUrls := extractLinksFromPages currentLevelUrls (d + 1) in
        discoverLoop fuel' (S d) (foldl add_new st newUrls)
  end.

Definition discoverUrlsRecursively (initialUrls : list SitemapUrl)
  : list DiscoveredUrl :=
  if negb enableRecursiveDiscovery then
    map (fun u => sitemap_entry (loc u) (su_lastmod u)) initialUrls
  else
    let st := foldl add_initial ([], []) initialUrls in
    Map_values (fst (discoverLoop (Z.to_nat maxRecursiveDepth) 0 st)).

End Discovery.

(** ** Ordering the URLs: [sortUrls] *)

Section SortUrls.
(** [Array.prototype.sort]: the comparator's sign is all it looks at (a
    [NaN] counts as 0). *)
Variable Array_sort : forall A : Type, (A -> A -> Z) -> list A -> list A.
(** [new Date(s).getTime()], [None] for [NaN]; and [a.localeCompare(b)]. *)
Variable dateTime : string -> option Z.
Variable localeCompare : string -> string -> Z.

Definition compareUrls (a b : SitemapUrl) : Z :=
  let byLoc := localeCompare (loc a) (loc b) in
  match su_lastmod a, su_lastmod b with
  | Some la, Some lb =>
      if JS.truthy la && JS.truthy lb then
        match dateTime la, dateTime lb with
        | Some ta, Some tb => if (ta =? tb)%Z then byLoc else (tb - ta)%Z
        | _, _ => 0%Z                        (* dateB - dateA is NaN *)
        end
      else if JS.truthy la then (-1)%Z
      else if JS.truthy lb then 1%Z
      else byLoc
  | Some la, None => if JS.truthy la then (-1)%Z else byLoc
  | None, Some lb => if JS.truthy lb then 1%Z else byLoc
  | None, None => byLoc
  end.

Definition sortUrls (urls : list SitemapUrl) : list SitemapUrl :=
  Array_sort _ compareUrls urls.

End SortUrls.

(** ** Categorizer and filter: class [ContentFilter] *)

Record ContentCategory := mkContentCategory {
  id : string;
  name : string;
  priority : float;
  urlPatterns : list string;
  contentPatterns : list string;
  cat_maxPages : option Z;
  enabled : bool
}.

(** The configuration a [ContentFilter] holds: the user's partial
    configuration spread over [DEFAULT_FILTER_CONFIG]. *)
Record ContentFilterConfig := mkContentFilterConfig {
  categories : list ContentCategory;
  defaultCategory : string;
  groupByCategory_flag : bool;
  minContentLength : option Z;
  maxContentLength : option Z;
  priorityKeywords : option (list string);
  excludeKeywords : option (list string)
}.

Record CategorizedPageResult := mkCategorized {
  page : PageResult;
  category : string;
  categoryPriority : float;
  relevanceScore : float;
  matchedKeywords : list string
}.

Module Num.
(** The sign a comparator's result has for [sort]. *)
Definition sign (x : float) : Z :=
  if PrimFloat.ltb x 0%float then (-1)%Z
  else if PrimFloat.ltb 0%float x then 1%Z else 0%Z.

(** [x || 0] on numbers: [NaN] and zero are falsy. *)
Definition or_zero (x : float) : float :=
  if PrimFloat.eqb x x && negb (PrimFloat.eqb x 0%float) then x else 0%float.

(** The double closest to [0.1]. *)
Definition tenth : float := 0x1.999999999999ap-4%float.

(** [Math.min(1, x)] *)
Definition min1 (x : float) : float :=
  if PrimFloat.eqb x x then
    if PrimFloat.ltb x 1%float then x else 1%float
  else x.

(** [s.toLowerCase()] on code units below 256. *)
Definition lower_char (c : ascii) : ascii :=
  let n := nat_of_ascii c in
  if ((65 <=? n) && (n <=? 90))
     || ((192 <=? n) && (n <=? 222) && negb (n =? 215))
  then ascii_of_nat (n + 32) else c.

Fixpoint toLowerCase (s : string) : string :=
  match s with
  | EmptyString => EmptyString
  | String c r => String (lower_char c) (toLowerCase r)
  end.

(** An own property key that is an array index (["0"], ["17"]): such keys
    come first, in numeric order, when an object's keys are listed. *)
Definition array_index (k : string) : option N :=
  match NilEmpty.uint_of_string k with
  | Some d =>
      let n := N.of_uint d in
      if String.eqb (NilZero.string_of_uint (N.to_uint n)) k
         && (n <? 4294967295)%N
      then Some n else None
  | None => None
  end.
End Num.

Section ContentFilter.
Variable Array_sort : forall A : Type, (A -> A -> Z) -> list A -> list A.
(** [content.match(new RegExp(pattern, 'gi'))]: the number of matches
    ([0] for [null]); the constructor throws on a malformed pattern. *)
Variable regexMatchCount : string -> string -> Thrown + nat.
Variable config : ContentFilterConfig.

Definition find_category (cid : string) : option ContentCategory :=
  List.find (fun c => String.eqb (id c) cid) (categories config).

Definition haystack (p : PageResult) : string :=
  Num.toLowerCase (title p +:+ " " +:+ content p).

Definition calculateCategoryScore (p : PageResult) (c : ContentCategory)
  : Thrown + nat :=
  let score :=
    foldl (fun score pattern =>
             if JS.includes (Num.toLowerCase (url p))
                            (Num.toLowerCase pattern)
             then score + 10 else score) 0 (urlPatterns c) in
  foldl (fun acc pattern =>
           match acc with
           | inl e => inl e
           | inr score =>
               match regexMatchCount (Num.toLowerCase pattern)
                                     (haystack p) with
               | inl e => inl e
               | inr matches => inr (score + matches * 2)
               end
           end) (inr score) (contentPatterns c).

Definition findBestCategory (p : PageResult) : Thrown + ContentCategory :=
  let start :=
    match find_category (defaultCategory config) with
    | Some c => Some c
    | None => head (categories config)
    end in
  match start with
  | None => inl (JsError "No categories available for content filtering")
  | Some bestCategory =>
      match
        foldl (fun acc c =>
                 match acc with
                 | inl e => inl e
                 | inr (bestCategory, bestScore) =>
                     if negb (enabled c) then acc
                     else
                       match calculateCategoryScore p c with
                       | inl e => inl e
                       | inr score =>
                           if bestScore <? score then inr (c, score)
                           else acc
                       end
                 end) (inr (bestCategory, 0)) (categories config)
      with
      | inl e => inl e
      | inr (best, _) => inr best
      end
  end.

Definition keyword_hits (p : PageResult) : list string :=
  List.filter (fun keyword =>
                 JS.includes (haystack p) (Num.toLowerCase keyword))
              (default [] (priorityKeywords config)).

Definition calculateRelevanceScore (p : PageResult) (c : ContentCategory)
  : float :=
  let score :=
    foldl (fun score _ => (score + Num.tenth)%float) 0.5%float
          (keyword_hits p) in
  let score :=
    if 1000 <? contentLength p then (score + Num.tenth)%float else score in
  Num.min1 (score + priority c / 100)%float.

Definition categorize (p : PageResult) : Thrown + CategorizedPageResult :=
  match findBestCategory p with
  | inl e => inl e
  | inr c =>
      inr {| page := p; category := id c; categoryPriority := priority c;
             relevanceScore := calculateRelevanceScore p c;
             matchedKeywords := keyword_hits p |}
  end.

(** [limit && cond]: a limit that is absent or zero is not applied. *)
Definition limit_applies (limit : option Z) (cond : Z -> bool) : bool :=
  match limit with
  | Some l => negb (l =? 0)%Z && cond l
  | None => false
  end.

Definition shouldIncludePage (cp : CategorizedPageResult) : bool :=
  let len := Z.of_nat (contentLength (page cp)) in
  if limit_applies (minContentLength config) (fun l => (len <? l)%Z)
  then false
  else if limit_applies (maxContentLength config) (fun l => (l <? len)%Z)
  then false
  else if existsb (fun keyword =>
                     JS.includes (haystack (page cp))
                                 (Num.toLowerCase keyword))
                  (default [] (excludeKeywords config))
  then false
  else match find_category (category cp) with
       | Some c => enabled c
       | None => false
       end.

Definition comparePriority (a b : CategorizedPageResult) : Z :=
  if negb (PrimFloat.eqb (categoryPriority a) (categoryPriority b)) then
    Num.sign (categoryPriority b - categoryPriority a)%float
  else if negb (PrimFloat.eqb (relevanceScore a) (relevanceScore b)) then
    Num.sign (Num.or_zero (relevanceScore b)
              - Num.or_zero (relevanceScore a))%float
  else (Z.of_nat (contentLength (page b))
        - Z.of_nat (contentLength (page a)))%Z.

(** [pages.map(categorize)], which stops at the first throw. *)
Fixpoint categorize_all (pages : list PageResult)
  : Thrown + list CategorizedPageResult :=
  match pages with
  | [] => inr []
  | p :: rest =>
      match categorize p with
      | inl e => inl e
      | inr cp =>
          match categorize_all rest with
          | inl e => inl e
          | inr cps => inr (cp :: cps)
          end
      end
  end.

Definition cf_filter (pages : list PageResult)
  : Thrown + list CategorizedPageResult :=
  match categorize_all pages with
  | inl e => inl e
  | inr cps =>
      inr (Array_sort _ comparePriority (List.filter shouldIncludePage cps))
  end.

(** [grouped[page.category].push(page)] over a [Record<string, ...>]
    kept in insertion order. *)
Fixpoint group_push (cp : CategorizedPageResult)
    (grouped : list (string * list CategorizedPageResult))
  : list (string * list CategorizedPageResult) :=
  match grouped with
  | [] => [(category cp, [cp])]
  | (k, ps) :: rest =>
      if String.eqb k (category cp) then (k, (ps ++ [cp])%list) :: rest
      else (k, ps) :: group_push cp rest
  end.

Definition groupByCategory (pages : list CategorizedPageResult)
  : list (string * list CategorizedPageResult) :=
  foldl (fun grouped cp => group_push cp grouped) [] pages.

Fixpoint insert_indexed {V} (n : N) (entry : V) (l : list (N * V))
  : list (N * V) :=
  match l with
  | [] => [(n, entry)]
  | (m, x) :: rest =>
      if (n <=? m)%N then (n, entry) :: l
      else (m, x) :: insert_indexed n entry rest
  end.

(** [Object.entries(grouped)]: array-index keys first, in numeric order,
    then the other keys in insertion order. *)
Definition Object_entries {V} (o : list (string * V)) : list (string * V) :=
  let indexed :=
    omap (fun kv => match Num.array_index (fst kv) with
                    | Some n => Some (n, kv)
                    | None => None
                    end) o in
  let others :=
    List.filter (fun kv => match Num.array_index (fst kv) with
                           | Some _ => false
                           | None => true
                           end) o in
  (map snd (foldr (fun e acc => insert_indexed (fst e) (snd e) acc)
                  [] indexed) ++ others)%list.

Definition applyCategoryLimits (pages : list CategorizedPageResult)
  : list CategorizedPageResult :=
  flat_map (fun entry =>
              let '(categoryId, categoryPages) := entry in
              let maxPages :=
                match find_category categoryId with
                | Some c => default (Z.of_nat (length categoryPages))
                                    (cat_maxPages c)
                | None => Z.of_nat (length categoryPages)
                end in
              slice0 categoryPages maxPages)
           (Object_entries (groupByCategory pages)).

End ContentFilter.

Section ApplyContentFiltering.
Variable Array_sort : forall A : Type, (A -> A -> Z) -> list A -> list A.
Variable regexMatchCount : string -> string -> Thrown + nat.
(** [options.contentFilter] after the constructor's spread over the
    defaults; [None] when the option is absent or has no key. *)
Variable contentFilter : option ContentFilterConfig.

Definition applyContentFiltering (pageResults : list PageResult)
  : list PageResult :=
  match contentFilter with
  | None => pageResults
  | Some config =>
      match cf_filter Array_sort regexMatchCount config pageResults with
      | inl _ => pageResults
      | inr categorizedResults =>
          map page (applyCategoryLimits config categorizedResults)
      end
  end.

End ApplyContentFiltering.

(** ** Assembler: [applyCharacterLimits] *)

Record GenerationStats := mkStats {
  totalPages : nat;
  successfulPages : nat;
  failedPages : nat;
  skippedPages : nat;
  truncatedPages : nat;
  totalContentLength : nat;
  totalOriginalLength : nat;
  startTime : nat;
  endTime : nat;
  duration : nat;
  globalLimitReached : bool
}.

(** [createInitialStats()], at clock [t]. *)
Definition createInitialStats (t : nat) : GenerationStats :=
  {| totalPages := 0; successfulPages := 0; failedPages := 0;
     skippedPages := 0; truncatedPages := 0; totalContentLength := 0;
     totalOriginalLength := 0; startTime := t; endTime := t; duration := 0;
     globalLimitReached := false |}.

Definition set_globalLimitReached (st : GenerationStats) : GenerationStats :=
  mkStats (totalPages st) (successfulPages st) (failedPages st)
    (skippedPages st) (truncatedPages st) (totalContentLength st)
    (totalOriginalLength st) (startTime st) (endTime st) (duration st) true.

Definition incr_truncatedPages (st : GenerationStats) : GenerationStats :=
  mkStats (totalPages st) (successfulPages st) (failedPages st)
    (skippedPages st) (S (truncatedPages st)) (totalContentLength st)
    (totalOriginalLength st) (startTime st) (endTime st) (duration st)
    (globalLimitReached st).

Definition newline : string := String (ascii_of_nat 10) EmptyString.

Section Assembler.
Variable maxCharsPerPage : Z.
Variable maxTotalChars : Z.

(** The marker appended to a clamped page. *)
Definition truncation_marker : string :=
  newline +:+ newline +:+ "[TRUNCATED at " +:+ JS.Z_toString maxCharsPerPage
    +:+ " chars]".

(** [result.content.length > this.options.maxCharsPerPage] *)
Definition over_page_limit (result : PageResult) : bool :=
  (maxCharsPerPage <? Z.of_nat (String.length (content result)))%Z.

(** The copy [{ ...result }] with the three fields the [if] assigns. *)
Definition truncate_page (result : PageResult) : PageResult :=
  mkPageResult (url result) (title result)
    (JS.substring0 (content result) maxCharsPerPage +:+ truncation_marker)
    (success result) (error result) (timestamp result)
    (contentLength result) (lastmod result) (language result)
    (statusCode result) (skipReason result)
    (Some true) (Some (String.length (content result))).

(** The body of the [for] loop after the limit check. *)
Definition process_page (result : PageResult) : PageResult :=
  if over_page_limit result then truncate_page result else result.

(** The [for (const result of pageResults)] loop, entered with the
    running [totalChars] and the statistics so far. *)
Fixpoint limitsLoop (pageResults : list PageResult) (totalChars : nat)
    (stats : GenerationStats) : list PageResult * GenerationStats :=
  match pageResults with
  | [] => ([], stats)
  | result :: rest =>
      if (maxTotalChars <=? Z.of_nat totalChars)%Z then
        ([], set_globalLimitReached stats)                    (* break *)
      else
        let processedResult := process_page result in
        let stats :=
          if over_page_limit result then incr_truncatedPages stats
          else stats in
        let '(processedResults, stats) :=
          limitsLoop rest
            (totalChars + String.length (content processedResult)) stats in
        (processedResult :: processedResults, stats)
  end.

Definition applyCharacterLimits (pageResults : list PageResult)
    (stats : GenerationStats) : list PageResult * GenerationStats :=
  limitsLoop pageResults 0 stats.

End Assembler.

(** ** Content extractor: [extractContent], [extractContentWithFallbacks] *)

(** What [Readability.parse()] returns; a missing field is the empty
    string (both are falsy). *)
Record Article := mkArticle {
  a_title : string;
  a_content : string
}.

(** The platform's DOM (JSDOM), Readability and Turndown, as far as the
    extractor uses them.  Operations that change the document return the
    changed document. *)
Record DomApi := mkDomApi {
  Doc : Type;
  (** [new JSDOM(html, { url }).window.document] *)
  parseHTML : string -> string -> Thrown + Doc;
  doc_title : Doc -> string;
  (** [document.documentElement.getAttribute('lang')] *)
  doc_lang : Doc -> option string;
  (** [document.querySelectorAll(sel).forEach(el => el.remove())] *)
  removeAll : string -> Doc -> Thrown + Doc;
  (** [new Readability(document).parse()]; it rewrites the document. *)
  readability_parse : Doc -> Doc * (Thrown + option Article);
  (** [document.querySelector(sel)?.innerHTML] *)
  select_innerHTML : string -> Doc -> option string;
  (** [document.querySelector(sel)?.getAttribute('content')] *)
  select_content_attr : string -> Doc -> option string;
  (** The [textContent || ''] of each JSON-LD script element. *)
  jsonLdScripts : Doc -> list string;
  (** [JSON.parse(text)] and then the [description] and the [text] of the
      result, as the template literal prints them; [""] when falsy. *)
  jsonLd_fields : string -> Thrown + (string * string);
  (** [document.body?.innerHTML || ''], [document.body?.textContent || ''] *)
  body_innerHTML : Doc -> string;
  body_textContent : Doc -> string;
  (** [turndownService.turndown(html)] *)
  turndown : string -> string
}.

Module Text.

Definition is_nl (c : ascii) : bool := Ascii.eqb c (ascii_of_nat 10).

(** The run of newlines [s] starts with, counted, and what follows. *)
Fixpoint span_nl (s : string) : nat * string :=
  match s with
  | String c r =>
      if is_nl c then let '(n, rest) := span_nl r in (S n, rest)
      else (0, s)
  | EmptyString => (0, EmptyString)
  end.

Fixpoint newlines (n : nat) : string :=
  match n with O => EmptyString | S k => String (ascii_of_nat 10) (newlines k) end.

(** [s.replace(/\n{3,}/g, '\n\n')]: [pending] newlines have been read
    and not yet written. *)
Fixpoint collapse_nl (pending : nat) (s : string) : string :=
  match s with
  | EmptyString => newlines (if 3 <=? pending then 2 else pending)
  | String c r =>
      if is_nl c then collapse_nl (S pending) r
      else newlines (if 3 <=? pending then 2 else pending)
             +:+ String c (collapse_nl 0 r)
  end.

Definition collapseBlankLines (s : string) : string := collapse_nl 0 s.

(** [s.replace(/\s+/g, ' ')]: [inws] says that the run of white space
    being read has already been written as one space. *)
Fixpoint collapse_ws (inws : bool) (s : string) : string :=
  match s with
  | EmptyString => EmptyString
  | String c r =>
      if JS.is_ws c then
        if inws then collapse_ws true r
        else String " "%char (collapse_ws true r)
      else String c (collapse_ws false r)
  end.

Definition collapseWhitespace (s : string) : string := collapse_ws false s.

End Text.

(** A method's result: [{ title, content }]. *)
Record TitleContent := mkTC {
  tc_title : string;
  tc_content : string
}.

(** A double quote, and [name="value"] inside an attribute selector. *)
Definition dquote : string := String (ascii_of_nat 34) EmptyString.

Definition attr_selector (tag attr value : string) : string :=
  tag +:+ "[" +:+ attr +:+ "=" +:+ dquote +:+ value +:+ dquote +:+ "]".

Definition semanticSelectors : list string :=
  ["main"; "article"; attr_selector EmptyString "role" "main"; ".content";
   ".post-content"; ".entry-content"; ".article-content"; ".page-content"].

Definition contentSelectors : list string :=
  [".markdown-body"; ".prose"; ".documentation"; ".docs-content";
   ".wiki-content"; ".readme"; ".post-body"; ".entry-body"].

Section Extractor.
Variable dom : DomApi.
(** [this.cleanMarkdownContent], the optional cleaning pass (a chain of
    regular-expression rewrites; it is total on strings). *)
Variable cleanMarkdownContent : string -> string.
Variable contentTransformer : string -> string -> Thrown + string.
Variable stripSelectors : list string.
Variable useReadability : bool.
Variable enableMultipleExtractionMethods : bool.
Variable enableContentCleaning : bool.

(** [document.title || url] *)
Definition title_or_url (document : Doc dom) (u : string) : string :=
  JS.or_else (doc_title dom document) u.

(** An extraction method: it may rewrite the document, and it returns a
    result or throws. *)
Definition Method : Type :=
  Doc dom -> string -> Doc dom * (Thrown + TitleContent).

Definition extractWithReadability : Method := fun document u =>
  let '(document', parsed) := readability_parse dom document in
  (document',
   match parsed with
   | inl e => inl e
   | inr None => inl (JsError "Readability failed to parse content")
   | inr (Some article) =>
       let markdown := JS.trim (turndown dom (a_content article)) in
       inr {| tc_title :=
                JS.or_else (a_title article) (title_or_url document' u);
              tc_content := Text.collapseBlankLines markdown |}
   end).

(** The loop shared by the two selector methods. *)
Fixpoint first_selector (selectors : list string) (document : Doc dom)
    (u : string) : option TitleContent :=
  match selectors with
  | [] => None
  | selector :: rest =>
      match select_innerHTML dom selector document with
      | Some innerHTML =>
          let markdown := JS.trim (turndown dom innerHTML) in
          if 50 <? String.length markdown then
            Some {| tc_title := title_or_url document u;
                    tc_content := Text.collapseBlankLines markdown |}
          else first_selector rest document u
      | None => first_selector rest document u
      end
  end.

Definition extractWithSemanticSelectors : Method := fun document u =>
  (document,
   match first_selector semanticSelectors document u with
   | Some r => inr r
   | None => inl (JsError "No semantic content found")
   end).

Definition extractWithContentSelectors : Method := fun document u =>
  (document,
   match first_selector contentSelectors document u with
   | Some r => inr r
   | None => inl (JsError "No content selectors matched")
   end).

Definition extractWithMetadata : Method := fun document u =>
  let title := title_or_url document u in
  let metaDescription :=
    select_content_attr dom (attr_selector "meta" "name" "description")
                        document in
  let ogTitle :=
    select_content_attr dom (attr_selector "meta" "property" "og:title")
                        document in
  let ogDescription :=
    select_content_attr dom
      (attr_selector "meta" "property" "og:description") document in
  let c := EmptyString in
  let c :=
    match metaDescription with
    | Some d => if JS.truthy d
                then c +:+ "Description: " +:+ d +:+ newline +:+ newline
                else c
    | None => c
    end in
  let c :=
    match ogTitle with
    | Some t => if JS.truthy t && negb (String.eqb t title)
                then c +:+ "Title: " +:+ t +:+ newline +:+ newline
                else c
    | None => c
    end in
  let c :=
    match ogDescription with
    | Some d =>
        if JS.truthy d
           && negb (match metaDescription with
                    | Some m => String.eqb d m
                    | None => false
                    end)
        then c +:+ "Summary: " +:+ d +:+ newline +:+ newline
        else c
    | None => c
    end in
  let c :=
    foldl (fun c script =>
             match jsonLd_fields dom script with
             | inl _ => c
             | inr (description, txt) =>
                 let c :=
                   if JS.truthy description
                   then c +:+ "Structured Description: " +:+ description
                          +:+ newline +:+ newline
                   else c in
                 if JS.truthy txt
                 then c +:+ "Content: " +:+ txt +:+ newline +:+ newline
                 else c
             end) c (jsonLdScripts dom document) in
  (document,
   if String.length (JS.trim c) <? 50
   then inl (JsError "Insufficient metadata content")
   else inr {| tc_title := title; tc_content := JS.trim c |}).

Definition extractRawText : Method := fun document u =>
  let title := title_or_url document u in
  match removeAll dom
          "nav, footer, aside, .sidebar, .navigation, .menu, .header, .footer"
          document with
  | inl e => (document, inl e)
  | inr document' =>
      let cleanedText :=
        JS.trim (Text.collapseWhitespace (body_textContent dom document')) in
      (document',
       if String.length cleanedText <? 50
       then inl (JsError "Insufficient text content")
       else inr {| tc_title := title; tc_content := cleanedText |})
  end.

Definition extractionMethods : list Method :=
  [extractWithReadability; extractWithSemanticSelectors;
   extractWithContentSelectors; extractWithMetadata; extractRawText].

(** [result.content && result.content.trim().length > 50] *)
Definition accepted (r : TitleContent) : bool :=
  JS.truthy (tc_content r) && (50 <? String.length (JS.trim (tc_content r))).

(** The [for (const method of extractionMethods)] loop and the final
    fallback after it. *)
Fixpoint fallbackLoop (methods : list Method) (document : Doc dom)
    (u : string) : Doc dom * TitleContent :=
  match methods with
  | [] =>
      (document,
       {| tc_title := title_or_url document u;
          tc_content := "No content could be extracted from this page." |})
  | method :: rest =>
      match method document u with
      | (document', inr result) =>
          if accepted result then (document', result)
          else fallbackLoop rest document' u
      | (document', inl _) => fallbackLoop rest document' u
      end
  end.

Definition extractContentWithFallbacks (document : Doc dom) (u : string)
  : Doc dom * TitleContent :=
  fallbackLoop extractionMethods document u.

(** [forEach] over the strip selectors. *)
Fixpoint strip_all (selectors : list string) (document : Doc dom)
  : Thrown + Doc dom :=
  match selectors with
  | [] => inr document
  | selector :: rest =>
      match removeAll dom selector document with
      | inl e => inl e
      | inr document' => strip_all rest document'
      end
  end.

(** The single-method branch of [extractContent]. *)
Definition extractSingle (document : Doc dom) (u : string)
  : Thrown + TitleContent :=
  let finish (title contentHtml : string) (document : Doc dom) :=
    let markdown := JS.trim (turndown dom contentHtml) in
    {| tc_title := title;
       tc_content :=
         if 0 <? String.length markdown
         then Text.collapseBlankLines markdown
         else JS.trim (body_textContent dom document) |} in
  if useReadability then
    match readability_parse dom document with
    | (_, inl e) => inl e
    | (document', inr article) =>
        let a_t := match article with Some a => a_title a | None => EmptyString end in
        let a_c := match article with Some a => a_content a | None => EmptyString end in
        inr (finish (JS.or_else a_t (title_or_url document' u))
                    (JS.or_else a_c (body_innerHTML dom document'))
                    document')
    end
  else
    inr (finish (title_or_url document u) (body_innerHTML dom document)
                document).

Definition extractContent (u html : string) : Thrown + Extracted :=
  match parseHTML dom u html with
  | inl e => inl e
  | inr document =>
      let language :=
        match doc_lang dom document with
        | Some l => if JS.truthy l then Some l else None
        | None => None
        end in
      match strip_all (stripSelectors
                         ++ ["script, style, noscript, template"])
                      document with
      | inl e => inl e
      | inr document =>
          let extracted :=
            if enableMultipleExtractionMethods
            then inr (snd (extractContentWithFallbacks document u))
            else extractSingle document u in
          match extracted with
          | inl e => inl e
          | inr tc =>
              let c :=
                if enableContentCleaning
                then cleanMarkdownContent (tc_content tc)
                else tc_content tc in
              match contentTransformer c u with
              | inl e => inl e
              | inr c' =>
                  inr {| ex_title := tc_title tc; ex_content := c';
                         ex_language := language |}
              end
          end
      end
  end.

End Extractor.

(** ** The pipeline: [generate] *)

Inductive OutputFormat := full | small | minimal.

Record FormatLimits := mkFormatLimits {
  fl_maxPages : option Z;
  fl_maxCharsPerPage : option Z;
  fl_maxTotalChars : option Z
}.

(** [this.options]: the user's options merged with the defaults. *)
Record Options := mkOptions {
  o_siteUrl : string;
  o_sitemapUrl : string;
  o_maxPages : Z;
  o_concurrency : Z;
  o_includePatterns : list Pattern;
  o_excludePatterns : list Pattern;
  o_maxCharsPerPage : Z;
  o_maxTotalChars : Z;
  o_keepQueryParams : list string;
  o_contentTransformer : string -> string -> Thrown + string;
  o_enableRecursiveDiscovery : bool;
  o_maxRecursiveDepth : Z;
  o_maxLinksPerPage : Z;
  o_enableContentCleaning : bool;
  o_enableMultipleExtractionMethods : bool;
  o_outputFormat : OutputFormat;
  o_formatLimits : OutputFormat -> option FormatLimits;
  o_contentFilter : option ContentFilterConfig;
  (* this.extractionConfig *)
  o_stripSelectors : list string;
  o_useReadability : bool
}.

(** [mergeWithDefaults] gives these limits to the three formats when the
    user gives none. *)
Definition default_formatLimits (f : OutputFormat) : option FormatLimits :=
  Some match f with
       | full => mkFormatLimits (Some 5000%Z) (Some 200000%Z) (Some 50000000%Z)
       | small => mkFormatLimits (Some 100%Z) (Some 50000%Z) (Some 5000000%Z)
       | minimal => mkFormatLimits (Some 20%Z) (Some 10000%Z) (Some 200000%Z)
       end.

(** [applyFormatLimits()]: the limits of the chosen output format replace
    the options' own. *)
Definition format_limit (o : Options) (field : FormatLimits -> option Z)
    (own : Z) : Z :=
  match o_formatLimits o (o_outputFormat o) with
  | Some fl => default own (field fl)
  | None => own
  end.

Definition applyFormatLimits (o : Options) : Options :=
  mkOptions (o_siteUrl o) (o_sitemapUrl o)
    (format_limit o fl_maxPages (o_maxPages o))
    (o_concurrency o) (o_includePatterns o) (o_excludePatterns o)
    (format_limit o fl_maxCharsPerPage (o_maxCharsPerPage o))
    (format_limit o fl_maxTotalChars (o_maxTotalChars o))
    (o_keepQueryParams o) (o_contentTransformer o)
    (o_enableRecursiveDiscovery o) (o_maxRecursiveDepth o)
    (o_maxLinksPerPage o) (o_enableContentCleaning o)
    (o_enableMultipleExtractionMethods o) (o_outputFormat o)
    (o_formatLimits o) (o_contentFilter o) (o_stripSelectors o)
    (o_useReadability o).

(** Everything the generator obtains from its platform. *)
Record Platform := mkPlatform {
  url_api : UrlApi;
  dom_api : DomApi;
  p_Array_sort : forall A : Type, (A -> A -> Z) -> list A -> list A;
  p_dateTime : string -> option Z;
  p_localeCompare : string -> string -> Z;
  p_regexMatchCount : string -> string -> Thrown + nat;
  p_anchorHrefs : string -> string -> Thrown + list string;
  p_resolveUrl : string -> string -> option string;
  p_cleanMarkdownContent : string -> string
}.

Section Generate.
Variable P : Platform.
(** The network during sitemap resolution and link discovery, and the
    schedule (with its network) of the crawl worker pool. *)
Variable fetch : Network.
Variable sched : list Tick.
Variable clock : nat.

(** The back-conversion [discoveredUrls.map(url => ...)]. *)
Definition to_SitemapUrl (d : DiscoveredUrl) : SitemapUrl :=
  {| loc := d_url d;
     su_lastmod := if JS.truthy_opt (d_lastmod d) then d_lastmod d
                   else None |}.

(** The URL list handed to the crawl worker pool. *)
Definition generate_sortedUrls (o : Options) : Thrown + list SitemapUrl :=
  match extractUrls fetch (hostname (url_api P)) (o_siteUrl o)
                    (o_sitemapUrl o) with
  | inl e => inl e
  | inr urls =>
      let filteredUrls :=
        filterUrls (o_siteUrl o) (o_includePatterns o)
                   (o_excludePatterns o) (o_maxPages o) urls in
      let discoveredUrls :=
        discoverUrlsRecursively (url_api P) fetch (p_anchorHrefs P)
          (p_resolveUrl P) (o_siteUrl o) (o_keepQueryParams o)
          (o_enableRecursiveDiscovery o) (o_maxRecursiveDepth o)
          (o_maxLinksPerPage o) (o_concurrency o) filteredUrls in
      inr (sortUrls (p_Array_sort P) (p_dateTime P) (p_localeCompare P)
                    (map to_SitemapUrl discoveredUrls))
  end.

(** [generate()], up to the processed results the document is rendered
    from: [None] while the worker pool is still running under [sched],
    [inl] when [generate] throws.  Logging is left out, and so is
    [discoverFilesFromFileSystem], whose result [generate] only logs. *)
Definition generate (options : Options)
  : option (Thrown + list PageResult * GenerationStats) :=
  let stats := createInitialStats clock in
  let o := applyFormatLimits options in
  match generate_sortedUrls o with
  | inl e => Some (inl e)
  | inr sortedUrls =>
      match
        crawlPages
          (extractContent (dom_api P) (p_cleanMarkdownContent P)
             (o_contentTransformer o) (o_stripSelectors o)
             (o_useReadability o) (o_enableMultipleExtractionMethods o)
             (o_enableContentCleaning o))
          (o_contentTransformer o) sortedUrls (o_concurrency o) sched
      with
      | None => None
      | Some pageResults =>
          let filteredResults :=
            applyContentFiltering (p_Array_sort P) (p_regexMatchCount P)
                                  (o_contentFilter o) pageResults in
          Some (inr (applyCharacterLimits (o_maxCharsPerPage o)
                       (o_maxTotalChars o) filteredResults stats))
      end
  end.

End Generate.

(** ** A small platform to run the model on

    A URL is [scheme://host/path?query#fragment]; a query is a list of
    [name=value] pairs separated by [&]; sorting is a stable merge sort.
    These stand in for the platform where a statement is evaluated on a
    concrete input. *)

Module Toy.

(** [s] split at the first [c]. *)
Fixpoint split_at (c : ascii) (s : string) : string * option string :=
  match s with
  | EmptyString => (EmptyString, None)
  | String x r =>
      if Ascii.eqb x c then (EmptyString, Some r)
      else let '(a, b) := split_at c r in (String x a, b)
  end.

Fixpoint split_all (fuel : nat) (c : ascii) (s : string) : list string :=
  match fuel with
  | O => [s]
  | S fuel' =>
      match split_at c s with
      | (a, Some rest) => a :: split_all fuel' c rest
      | (a, None) => [a]
      end
  end.

(** The rest of a URL: scheme, host and path. *)
Record Rest := mkRest { scheme : string; host : string; path : string }.

Definition parse_rest (s : string) : option Rest :=
  match Xml.find_sub "://" s with
  | Some (sch, after) =>
      if JS.truthy sch then
        let '(h, p) := split_at "/" after in
        if JS.truthy h then
          Some (mkRest sch h (match p with
                              | Some p => "/" +:+ p
                              | None => "/"
                              end))
        else None
      else None
  | None => None
  end.

Definition parseURL (s : string) : option (URLObj Rest) :=
  let '(s1, frag) := split_at "#" s in
  let '(s2, query) := split_at "?" s1 in
  match parse_rest s2 with
  | Some r => Some (mkURL r query frag)
  | None => None
  end.

Definition href (u : URLObj Rest) : string :=
  scheme (u_rest u) +:+ "://" +:+ host (u_rest u) +:+ path (u_rest u)
    +:+ match u_query u with Some q => "?" +:+ q | None => EmptyString end
    +:+ match u_fragment u with Some f => "#" +:+ f | None => EmptyString end.

Definition parseQuery (q : string) : list (string * string) :=
  if JS.truthy q then
    map (fun nv => let '(n, v) := split_at "=" nv in
                   (n, default EmptyString v))
        (split_all (String.length q) "&" q)
  else [].

Fixpoint serializeQuery (ps : list (string * string)) : string :=
  match ps with
  | [] => EmptyString
  | [(n, v)] => n +:+ "=" +:+ v
  | (n, v) :: rest => n +:+ "=" +:+ v +:+ "&" +:+ serializeQuery rest
  end.

Definition api : UrlApi :=
  mkUrlApi Rest parseURL href host parseQuery serializeQuery.

(** A stable sort by a comparator's sign. *)
Fixpoint insert_sorted {A} (cmp : A -> A -> Z) (x : A) (l : list A)
  : list A :=
  match l with
  | [] => [x]
  | y :: r => if (cmp x y <=? 0)%Z then x :: l
              else y :: insert_sorted cmp x r
  end.

Definition Array_sort (A : Type) (cmp : A -> A -> Z) (l : list A) : list A :=
  foldr (insert_sorted cmp) [] l.

(** A document is the text of its body; its title is the text up to the
    first ['|'], when there is one. *)
Definition toy_title (d : string) : string :=
  match split_at "|" d with
  | (t, Some _) => t
  | (_, None) => EmptyString
  end.

Definition toy_body (d : string) : string :=
  match split_at "|" d with
  | (_, Some b) => b
  | (b, None) => b
  end.

Definition dom : DomApi :=
  {| Doc := string;
     parseHTML := fun _ html => inr html;
     doc_title := toy_title;
     doc_lang := fun _ => None;
     removeAll := fun _ d => inr d;
     readability_parse := fun d => (d, inr None);
     select_innerHTML := fun _ _ => None;
     select_content_attr := fun _ _ => None;
     jsonLdScripts := fun _ => [];
     jsonLd_fields := fun _ => inl NonError;
     body_innerHTML := toy_body;
     body_textContent := toy_body;
     turndown := fun h => h |}.

(** The order of code units, for [localeCompare]. *)
Definition localeCompare (a b : string) : Z :=
  match String.compare a b with
  | Lt => (-1)%Z | Eq => 0%Z | Gt => 1%Z
  end.

Definition platform : Platform :=
  {| url_api := api; dom_api := dom; p_Array_sort := Array_sort;
     p_dateTime := fun _ => None; p_localeCompare := localeCompare;
     p_regexMatchCount := fun _ _ => inr 0;
     p_anchorHrefs := fun _ html => inr (split_all (String.length html)
                                           " " html);
     p_resolveUrl := fun h _ => Some h;
     p_cleanMarkdownContent := fun s => s |}.

(** A response with status 200 and an HTML body. *)
Definition html_ok (body : string) : FetchOutcome :=
  Resolved (mkResponse 200%Z "OK" (Some "text/html") (inr body)).

Definition not_found : FetchOutcome :=
  Resolved (mkResponse 404%Z "Not Found" (Some "text/html")
                       (inr "<h1>Not Found</h1>")).

End Toy.

(** ** The default content filter: [DEFAULT_CATEGORIES],
       [DEFAULT_FILTER_CONFIG] and the constructor of [ContentFilter] *)

Definition DEFAULT_CATEGORIES : list ContentCategory :=
  [ {| id := "api"; name := "API Documentation"; priority := 10%float;
       urlPatterns := ["/api/"; "/docs/api/"; "/reference/"; "/endpoints/"];
       contentPatterns := ["API"; "endpoint"; "REST"; "GraphQL"; "HTTP";
                           "request"; "response"];
       cat_maxPages := Some 50%Z; enabled := true |};
    {| id := "guides"; name := "Guides & Tutorials"; priority := 9%float;
       urlPatterns := ["/guides/"; "/tutorials/"; "/how-to/";
                       "/getting-started/"];
       contentPatterns := ["tutorial"; "guide"; "step"; "how to";
                           "getting started"; "walkthrough"];
       cat_maxPages := Some 30%Z; enabled := true |};
    {| id := "concepts"; name := "Concepts & Theory"; priority := 8%float;
       urlPatterns := ["/concepts/"; "/theory/"; "/fundamentals/";
                       "/overview/"];
       contentPatterns := ["concept"; "theory"; "fundamental"; "overview";
                           "introduction"; "architecture"];
       cat_maxPages := Some 25%Z; enabled := true |};
    {| id := "examples"; name := "Examples & Code Samples";
       priority := 7%float;
       urlPatterns := ["/examples/"; "/samples/"; "/demos/"; "/playground/"];
       contentPatterns := ["example"; "sample"; "demo"; "code";
                           "implementation"; "snippet"];
       cat_maxPages := Some 20%Z; enabled := true |};
    {| id := "configuration"; name := "Configuration"; priority := 6%float;
       urlPatterns := ["/config/"; "/configuration/"; "/setup/";
                       "/installation/"];
       contentPatterns := ["config"; "configuration"; "setup"; "install";
                           "environment"; "settings"];
       cat_maxPages := Some 15%Z; enabled := true |};
    {| id := "troubleshooting"; name := "Troubleshooting & FAQ";
       priority := 5%float;
       urlPatterns := ["/troubleshooting/"; "/faq/"; "/issues/";
                       "/problems/"];
       contentPatterns := ["troubleshoot"; "FAQ"; "problem"; "issue";
                           "error"; "fix"; "solution"];
       cat_maxPages := Some 15%Z; enabled := true |};
    {| id := "changelog"; name := "Changelog & Release Notes";
       priority := 4%float;
       urlPatterns := ["/changelog/"; "/releases/"; "/history/";
                       "/versions/"];
       contentPatterns := ["changelog"; "release"; "version"; "history";
                           "update"; "breaking change"];
       cat_maxPages := Some 10%Z; enabled := true |};
    {| id := "blog"; name := "Blog Posts"; priority := 3%float;
       urlPatterns := ["/blog/"; "/articles/"; "/posts/"; "/news/"];
       contentPatterns := ["blog"; "article"; "post"; "news";
                           "announcement"];
       cat_maxPages := Some 10%Z; enabled := false |};
    {| id := "general"; name := "General Documentation";
       priority := 2%float;
       urlPatterns := ["/docs/"; "/documentation/"];
       contentPatterns := [];
       cat_maxPages := None; enabled := true |} ].

Definition DEFAULT_FILTER_CONFIG : ContentFilterConfig :=
  {| categories := DEFAULT_CATEGORIES;
     defaultCategory := "general";
     groupByCategory_flag := true;
     minContentLength := Some 100%Z;
     maxContentLength := Some 50000%Z;
     priorityKeywords := Some ["documentation"; "guide"; "tutorial"; "API";
                               "reference"];
     excludeKeywords := Some ["404"; "not found"; "error"; "maintenance"] |}.

(** A [Partial<ContentFilterConfig>]: [None] is a key the object does not
    have.  For the four optional fields a key may be present and hold
    [undefined], which is [Some None]. *)
Record PartialFilterConfig := mkPartialFilterConfig {
  pf_categories : option (list ContentCategory);
  pf_defaultCategory : option string;
  pf_groupByCategory : option bool;
  pf_includeCategoryMetadata : option bool;
  pf_minContentLength : option (option Z);
  pf_maxContentLength : option (option Z);
  pf_priorityKeywords : option (option (list string));
  pf_excludeKeywords : option (option (list string))
}.

(** [new ContentFilter(config)]: [{ ...DEFAULT_FILTER_CONFIG, ...config }]. *)
Definition ContentFilter_new (config : PartialFilterConfig)
  : ContentFilterConfig :=
  {| categories :=
       default (categories DEFAULT_FILTER_CONFIG) (pf_categories config);
     defaultCategory :=
       default (defaultCategory DEFAULT_FILTER_CONFIG)
               (pf_defaultCategory config);
     groupByCategory_flag :=
       default (groupByCategory_flag DEFAULT_FILTER_CONFIG)
               (pf_groupByCategory config);
     minContentLength :=
       default (minContentLength DEFAULT_FILTER_CONFIG)
               (pf_minContentLength config);
     maxContentLength :=
       default (maxContentLength DEFAULT_FILTER_CONFIG)
               (pf_maxContentLength config);
     priorityKeywords :=
       default (priorityKeywords DEFAULT_FILTER_CONFIG)
               (pf_priorityKeywords config);
     excludeKeywords :=
       default (excludeKeywords DEFAULT_FILTER_CONFIG)
               (pf_excludeKeywords config) |}.

(** [Object.keys(config).length] *)
Definition present {A} (field : option A) : nat :=
  match field with Some _ => 1 | None => 0 end.

Definition key_count (config : PartialFilterConfig) : nat :=
  present (pf_categories config) + present (pf_defaultCategory config)
  + present (pf_groupByCategory config)
  + present (pf_includeCategoryMetadata config)
  + present (pf_minContentLength config)
  + present (pf_maxContentLength config)
  + present (pf_priorityKeywords config)
  + present (pf_excludeKeywords config).

(** The configuration [applyContentFiltering] filters with: none when
    [options.contentFilter] is absent or has no key. *)
Definition contentFilter_in_force (user : option PartialFilterConfig)
  : option ContentFilterConfig :=
  match user with
  | None => None
  | Some config =>
      if key_count config =? 0 then None else Some (ContentFilter_new config)
  end.

(** ** Markdown clean-up: [cleanMarkdownContent] *)

(** The platform's regular-expression engine, addressed by the source text
    and the flags of the expression. *)
Record RegexApi := mkRegexApi {
  (** [s.replace(new RegExp(source, flags), replacer)]; the replacer is
      given the match followed by its groups. *)
  re_replace : string -> string -> (list string -> string) -> string
               -> string;
  (** [s.split(new RegExp(source))]: the pieces, and between them the
      groups of each separator ([None] for a group that took no part). *)
  re_split : string -> string -> list (option string)
}.

Record ContentCleaningConfig := mkContentCleaningConfig {
  removeFrontmatter : bool;
  removeJsxComponents : bool;
  removeImports : bool;
  removeHtmlComments : bool;
  removeImages : bool;
  (** Each custom pattern, as the rewrite [s.replace(pattern, '')]. *)
  customPatterns : list (string -> string)
}.

Definition getContentCleaningConfig : ContentCleaningConfig :=
  {| removeFrontmatter := true; removeJsxComponents := true;
     removeImports := true; removeHtmlComments := true;
     removeImages := false; customPatterns := [] |}.

Module Lines.

(** [s.split('\n')] *)
Fixpoint split (s : string) : list string :=
  match s with
  | EmptyString => [EmptyString]
  | String c r =>
      if Text.is_nl c then EmptyString :: split r
      else match split r with
           | line :: rest => String c line :: rest
           | [] => [String c EmptyString]
           end
  end.

(** [lines.join('\n')] *)
Definition join (lines : list string) : string :=
  String.concat newline lines.

(** The [for (const line of lines)] loop: empty lines are skipped, and of
    a run of lines that hold white space only the first is kept. *)
Fixpoint squeeze (lastLineWasEmpty : bool) (lines : list string)
  : list string :=
  match lines with
  | [] => []
  | line :: rest =>
      if negb (JS.truthy line) then squeeze lastLineWasEmpty rest
      else
        let blank := String.eqb (JS.trim line) EmptyString in
        if blank && lastLineWasEmpty then squeeze lastLineWasEmpty rest
        else line :: squeeze blank rest
  end.

End Lines.

Section Cleaner.
Variable re : RegexApi.

Definition erase (source flags : string) (s : string) : string :=
  re_replace re source flags (fun _ => EmptyString) s.

(** The replacer of the [FAQItem] rewrite. *)
Definition faq_item (groups : list string) : string :=
  "Question: " +:+ nth 1 groups EmptyString +:+ newline
    +:+ "Answer: " +:+ nth 2 groups EmptyString +:+ newline.

(** The body of the loop over the sections the table expression splits
    the text into. *)
Definition clean_section (cleaningConfig : ContentCleaningConfig)
    (section : option string) : string :=
  match section with
  | None => EmptyString
  | Some section =>
      if negb (JS.truthy section) then EmptyString
      else if JS.startsWith (JS.trim section) "|" then section
      else
        let processedSection := section in
        let processedSection :=
          if removeJsxComponents cleaningConfig
          then erase "<[^>]+>" "g" processedSection
          else processedSection in
        let processedSection :=
          if removeImages cleaningConfig
          then erase "!\[.*?\]\(.*?\)" "g" processedSection
          else processedSection in
        let processedSection :=
          if removeImports cleaningConfig
          then erase ("^import\s+.*?from\s+['" +:+ dquote +:+ "].*?['"
                         +:+ dquote +:+ "];?") "gm" processedSection
          else processedSection in
        foldl (fun s pattern => pattern s) processedSection
              (customPatterns cleaningConfig)
  end.

Definition cleanMarkdownContent (content : string) : string :=
  let cleaningConfig := getContentCleaningConfig in
  let cleaned := content in
  let cleaned :=
    if removeFrontmatter cleaningConfig
    then erase "^\n*---([\n.+])*?\n---\n" EmptyString cleaned
    else cleaned in
  let cleaned :=
    if removeHtmlComments cleaningConfig
    then erase "{\/*[\s\S]*?\*\/}" "g" cleaned
    else cleaned in
  let cleaned :=
    re_replace re "<br\s*\/?>" "g" (fun _ => newline) cleaned in
  let cleaned :=
    re_replace re
      ("<FAQItem\s+question=" +:+ dquote +:+ "([^" +:+ dquote +:+ "]+)"
         +:+ dquote +:+ "\s*>([\s\S]*?)<\/FAQItem>")
      "g" faq_item cleaned in
  let cleaned :=
    re_replace re "<FAQ>([\s\S]*?)<\/FAQ>" "g"
               (fun groups => nth 1 groups EmptyString) cleaned in
  let sections := re_split re "(\|.*\|\n\|.*\|\n(\|.*\|\n)*)" cleaned in
  let processedContent :=
    foldl (fun processedContent section =>
             processedContent +:+ clean_section cleaningConfig section)
          EmptyString sections in
  Lines.join (Lines.squeeze false (Lines.split processedContent)).

End Cleaner.

(** ** Rendering the document: [demoteHeadings], [generatePagesContent],
       [generateLlmsFullHeader], [generateTableOfContents],
       [assembleLlmsFullContent] *)

Module Md.




End Md.



Section Renderer.
(** The code unit U+2014 of the table of contents, which lies outside the
    range of this model's strings: any code unit stands for it. *)
Variable em_dash : ascii.







End Renderer.

(** ** The constructor: [mergeWithDefaults], [createExtractionConfig] *)

(** What the constructor reads from its environment: two variables of
    [process.env], the fields of [package.json] (all absent when the file
    cannot be read), and [process.cwd()]. *)
Record Env := mkEnv {
  env_SITE_URL : option string;
  env_NEXT_PUBLIC_SITE_URL : option string;
  pkg_name : option string;
  pkg_description : option string;
  pkg_version : option string;
  cwd : string
}.

Record UserExtractionConfig := mkUserExtractionConfig {
  uec_stripSelectors : option (list string);
  uec_useReadability : option bool
}.

(** The options as the user passes them: every field is optional.  The
    logger and the custom request headers are left out. *)
Record UserOptions := mkUserOptions {
  u_siteUrl : option string;
  u_sitemapUrl : option string;
  u_maxPages : option Z;
  u_concurrency : option Z;
  u_includePatterns : option (list Pattern);
  u_excludePatterns : option (list Pattern);
  u_stripSelectors : option (list string);
  u_headerTitle : option string;
  u_headerSummary : option string;
  u_userAgent : option string;
  u_requestTimeoutMs : option Z;
  u_maxCharsPerPage : option Z;
  u_maxTotalChars : option Z;
  u_retries : option Z;
  u_keepQueryParams : option (list string);
  u_respectRobots : option bool;
  u_extractionConfig : option UserExtractionConfig;
  u_includeStats : option bool;
  u_contentTransformer : option (string -> string -> Thrown + string);
  u_enableRecursiveDiscovery : option bool;
  u_maxRecursiveDepth : option Z;
  u_maxLinksPerPage : option Z;
  u_enableContentCleaning : option bool;
  u_enableMultipleExtractionMethods : option bool;
  u_requestDelay : option Z;
  u_enableFileSystemDiscovery : option bool;
  u_fileSystemBasePath : option string;
  u_fileIncludePatterns : option (list string);
  u_fileExcludePatterns : option (list string);
  u_maxFileSystemDepth : option Z;
  u_followSymlinks : option bool;
  u_outputFormat : option OutputFormat;
  u_formatLimits : option (OutputFormat -> option FormatLimits);
  u_contentFilter : option PartialFilterConfig
}.

(** [this.options]: every field is set. *)
Record MergedOptions := mkMergedOptions {
  m_siteUrl : string;
  m_sitemapUrl : string;
  m_maxPages : Z;
  m_concurrency : Z;
  m_includePatterns : list Pattern;
  m_excludePatterns : list Pattern;
  m_stripSelectors : list string;
  m_headerTitle : string;
  m_headerSummary : string;
  m_userAgent : string;
  m_requestTimeoutMs : Z;
  m_maxCharsPerPage : Z;
  m_maxTotalChars : Z;
  m_retries : Z;
  m_keepQueryParams : list string;
  m_respectRobots : bool;
  m_extractionConfig : option UserExtractionConfig;
  m_includeStats : bool;
  m_contentTransformer : string -> string -> Thrown + string;
  m_enableRecursiveDiscovery : bool;
  m_maxRecursiveDepth : Z;
  m_maxLinksPerPage : Z;
  m_enableContentCleaning : bool;
  m_enableMultipleExtractionMethods : bool;
  m_requestDelay : Z;
  m_enableFileSystemDiscovery : bool;
  m_fileSystemBasePath : string;
  m_fileIncludePatterns : list string;
  m_fileExcludePatterns : list string;
  m_maxFileSystemDepth : Z;
  m_followSymlinks : bool;
  m_outputFormat : OutputFormat;
  m_formatLimits : OutputFormat -> option FormatLimits;
  m_contentFilter : PartialFilterConfig
}.

(** [a || b] where [a] may be [undefined]. *)
Definition or_string (a : option string) (b : string) : string :=
  JS.or_else (default EmptyString a) b.

(** [s.replace(/\/+$/, '')]: the slashes the text ends with are removed. *)
Fixpoint stripTrailingSlashes (s : string) : string :=
  match s with
  | EmptyString => EmptyString
  | String c r =>
      let r' := stripTrailingSlashes r in
      if Ascii.eqb c "/" && String.eqb r' EmptyString then EmptyString
      else String c r'
  end.

(** The object [{}]. *)
Definition no_filter_config : PartialFilterConfig :=
  mkPartialFilterConfig None None None None None None None None.

Definition mergeWithDefaults (env : Env) (userOptions : UserOptions)
  : Thrown + MergedOptions :=
  let siteUrl :=
    stripTrailingSlashes
      (or_string (u_siteUrl userOptions)
         (or_string (env_SITE_URL env)
            (or_string (env_NEXT_PUBLIC_SITE_URL env) EmptyString))) in
  if negb (JS.truthy siteUrl) then
    inl (GeneratorError
           ("siteUrl not set. Provide options.siteUrl or "
              +:+ "NEXT_PUBLIC_SITE_URL environment variable.")
           INVALID_URL None)
  else
    inr {| m_siteUrl := siteUrl;
           m_sitemapUrl :=
             or_string (u_sitemapUrl userOptions)
                       (siteUrl +:+ "/sitemap.xml");
           m_maxPages := default 5000%Z (u_maxPages userOptions);
           m_concurrency := default 5%Z (u_concurrency userOptions);
           m_includePatterns := default [] (u_includePatterns userOptions);
           m_excludePatterns := default [] (u_excludePatterns userOptions);
           m_stripSelectors := default [] (u_stripSelectors userOptions);
           m_headerTitle :=
             or_string (u_headerTitle userOptions)
                       (or_string (pkg_name env) "Site");
           m_headerSummary :=
             or_string (u_headerSummary userOptions)
               (or_string (pkg_description env)
                  "Complete textual snapshot for LLM ingestion.");
           m_userAgent :=
             or_string (u_userAgent userOptions) "next-llms-generator/0.1.0";
           m_requestTimeoutMs :=
             default 20000%Z (u_requestTimeoutMs userOptions);
           m_maxCharsPerPage :=
             default 200000%Z (u_maxCharsPerPage userOptions);
           m_maxTotalChars :=
             default 50000000%Z (u_maxTotalChars userOptions);
           m_retries := default 3%Z (u_retries userOptions);
           m_keepQueryParams := default [] (u_keepQueryParams userOptions);
           m_respectRobots := default false (u_respectRobots userOptions);
           m_extractionConfig := u_extractionConfig userOptions;
           m_includeStats := default false (u_includeStats userOptions);
           m_contentTransformer :=
             default (fun content _ => inr content)
                     (u_contentTransformer userOptions);
           m_enableRecursiveDiscovery :=
             default false (u_enableRecursiveDiscovery userOptions);
           m_maxRecursiveDepth :=
             default 3%Z (u_maxRecursiveDepth userOptions);
           m_maxLinksPerPage := default 50%Z (u_maxLinksPerPage userOptions);
           m_enableContentCleaning :=
             default false (u_enableContentCleaning userOptions);
           m_enableMultipleExtractionMethods :=
             default false (u_enableMultipleExtractionMethods userOptions);
           m_requestDelay := default 100%Z (u_requestDelay userOptions);
           m_enableFileSystemDiscovery :=
             default false (u_enableFileSystemDiscovery userOptions);
           m_fileSystemBasePath :=
             or_string (u_fileSystemBasePath userOptions) (cwd env);
           m_fileIncludePatterns :=
             default ["**/*.md"; "**/*.mdx"; "**/*.txt"]
                     (u_fileIncludePatterns userOptions);
           m_fileExcludePatterns :=
             default ["**/node_modules/**"; "**/.*/**"; "**/dist/**";
                      "**/build/**"]
                     (u_fileExcludePatterns userOptions);
           m_maxFileSystemDepth :=
             default 10%Z (u_maxFileSystemDepth userOptions);
           m_followSymlinks := default false (u_followSymlinks userOptions);
           m_outputFormat := default full (u_outputFormat userOptions);
           m_formatLimits :=
             default default_formatLimits (u_formatLimits userOptions);
           m_contentFilter :=
             default no_filter_config (u_contentFilter userOptions) |}.

Record ExtractionConfig := mkExtractionConfig {
  ec_stripSelectors : list string;
  ec_useReadability : bool
}.

Definition createExtractionConfig (userConfig : option UserExtractionConfig)
  : ExtractionConfig :=
  {| ec_stripSelectors :=
       default ["header"; "footer"; "nav"; ".toc"; ".site-header";
                ".site-footer"; ".navigation"; ".sidebar"; ".menu";
                ".breadcrumb"; ".pagination"]
               (userConfig ≫= uec_stripSelectors);
     ec_useReadability := default true (userConfig ≫= uec_useReadability) |}.

(** A constructed [LLMSGenerator]: its [options] and its
    [extractionConfig]. *)
Record LLMSGenerator := mkLLMSGenerator {
  options : MergedOptions;
  extractionConfig : ExtractionConfig
}.

(** [new LLMSGenerator(userOptions)] *)
Definition LLMSGenerator_new (env : Env) (userOptions : UserOptions)
  : Thrown + LLMSGenerator :=
  match mergeWithDefaults env userOptions with
  | inl e => inl e
  | inr merged =>
      inr {| options := merged;
             extractionConfig :=
               createExtractionConfig (u_extractionConfig userOptions) |}
  end.

(** The fields of a generator that the pipeline reads. *)
Definition pipeline_options (g : LLMSGenerator) : Options :=
  let o := options g in
  {| o_siteUrl := m_siteUrl o;
     o_sitemapUrl := m_sitemapUrl o;
     o_maxPages := m_maxPages o;
     o_concurrency := m_concurrency o;
     o_includePatterns := m_includePatterns o;
     o_excludePatterns := m_excludePatterns o;
     o_maxCharsPerPage := m_maxCharsPerPage o;
     o_maxTotalChars := m_maxTotalChars o;
     o_keepQueryParams := m_keepQueryParams o;
     o_contentTransformer := m_contentTransformer o;
     o_enableRecursiveDiscovery := m_enableRecursiveDiscovery o;
     o_maxRecursiveDepth := m_maxRecursiveDepth o;
     o_maxLinksPerPage := m_maxLinksPerPage o;
     o_enableContentCleaning := m_enableContentCleaning o;
     o_enableMultipleExtractionMethods :=
       m_enableMultipleExtractionMethods o;
     o_outputFormat := m_outputFormat o;
     o_formatLimits := m_formatLimits o;
     o_contentFilter := contentFilter_in_force (Some (m_contentFilter o));
     o_stripSelectors := ec_stripSelectors (extractionConfig g);
     o_useReadability := ec_useReadability (extractionConfig g) |}.

(** [generateFullLLMS(options)], and [generate()] up to the text it
    returns: the constructor, the pipeline, and the rendering of the
    processed results.  [isoDate] is [new Date().toISOString()]. *)
Section GenerateDocument.
Variable P : Platform.
Variable fetch : Network.
Variable sched : list Tick.
Variable clock : nat.
Variable em_dash : ascii.
Variable isoDate : string.
Variable env : Env.





End GenerateDocument.

(** ** The route handler: [ContentCache] and [createGET] *)

Record CacheEntry := mkCacheEntry {
  ce_content : string;
  ce_timestamp : Z
}.

(** A [ContentCache]: its [Map] and its time to live, in milliseconds. *)
Record ContentCache := mkContentCache {
  cache : gmap string CacheEntry;
  ttl : Z
}.

(** [new ContentCache(ttlMinutes)] *)
Definition ContentCache_new (ttlMinutes : Z) : ContentCache :=
  {| cache := ∅; ttl := (ttlMinutes * 60 * 1000)%Z |}.

(** [cache.get(key)] when [Date.now()] is [now]: an entry that has
    expired is deleted. *)
Definition ContentCache_get (now : Z) (key : string) (c : ContentCache)
  : ContentCache * option string :=
  match cache c !! key with
  | None => (c, None)
  | Some entry =>
      let isExpired := (ttl c <? now - ce_timestamp entry)%Z in
      if isExpired
      then ({| cache := delete key (cache c); ttl := ttl c |}, None)
      else (c, Some (ce_content entry))
  end.

(** [cache.set(key, content)] when [Date.now()] is [now]. *)
Definition ContentCache_set (now : Z) (key content : string)
    (c : ContentCache) : ContentCache :=
  {| cache := <[key := mkCacheEntry content now]> (cache c); ttl := ttl c |}.

Definition ContentCache_clear (c : ContentCache) : ContentCache :=
  {| cache := ∅; ttl := ttl c |}.

Definition ContentCache_size (c : ContentCache) : nat := size (cache c).

(** The [RouteConfig] given to [createGET]: every field is optional. *)
Record RouteConfig := mkRouteConfig {
  rc_generatorOptions : option UserOptions;
  rc_cacheTtl : option Z;
  rc_enableCache : option bool;
  rc_cacheKeyGenerator : option (UserOptions -> Thrown + string);
  rc_responseHeaders : option (gmap string string);
  rc_enableRevalidation : option bool;
  rc_revalidationSecret : option string
}.

(** A [NextResponse]: body, status and headers. *)
Record NextResponse := mkNextResponse {
  nr_body : string;
  nr_status : Z;
  nr_headers : gmap string string
}.

(** The object [{}] of user options. *)
Definition no_options : UserOptions :=
  mkUserOptions None None None None None None None None None None None None
    None None None None None None None None None None None None None None
    None None None None None None None None.

(** What one call of the handler meets: the request (when there is one),
    the clock at [cache.get] and at [cache.set], the date for the
    [X-Generated-At] header, and what [new LLMSGenerator(...).generate()]
    returns or throws when the handler runs it. *)
Record Call := mkCall {
  request_url : option string;
  now_get : Z;
  now_set : Z;
  isoDate : string;
  generated : Thrown + string
}.

Section Route.
Variable api : UrlApi.
(** [JSON.stringify] of the five fields the default key is made of. *)
Variable defaultCacheKeyGenerator : UserOptions -> Thrown + string.
Variable config : RouteConfig.

(** The destructuring of [config], with its defaults. *)
Definition generatorOptions : UserOptions :=
  default no_options (rc_generatorOptions config).
Definition cacheTtl : Z := default 60%Z (rc_cacheTtl config).
Definition enableCache : bool := default true (rc_enableCache config).
Definition cacheKeyGenerator : UserOptions -> Thrown + string :=
  default defaultCacheKeyGenerator (rc_cacheKeyGenerator config).
Definition responseHeaders : gmap string string :=
  default ∅ (rc_responseHeaders config).
Definition enableRevalidation : bool :=
  default false (rc_enableRevalidation config).
Definition revalidationSecret : option string := rc_revalidationSecret config.

(** [createGET(config)]: it throws, or it returns a handler whose state is
    the cache ([None] when caching is off). *)
Definition createGET : Thrown + option ContentCache :=
  if enableRevalidation
     && negb (JS.truthy (default EmptyString revalidationSecret))
  then inl (JsError ("revalidationSecret is required when "
                       +:+ "enableRevalidation is true"))
  else inr (if enableCache then Some (ContentCache_new cacheTtl) else None).

Definition Unauthorized : NextResponse :=
  {| nr_body := "Unauthorized"; nr_status := 401; nr_headers := ∅ |}.

(** The response of the [catch] block. *)
Definition errorResponse (e : Thrown) : NextResponse :=
  {| nr_body :=
       "# Error" +:+ newline +:+ newline
         +:+ "Failed to generate LLMS content: "
         +:+ match e with
             | NonError => "Unknown error occurred"
             | _ => error_message e
             end
         +:+ newline +:+ newline
         +:+ "Please check your configuration and try again.";
     nr_status := 500;
     nr_headers :=
       {[ "Content-Type" := "text/plain; charset=utf-8";
          "X-Error" := "true" ]} |}.

Definition okResponse (call : Call) (content : string) : NextResponse :=
  {| nr_body := content;
     nr_status := 200;
     nr_headers :=
       responseHeaders ∪
       {[ "Content-Type" := "text/plain; charset=utf-8";
          "Cache-Control" :=
            if enableCache
            then "public, max-age=" +:+ JS.Z_toString (cacheTtl * 60)
            else "no-cache";
          "X-Generated-At" := isoDate call;
          "X-Content-Length" := JS.nat_toString (String.length content) ]}
  |}.

(** What the revalidation block does with the cache: it answers 401, or
    throws, or goes on with the cache (cleared, or as it was). *)
Inductive Revalidation :=
| Denied
| Failed (e : Thrown)
| GoesOn (state : option ContentCache).

Definition revalidation (state : option ContentCache) (call : Call)
  : Revalidation :=
  match request_url call with
  | Some requestUrl =>
      if enableRevalidation then
        match parseURL api requestUrl with
        | None => Failed (JsError "Invalid URL")
        | Some urlObj =>
            let revalidate := searchParams_get api urlObj "revalidate" in
            let secret := searchParams_get api urlObj "secret" in
            match revalidate with
            | Some "true" =>
                match secret, revalidationSecret with
                | Some given, Some expected =>
                    if String.eqb given expected
                    then GoesOn (ContentCache_clear <$> state)
                    else Denied
                | _, _ => Denied
                end
            | _ => GoesOn state
            end
        end
      else GoesOn state
  | None => GoesOn state
  end.

(** The handler [GET(request)], from the state [state] of the cache. *)
Definition GET (state : option ContentCache) (call : Call)
  : option ContentCache * NextResponse :=
  match revalidation state call with
  | Denied => (state, Unauthorized)
  | Failed e => (state, errorResponse e)
  | GoesOn state =>
      match (if enableCache then cacheKeyGenerator generatorOptions
             else inr EmptyString) with
      | inl e => (state, errorResponse e)
      | inr cacheKey =>
          let '(state, content) :=
            match state with
            | Some c =>
                if JS.truthy cacheKey then
                  let '(c, content) :=
                    ContentCache_get (now_get call) cacheKey c in
                  (Some c, content)
                else (state, None)
            | None => (state, None)
            end in
          (* if (!content): null, or the empty string *)
          match content ≫= (fun content => if JS.truthy content
                                           then Some content else None) with
          | Some content => (state, okResponse call content)
          | None =>
              match generated call with
              | inl e => (state, errorResponse e)
              | inr content =>
                  ((if JS.truthy cacheKey
                    then ContentCache_set (now_set call) cacheKey content
                           <$> state
                    else state),
                   okResponse call content)
              end
          end
      end
  end.

End Route.

(** ** File-system discovery: [matchesFilePatterns], [processFile],
       [scanDirectory], [discoverFilesFromFileSystem] *)

Module Glob.

(** [s.replace(/\*\*/g, '.*')]: the pairs of stars, from the left. *)
Fixpoint doubleStars (s : string) : string :=
  match s with
  | EmptyString => EmptyString
  | String c r =>
      match r with
      | String c' r' =>
          if Ascii.eqb c "*" && Ascii.eqb c' "*"
          then ".*" +:+ doubleStars r'
          else String c (doubleStars r)
      | EmptyString => String c EmptyString
      end
  end.

(** [s.replace(/c/g, by)] for a single character [c]. *)
Fixpoint replaceChar (c : ascii) (by_ : string) (s : string) : string :=
  match s with
  | EmptyString => EmptyString
  | String x r =>
      (if Ascii.eqb x c then by_ else String x EmptyString)
        +:+ replaceChar c by_ r
  end.

End Glob.

(** The source of the regular expression a glob pattern is turned into,
    between [^] and [$]. *)
Definition regexPattern (pattern : string) : string :=
  Glob.replaceChar "." "\."
    (Glob.replaceChar "?" "[^/]"
       (Glob.replaceChar "*" "[^/]*"
          (Glob.doubleStars pattern))).

Inductive DirentKind := SymbolicLink | Directory | RegularFile | OtherEntry.

(** A [Dirent]: its name, and which of [isSymbolicLink()],
    [isDirectory()], [isFile()] holds, if any. *)
Record Dirent := mkDirent {
  de_name : string;
  de_kind : DirentKind
}.

(** What [fs.promises.stat] resolves to. *)
Record Stats := mkStats_ {
  st_isDirectory : bool;
  st_isFile : bool;
  st_size : Z;
  st_mtime : Z
}.

(** The platform's file system and path library, on a file system that
    does not change during the scan, and its regular-expression
    constructor: [new RegExp(source)] throws on a malformed source and
    otherwise gives its [test]. *)
Record FsApi := mkFsApi {
  readdir : string -> Thrown + list Dirent;
  realpath : string -> Thrown + string;
  stat : string -> Thrown + Stats;
  path_resolve : string -> string;
  path_join : string -> string -> string;
  path_relative : string -> string -> string;
  path_extname : string -> string;
  path_sep : ascii;
  RegExp_test : string -> Thrown + (string -> bool)
}.

Record DiscoveredFile := mkDiscoveredFile {
  filePath : string;
  relativePath : string;
  extension : string;
  df_size : Z;
  lastModified : Z;
  df_depth : nat;
  isSymlink : bool
}.

Record FileDiscoveryStats := mkFileDiscoveryStats {
  totalScanned : nat;
  included : nat;
  excluded : nat;
  directoriesTraversed : nat;
  durationMs : Z
}.

(** The two objects the scan mutates. *)
Record ScanState := mkScanState {
  files : list DiscoveredFile;
  stats : FileDiscoveryStats
}.

Record FileSystemResult := mkFileSystemResult {
  fsr_files : list DiscoveredFile;
  totalFiles : nat;
  fsr_stats : FileDiscoveryStats
}.

Definition count_scanned (st : ScanState) : ScanState :=
  let s := stats st in
  mkScanState (files st)
    (mkFileDiscoveryStats (S (totalScanned s)) (included s) (excluded s)
       (directoriesTraversed s) (durationMs s)).

Definition count_excluded (st : ScanState) : ScanState :=
  let s := stats st in
  mkScanState (files st)
    (mkFileDiscoveryStats (totalScanned s) (included s) (S (excluded s))
       (directoriesTraversed s) (durationMs s)).

Definition count_directory (st : ScanState) : ScanState :=
  let s := stats st in
  mkScanState (files st)
    (mkFileDiscoveryStats (totalScanned s) (included s) (excluded s)
       (S (directoriesTraversed s)) (durationMs s)).

(** [files.push(file); stats.included++] *)
Definition include_file (file : DiscoveredFile) (st : ScanState)
  : ScanState :=
  let s := stats st in
  mkScanState (files st ++ [file])
    (mkFileDiscoveryStats (totalScanned s) (S (included s)) (excluded s)
       (directoriesTraversed s) (durationMs s)).

(** The number of times [sep] occurs in [s]:
    [s.split(sep).length - 1]. *)
Fixpoint count_char (sep : ascii) (s : string) : nat :=
  match s with
  | EmptyString => 0
  | String c r => (if Ascii.eqb c sep then 1 else 0) + count_char sep r
  end.

Section FileDiscovery.
Variable fs : FsApi.
Variable followSymlinks : bool.
Variable fileIncludePatterns fileExcludePatterns : list string.
Variable maxFileSystemDepth : Z.

(** [patterns.some(...)]: the first pattern that matches ends the search,
    and so does a pattern whose regular expression is malformed. *)
Fixpoint matchesFilePatterns (path : string) (patterns : list string)
  : Thrown + bool :=
  match patterns with
  | [] => inr false
  | pattern :: rest =>
      match RegExp_test fs ("^" +:+ regexPattern pattern +:+ "$") with
      | inl e => inl e
      | inr test =>
          if test path || test (Glob.replaceChar "\" "/" path)
          then inr true
          else matchesFilePatterns path rest
      end
  end.

(** [processFile]: what it throws leaves the counters as they are at the
    throw. *)
Definition processFile (fullPath relPath : string) (symlink : bool)
    (st : ScanState) : ScanState * (Thrown + unit) :=
  let st := count_scanned st in
  match matchesFilePatterns relPath fileExcludePatterns with
  | inl e => (st, inl e)
  | inr true => (count_excluded st, inr tt)
  | inr false =>
      match matchesFilePatterns relPath fileIncludePatterns with
      | inl e => (st, inl e)
      | inr false => (count_excluded st, inr tt)
      | inr true =>
          match stat fs fullPath with
          | inl _ => (count_excluded st, inr tt)
          | inr s =>
              (include_file
                 {| filePath := fullPath; relativePath := relPath;
                    extension := path_extname fs fullPath;
                    df_size := st_size s; lastModified := st_mtime s;
                    df_depth := count_char (path_sep fs) relPath;
                    isSymlink := symlink |} st,
               inr tt)
          end
      end
  end.

(** The body of the loop over the entries of a directory; [scan] is the
    recursive call.  What it throws ends the loop. *)
Definition scanEntry (scan : string -> Z -> ScanState -> ScanState)
    (basePath dirPath : string) (depth : Z) (entry : Dirent)
    (st : ScanState) : ScanState * (Thrown + unit) :=
  let fullPath := path_join fs dirPath (de_name entry) in
  let relPath := path_relative fs basePath fullPath in
  match de_kind entry with
  | SymbolicLink =>
      if negb followSymlinks then (st, inr tt)
      else
        match realpath fs fullPath with
        | inl _ => (st, inr tt)
        | inr realPath =>
            match stat fs realPath with
            | inl _ => (st, inr tt)
            | inr realStat =>
                if st_isDirectory realStat
                then (scan realPath (depth + 1)%Z st, inr tt)
                else if st_isFile realStat
                then (fst (processFile fullPath relPath true st), inr tt)
                else (st, inr tt)
            end
        end
  | Directory =>
      match matchesFilePatterns (relPath +:+ "/") fileExcludePatterns with
      | inl e => (st, inl e)
      | inr true => (count_excluded st, inr tt)
      | inr false => (scan fullPath (depth + 1)%Z st, inr tt)
      end
  | RegularFile => processFile fullPath relPath false st
  | OtherEntry => (st, inr tt)
  end.

Fixpoint scanEntries (scan : string -> Z -> ScanState -> ScanState)
    (basePath dirPath : string) (depth : Z) (entries : list Dirent)
    (st : ScanState) : ScanState :=
  match entries with
  | [] => st
  | entry :: rest =>
      match scanEntry scan basePath dirPath depth entry st with
      | (st, inl _) => st
      | (st, inr _) => scanEntries scan basePath dirPath depth rest st
      end
  end.

(** [scanDirectory]: each call goes one level deeper and a call beyond
    [maxFileSystemDepth] returns at once, so [fuel] need not exceed the
    number of levels left. *)
Fixpoint scanDirectory (fuel : nat) (basePath dirPath : string) (depth : Z)
    (st : ScanState) : ScanState :=
  if (maxFileSystemDepth <? depth)%Z then st
  else
    match fuel with
    | O => st
    | S fuel' =>
        match readdir fs dirPath with
        | inl _ => st
        | inr entries =>
            scanEntries (scanDirectory fuel' basePath) basePath dirPath
                        depth entries (count_directory st)
        end
    end.

Definition no_stats : FileDiscoveryStats :=
  mkFileDiscoveryStats 0 0 0 0 0.

(** [discoverFilesFromFileSystem()]; [elapsed] is the difference of the
    two readings of [Date.now()]. *)
Definition discoverFilesFromFileSystem (enableFileSystemDiscovery : bool)
    (fileSystemBasePath : string) (elapsed : Z) : FileSystemResult :=
  if negb enableFileSystemDiscovery then
    {| fsr_files := []; totalFiles := 0; fsr_stats := no_stats |}
  else
    let basePath := path_resolve fs fileSystemBasePath in
    let st :=
      scanDirectory (Z.to_nat (maxFileSystemDepth + 1)) basePath basePath 0
                    (mkScanState [] no_stats) in
    let s := stats st in
    {| fsr_files := files st;
       totalFiles := length (files st);
       fsr_stats :=
         mkFileDiscoveryStats (totalScanned s) (included s) (excluded s)
                              (directoriesTraversed s) elapsed |}.

End FileDiscovery.

(** ** The command line: [parseArgs] ([src/cli.ts]) *)

Record CLIConfig := mkCLIConfig {
  cli_output : option string;
  cli_config : option string;
  cli_verbose : option bool;
  cli_dryRun : option bool;
  cli_force : option bool;
  cli_stats : option bool
}.

(** What was printed before [process.exit]. *)
Inductive Printed :=
| Help
| Version
| UnknownOption (arg : string).

(** [parseArgs] returns a configuration, or the process exits. *)
Inductive ParseResult :=
| Parsed (config : CLIConfig)
| Exited (code : Z) (printed : Printed).

Definition key_in (arg : string) (names : list string) : bool :=
  existsb (String.eqb arg) names.

(** The loop [for (let i = 0; i < args.length; i++)], from the arguments
    not read yet.  An option that takes a value reads the next argument,
    whatever it is. *)
Fixpoint parseArgs_from (args : list string) (config : CLIConfig)
  : ParseResult :=
  match args with
  | [] => Parsed config
  | arg :: rest =>
      if negb (JS.truthy arg) then parseArgs_from rest config
      else if key_in arg ["--output"; "-o"] then
        match rest with
        | [] => Parsed config
        | outputValue :: rest' =>
            parseArgs_from rest'
              (if JS.truthy outputValue
               then mkCLIConfig (Some outputValue) (cli_config config)
                      (cli_verbose config) (cli_dryRun config)
                      (cli_force config) (cli_stats config)
               else config)
        end
      else if key_in arg ["--config"; "-c"] then
        match rest with
        | [] => Parsed config
        | configValue :: rest' =>
            parseArgs_from rest'
              (if JS.truthy configValue
               then mkCLIConfig (cli_output config) (Some configValue)
                      (cli_verbose config) (cli_dryRun config)
                      (cli_force config) (cli_stats config)
               else config)
        end
      else if key_in arg ["--verbose"; "-v"] then
        parseArgs_from rest
          (mkCLIConfig (cli_output config) (cli_config config) (Some true)
             (cli_dryRun config) (cli_force config) (cli_stats config))
      else if key_in arg ["--dry-run"; "-d"] then
        parseArgs_from rest
          (mkCLIConfig (cli_output config) (cli_config config)
             (cli_verbose config) (Some true) (cli_force config)
             (cli_stats config))
      else if key_in arg ["--force"; "-f"] then
        parseArgs_from rest
          (mkCLIConfig (cli_output config) (cli_config config)
             (cli_verbose config) (cli_dryRun config) (Some true)
             (cli_stats config))
      else if key_in arg ["--stats"; "-s"] then
        parseArgs_from rest
          (mkCLIConfig (cli_output config) (cli_config config)
             (cli_verbose config) (cli_dryRun config) (cli_force config)
             (Some true))
      else if key_in arg ["--help"; "-h"] then Exited 0 Help
      else if String.eqb arg "--version" then Exited 0 Version
      else if JS.startsWith arg "-" then Exited 1 (UnknownOption arg)
      else parseArgs_from rest config
  end.

Definition parseArgs (args : list string) : ParseResult :=
  parseArgs_from args (mkCLIConfig None None None None None None).

(** * Terms of the properties, and inputs to evaluate the model on *)

Module Terms.

(** The sum of the pages' content lengths. *)
Definition total_chars (pages : list PageResult) : nat :=
  foldr (fun p acc => String.length (content p) + acc) 0 pages.

Section BudgetTerms.
Variable maxCharsPerPage maxTotalChars : Z.

(** The budget rule as the specification words it: whenever the flag is
    raised, the included pages together stay within the budget. *)
Definition within_budget_when_flagged (pages : list PageResult) : Prop :=
  let '(out, st) :=
    applyCharacterLimits maxCharsPerPage maxTotalChars pages
                         (createInitialStats 0) in
  globalLimitReached st = true ->
  (Z.of_nat (total_chars out) <= maxTotalChars)%Z.

End BudgetTerms.

(** Three pages of eight characters under a budget of ten. *)
Definition eight_chars (u : string) : PageResult :=
  {| url := u; title := "t"; content := "12345678"; success := true;
     error := None; timestamp := 0; contentLength := 8; lastmod := None;
     language := None; statusCode := Some 200%Z; skipReason := None;
     truncated := Some false; originalLength := Some 8 |}.

Definition three_pages : list PageResult :=
  [eight_chars "a"; eight_chars "b"; eight_chars "c"].

(** What every result of [crawlSinglePage] satisfies. *)
Record crawl_shaped (p : PageResult) : Prop := mkCrawlShaped {
  cs_truncated : truncated p = Some false;
  cs_success : success p = true ->
               contentLength p = String.length (content p) /\
               originalLength p = Some (String.length (content p)) /\
               skipReason p = None;
  cs_skipped : success p = false ->
               contentLength p = 0 /\
               (skipReason p = Some "content-type" \/
                skipReason p = Some "too-large" \/
                skipReason p = Some "parse-error")
}.

(** The successful result, before [lastmod] and [language] are set. *)
Definition success_page (st : nat) (u ttl body : string) (code : Z)
  : PageResult :=
  {| url := u; title := ttl; content := body; success := true;
     error := None; timestamp := st;
     contentLength := String.length body; lastmod := None;
     language := None; statusCode := Some code; skipReason := None;
     truncated := Some false;
     originalLength := Some (String.length body) |}.

(** [arr[i]] read as "the object stored at [i], if any". *)
Definition slot {A} (arr : list (option A)) (i : nat) : option A :=
  match arr !! i with
  | Some (Some x) => Some x
  | _ => None
  end.

Section PoolTerms.
Variable extractContent : string -> string -> Thrown + Extracted.
Variable contentTransformer : string -> string -> Thrown + string.
Variable urls : list SitemapUrl.

(** [url] is truthy: the entry is not skipped by [if (!url) continue]. *)
Definition has_loc (u : SitemapUrl) : bool := JS.truthy (loc u).

Definition claimed_url (i : nat) : bool :=
  match urls !! i with
  | Some u => has_loc u
  | None => false
  end.

(** [r] is what [crawlSinglePage] returned for the entry [u], under some
    behaviour of the network and some clock. *)
Definition crawl_of (u : SitemapUrl) (r : PageResult) : Prop :=
  exists fetch st,
    r = crawlSinglePage extractContent contentTransformer fetch st
                        (loc u) (su_lastmod u).

Record pool_inv (p : Pool) : Prop := mkPoolInv {
  inv_index : currentIndex p <= length urls;
  inv_length : length (results p) <= currentIndex p;
  inv_results : forall i r, slot (results p) i = Some r ->
    exists u, urls !! i = Some u /\ has_loc u = true /\ crawl_of u r;
  inv_claimed : forall i, i < currentIndex p -> claimed_url i = true ->
    is_Some (slot (results p) i) \/
    exists w st, workers p !! w = Some (Awaiting i st);
  inv_awaiting : forall w i st, workers p !! w = Some (Awaiting i st) ->
    i < currentIndex p /\ claimed_url i = true;
  inv_returned : forall w, workers p !! w = Some Returned ->
    currentIndex p = length urls;
  inv_calls : calls p = List.filter claimed_url (seq 0 (currentIndex p))
}.

Definition weight (s : Worker) : nat :=
  match s with
  | AtLoopHead => 1
  | Awaiting _ _ => 2
  | Returned => 0
  end.

(** Decreases with every step of a worker that has not returned. *)
Definition pool_measure (p : Pool) : nat :=
  2 * (length urls - currentIndex p) + sum_list (map weight (workers p)).

End PoolTerms.

(** The order property as the specification words it: the result at index
    [i] is the result for the [i]-th input URL, for every [i]. *)
Definition order_preserved (urls : list SitemapUrl) (out : list PageResult)
  : Prop :=
  length out = length urls /\
  forall i u, urls !! i = Some u ->
    exists r, out !! i = Some r /\ url r = loc u.

(** An extractor that takes the body as it is, and the identity
    transformer. *)
Definition plain_extract (u html : string) : Thrown + Extracted :=
  inr {| ex_title := "t"; ex_content := html; ex_language := None |}.

Definition no_transform (c u : string) : Thrown + string := inr c.

(** Every page answers 200 with the same small HTML body. *)
Definition hello_net : Network := fun _ _ => Toy.html_ok "hello".

Definition entry (l : string) : SitemapUrl :=
  {| loc := l; su_lastmod := None |}.

(** Worker [w] moves [n] times in a row, on the network [fetch]. *)
Definition ticks (fetch : Network) (w n : nat) : list Tick :=
  replicate n (mkTick w 0 fetch).

(** [Array.prototype.sort] rearranges the array it is given. *)
Definition sort_permutes
    (sort : forall A : Type, (A -> A -> Z) -> list A -> list A) : Prop :=
  forall (A : Type) (cmp : A -> A -> Z) (l : list A), sort A cmp l ≡ₚ l.

(** The limits in force during a run: those of the output format, where
    it sets them. *)
Definition effective (options : Options) : Options :=
  applyFormatLimits options.

(** A site whose sitemap is [xml] and whose every page gets the answer
    [answer]. *)
Definition site (xml : string) (answer : FetchOutcome) : Network :=
  fun u _ =>
    if String.eqb u "https://a.b/sitemap.xml"
    then Resolved (mkResponse 200%Z "OK" (Some "application/xml") (inr xml))
    else answer.

Definition one_page_sitemap : string :=
  "<urlset><url><loc>https://a.b/p</loc></url></urlset>".

Definition small_options : Options :=
  {| o_siteUrl := "https://a.b";
     o_sitemapUrl := "https://a.b/sitemap.xml";
     o_maxPages := 10; o_concurrency := 1;
     o_includePatterns := []; o_excludePatterns := [];
     o_maxCharsPerPage := 5; o_maxTotalChars := 1000;
     o_keepQueryParams := []; o_contentTransformer := no_transform;
     o_enableRecursiveDiscovery := false; o_maxRecursiveDepth := 3;
     o_maxLinksPerPage := 50; o_enableContentCleaning := false;
     o_enableMultipleExtractionMethods := false; o_outputFormat := full;
     o_formatLimits := fun _ => None; o_contentFilter := None;
     o_stripSelectors := []; o_useReadability := false |}.

(** One page of ten characters, under a per-page limit of five. *)
Definition long_page_net : Network :=
  site one_page_sitemap (Toy.html_ok "t|0123456789").

Definition long_page_run
  : option (Thrown + list PageResult * GenerationStats) :=
  generate Toy.platform long_page_net (ticks long_page_net 0 3) 0
           small_options.

(** The same options with limits no page reaches. *)
Definition large_limit_options : Options :=
  mkOptions (o_siteUrl small_options) (o_sitemapUrl small_options)
    10 1 [] [] 1000 100000 [] no_transform false 3 50 false false full
    (fun _ => None) None [] false.

(** One page that is a PDF. *)
Definition pdf_net : Network :=
  site one_page_sitemap
       (Resolved (mkResponse 200%Z "OK" (Some "application/pdf")
                             (inr "%PDF-1.7"))).

Definition pdf_run : option (Thrown + list PageResult * GenerationStats) :=
  generate Toy.platform pdf_net (ticks pdf_net 0 3) 0 large_limit_options.

(** The pages of a run that returned. *)
Definition pages_of (run : option (Thrown + list PageResult * GenerationStats))
  : list PageResult :=
  match run with
  | Some (inr (out, _)) => out
  | _ => []
  end.

(** The page of the run [long_page_run]. *)
Definition long_page : PageResult :=
  {| url := "https://a.b/p"; title := "t";
     content := "01234" +:+ newline +:+ newline +:+ "[TRUNCATED at 5 chars]";
     success := true; error := None; timestamp := 0;
     contentLength := 10; lastmod := None; language := None;
     statusCode := Some 200%Z; skipReason := None;
     truncated := Some true; originalLength := Some 10 |}.

(** The page of the run [pdf_run]. *)
Definition pdf_page : PageResult :=
  {| url := "https://a.b/p"; title := "Skipped";
     content := "No content extracted."; success := false;
     error := Some "Non-HTML content type"; timestamp := 0;
     contentLength := 0; lastmod := None; language := None;
     statusCode := Some 200%Z; skipReason := Some "content-type";
     truncated := Some false; originalLength := None |}.

Section FilterTerms.
Variable siteUrl : string.
Variable includePatterns excludePatterns : list Pattern.
Variable maxPages : Z.

(** The list [filterUrls] holds after the patterns and the slice, before
    its fallback. *)
Definition candidates (urls : list SitemapUrl) : list SitemapUrl :=
  let filtered :=
    if 0 <? length includePatterns then
      List.filter (fun urlEntry =>
                     matchesAnyPattern (loc urlEntry) includePatterns) urls
    else urls in
  let filtered :=
    if 0 <? length excludePatterns then
      List.filter (fun urlEntry =>
                     negb (matchesAnyPattern (loc urlEntry) excludePatterns))
                  filtered
    else filtered in
  slice0 filtered maxPages.

End FilterTerms.

(** A page limit of zero, and no limits from the output format. *)
Definition zero_pages_options : Options :=
  mkOptions (o_siteUrl small_options) (o_sitemapUrl small_options)
    0 1 [] [] 1000 100000 [] no_transform false 3 50 false false full
    (fun _ => None) None [] false.

Definition hello_site : Network :=
  site one_page_sitemap (Toy.html_ok "t|hello").

Definition zero_pages_run
  : option (Thrown + list PageResult * GenerationStats) :=
  generate Toy.platform hello_site (ticks hello_site 0 3) 0
           zero_pages_options.

(** Recursive discovery on, one level deep, and a page limit of one. *)
Definition recursive_options : Options :=
  mkOptions (o_siteUrl small_options) (o_sitemapUrl small_options)
    1 1 [] [] 1000 100000 [] no_transform true 1 50 false false full
    (fun _ => None) None [] false.

(** Every page links to [/x] and [/y]. *)
Definition linked_site : Network :=
  site one_page_sitemap (Toy.html_ok "https://a.b/x https://a.b/y").

Definition recursive_run
  : option (Thrown + list PageResult * GenerationStats) :=
  generate Toy.platform linked_site (ticks linked_site 0 7) 0
           recursive_options.

(** Every request is answered [404 Not Found]. *)
Definition missing_net : Network := fun _ _ => Toy.not_found.

(** The loop of [normalizeUrl] over the first names of the list, reading
    the values with [get]. *)
Definition keep_from (get : string -> option string) (names : list string)
    (kept : list (string * string)) : list (string * string) :=
  foldl (fun kept param =>
           match get param with
           | Some value => URLSearchParams_set param value kept
           | None => kept
           end) kept names.

(** [urlEntry.loc.endsWith('.xml')] *)
Definition is_xml (urlEntry : SitemapUrl) : bool :=
  JS.endsWith (loc urlEntry) ".xml".

(** The [forEach] of [extractUrls] over one child's entries. *)
Definition merge_entries (allUrls : list (string * SitemapUrl))
    (entries : list SitemapUrl) : list (string * SitemapUrl) :=
  foldl (fun m urlEntry => Map_set (loc urlEntry) urlEntry m) allUrls entries.

Section SitemapTerms.
Variable fetch : Network.
Variable hostname : string -> option string.
Variable siteUrl sitemapUrl : string.

(** Fetching [sitemap] succeeds and the document read holds [entries]. *)
Definition serves (sitemap : string) (entries : list SitemapUrl) : Prop :=
  exists response xml,
    snd (fetchWithRetry fetch sitemap) = inr response /\
    text response = inr xml /\
    extractUrlsFromXml xml = entries.

(** A location on the site's host that does not end in [.xml]. *)
Definition page_on_site (siteHost : string) (urlEntry : SitemapUrl) : Prop :=
  is_xml urlEntry = false /\ hostname (loc urlEntry) = Some siteHost.

End SitemapTerms.

(** An index with the two children [s1.xml] and [s2.xml]. *)
Definition index_xml : string :=
  "<sitemapindex><sitemap><loc>https://a.b/s1.xml</loc></sitemap>"
  +:+ "<sitemap><loc>https://a.b/s2.xml</loc></sitemap></sitemapindex>".

Definition urlset (location : string) : string :=
  "<urlset><url><loc>" +:+ location +:+ "</loc></url></urlset>".

Definition xml_ok (xml : string) : FetchOutcome :=
  Resolved (mkResponse 200%Z "OK" (Some "application/xml") (inr xml)).

(** The site serves the index and its two children, holding one location
    each. *)
Definition index_net (loc1 loc2 : string) : Network :=
  fun u _ =>
    if String.eqb u "https://a.b/sitemap.xml" then xml_ok index_xml
    else if String.eqb u "https://a.b/s1.xml" then xml_ok (urlset loc1)
    else if String.eqb u "https://a.b/s2.xml" then xml_ok (urlset loc2)
    else Toy.not_found.

Section ChainTerms.
Variable dom : DomApi.

(** Every method of the list, run in order from [document], throws or
    returns a result that is not accepted; [document'] is what the methods
    leave of the document. *)
Inductive rejected_all (u : string)
  : list (Method dom) -> Doc dom -> Doc dom -> Prop :=
| rejected_nil document : rejected_all u [] document document
| rejected_throw method rest document document' document'' e :
    method document u = (document', inl e) ->
    rejected_all u rest document' document'' ->
    rejected_all u (method :: rest) document document''
| rejected_short method rest document document' document'' result :
    method document u = (document', inr result) ->
    accepted result = false ->
    rejected_all u rest document' document'' ->
    rejected_all u (method :: rest) document document''.

(** The fixed result of the final fallback. *)
Definition placeholder (document : Doc dom) (u : string) : TitleContent :=
  {| tc_title := JS.or_else (doc_title dom document) u;
     tc_content := "No content could be extracted from this page." |}.

End ChainTerms.

(** A document given by its title and by what each selector finds in it
    (the inner HTML of the first match); Turndown leaves the text as it
    is. *)
Definition selector_dom : DomApi :=
  {| Doc := string * list (string * string);
     parseHTML := fun _ html => inr (html, []);
     doc_title := fst;
     doc_lang := fun _ => None;
     removeAll := fun _ d => inr d;
     readability_parse := fun d => (d, inr None);
     select_innerHTML := fun sel d => Map_get sel (snd d);
     select_content_attr := fun _ _ => None;
     jsonLdScripts := fun _ => [];
     jsonLd_fields := fun _ => inl NonError;
     body_innerHTML := fun _ => EmptyString;
     body_textContent := fun _ => EmptyString;
     turndown := fun h => h |}.

Definition sixty_chars (c : string) : string :=
  c +:+ "23456789 123456789 123456789 123456789 123456789 123456789".

(** A document in which an [article] element and a [.prose] element both
    hold sixty characters of text. *)
Definition two_matches : Doc selector_dom :=
  ("Title", [(".prose", sixty_chars "P"); ("article", sixty_chars "A")]).

(** The requests and pauses of a [fetchWithRetry] call whose attempt [k] is
    the first to succeed. *)
Definition retry_trace (u : string) (from k : nat) : list Event :=
  flat_map (fun j => [EvFetch u j; EvSleep (250 * (j + 1))]) (seq from k)
    ++ [EvFetch u (from + k)].

(** The first two requests are answered 404, every later one 200. *)
Definition flaky_net : Network :=
  fun _ attempt => if attempt <? 2 then Toy.not_found else Toy.html_ok "x".


(** A transformer that appends an exclamation mark. *)
Definition add_bang (c u : string) : Thrown + string := inr (c +:+ "!").

Section DiscoveryTerms.
Variable api : UrlApi.
Variable siteUrl : string.
Variable maxRecursiveDepth : Z.

(** An entry taken from the sitemap. *)
Definition from_sitemap (d : DiscoveredUrl) : Prop :=
  discoveryMethod d = sitemap /\ depth d = 0 /\ parentUrl d = None.

(** An entry found as a link of the page [parent], [n] levels below the
    sitemap. *)
Definition from_link (n : nat) (d : DiscoveredUrl) : Prop :=
  discoveryMethod d = internal_link /\ depth d = n /\
  isInternalUrl api siteUrl (d_url d) = true /\
  exists parent, parentUrl d = Some parent /\ d_url d <> parent.

Definition well_discovered (d : DiscoveredUrl) : Prop :=
  from_sitemap d \/
  exists n, 1 <= n /\ (Z.of_nat n <= maxRecursiveDepth)%Z /\ from_link n d.

End DiscoveryTerms.

(** The entry for the link to [/x] found on the page [/p]. *)
Definition found_x : DiscoveredUrl :=
  {| d_url := "https://a.b/x"; depth := 1;
     parentUrl := Some "https://a.b/p"; discoveryMethod := internal_link;
     d_lastmod := None |}.

Section FilterConfigTerms.
Variable config : ContentFilterConfig.




End FilterConfigTerms.

(** A page under [/docs/] with more than a hundred characters of content,
    and a regular-expression engine that finds no match. *)
Definition docs_page : PageResult :=
  success_page 0 "https://a.b/docs/x" "t"
               (sixty_chars "A" +:+ sixty_chars "B") 200.

Definition no_match (pattern text : string) : Thrown + nat := inr 0.

(** The category [findBestCategory] starts from: the default category, or
    the first one when no category has the default's id. *)
Definition starting_category (config : ContentFilterConfig)
  : option ContentCategory :=
  match find_category config (defaultCategory config) with
  | Some c => Some c
  | None => head (categories config)
  end.


(** A filter configuration without categories. *)
Definition no_categories : ContentFilterConfig :=
  {| categories := []; defaultCategory := "general";
     groupByCategory_flag := true; minContentLength := Some 100%Z;
     maxContentLength := None; priorityKeywords := None;
     excludeKeywords := None |}.

(** The last of the default categories, which is also the default one. *)
Definition general_category : ContentCategory :=
  {| id := "general"; name := "General Documentation"; priority := 2%float;
     urlPatterns := ["/docs/"; "/documentation/"]; contentPatterns := [];
     cat_maxPages := None; enabled := true |}.

(** A page under [/blog/]. *)
Definition blog_page : PageResult :=
  success_page 0 "https://a.b/blog/x" "t"
               (sixty_chars "A" +:+ sixty_chars "B") 200.






(** The limits [mergeWithDefaults] gives a format when the user sets no
    [formatLimits]. *)
Definition format_default (f : OutputFormat) : Z * Z * Z :=
  match f with
  | full => (5000, 200000, 50000000)%Z
  | small => (100, 50000, 5000000)%Z
  | minimal => (20, 10000, 200000)%Z
  end.

(** The limits in force once [applyFormatLimits] has run. *)
Definition limits_in_force (g : LLMSGenerator) : Z * Z * Z :=
  let o := applyFormatLimits (pipeline_options g) in
  (o_maxPages o, o_maxCharsPerPage o, o_maxTotalChars o).

(** User options that set the site URL and the three limits, and nothing
    else. *)
Definition limits_only (siteUrl : string) (maxPages perPage total : Z)
  : UserOptions :=
  {| u_siteUrl := Some siteUrl; u_sitemapUrl := None;
     u_maxPages := Some maxPages; u_concurrency := None;
     u_includePatterns := None; u_excludePatterns := None;
     u_stripSelectors := None; u_headerTitle := None;
     u_headerSummary := None; u_userAgent := None;
     u_requestTimeoutMs := None; u_maxCharsPerPage := Some perPage;
     u_maxTotalChars := Some total; u_retries := None;
     u_keepQueryParams := None; u_respectRobots := None;
     u_extractionConfig := None; u_includeStats := None;
     u_contentTransformer := None; u_enableRecursiveDiscovery := None;
     u_maxRecursiveDepth := None; u_maxLinksPerPage := None;
     u_enableContentCleaning := None;
     u_enableMultipleExtractionMethods := None; u_requestDelay := None;
     u_enableFileSystemDiscovery := None; u_fileSystemBasePath := None;
     u_fileIncludePatterns := None; u_fileExcludePatterns := None;
     u_maxFileSystemDepth := None; u_followSymlinks := None;
     u_outputFormat := None; u_formatLimits := None;
     u_contentFilter := None |}.

(** An environment without variables and without a [package.json]. *)
Definition bare_env : Env :=
  {| env_SITE_URL := None; env_NEXT_PUBLIC_SITE_URL := None;
     pkg_name := None; pkg_description := None; pkg_version := None;
     cwd := "/app" |}.

(** A route that caches for one minute and accepts revalidation with the
    secret [s3cret]; the cache key is fixed. *)
Definition fixed_key (o : UserOptions) : Thrown + string := inr "key".

Definition cached_route : RouteConfig :=
  {| rc_generatorOptions := None; rc_cacheTtl := Some 1%Z;
     rc_enableCache := None; rc_cacheKeyGenerator := None;
     rc_responseHeaders := None; rc_enableRevalidation := Some true;
     rc_revalidationSecret := Some "s3cret" |}.

(** A call without a request, at time [t], during which the generator
    returns [outcome]. *)
Definition plain_call (t : Z) (outcome : Thrown + string) : Call :=
  {| request_url := None; now_get := t; now_set := t; isoDate := "now";
     generated := outcome |}.

Section ScanTerms.
Variable fs : FsApi.
Variable followSymlinks : bool.
Variable fileIncludePatterns fileExcludePatterns : list string.

(** Every glob pattern of the options gives a well-formed regular
    expression. *)
Definition patterns_compile : Prop :=
  forall pattern,
    pattern ∈ fileIncludePatterns ++ fileExcludePatterns ->
    exists test,
      RegExp_test fs ("^" +:+ regexPattern pattern +:+ "$") = inr test.

(** The counters agree with the list of files: the files listed are those
    counted as included, each of them was counted as scanned, and, when
    no pattern is malformed, every file scanned was counted as included
    or as excluded. *)
Definition counters_agree (st : ScanState) : Prop :=
  included (stats st) = length (files st) /\
  included (stats st) <= totalScanned (stats st) /\
  (patterns_compile ->
   totalScanned (stats st) <= included (stats st) + excluded (stats st)).

(** The file passed the patterns, [stat] succeeded on it, and it is a
    symbolic link only when links are followed. *)
Definition admitted (file : DiscoveredFile) : Prop :=
  matchesFilePatterns fs (relativePath file) fileExcludePatterns
  = inr false /\
  matchesFilePatterns fs (relativePath file) fileIncludePatterns
  = inr true /\
  (exists s, stat fs (filePath file) = inr s /\ df_size file = st_size s) /\
  (isSymlink file = true -> followSymlinks = true).

(** What the scan keeps true of its state. *)
Definition scan_inv (st : ScanState) : Prop :=
  counters_agree st /\ Forall admitted (files st).

End ScanTerms.

(** The translation of a glob pattern in one pass: what a character
    other than the first of two stars becomes, and what a pattern
    becomes. *)
Definition glob_char (c : ascii) : string :=
  if Ascii.eqb c "*" then "[^/]*"
  else if Ascii.eqb c "?" then "[^/]"
  else if Ascii.eqb c "." then "\."
  else String c EmptyString.

Fixpoint glob_in_one_pass (pattern : string) : string :=
  match pattern with
  | EmptyString => EmptyString
  | String c r =>
      match r with
      | String c' r' =>
          if Ascii.eqb c "*" && Ascii.eqb c' "*"
          then "\.[^/]*" +:+ glob_in_one_pass r'
          else glob_char c +:+ glob_in_one_pass r
      | EmptyString => glob_char c
      end
  end.

(** A directory [/app] with the file [a.md] and the directory [docs],
    which holds [b.md], [c.png] and the link [up] back to [/app].  A glob
    pattern matches here when the path ends in [.md]. *)
Definition cyclic_fs : FsApi :=
  {| readdir := fun p =>
       if String.eqb p "/app"
       then inr [mkDirent "a.md" RegularFile; mkDirent "docs" Directory]
       else if String.eqb p "/app/docs"
       then inr [mkDirent "b.md" RegularFile; mkDirent "c.png" RegularFile;
                 mkDirent "up" SymbolicLink]
       else inl (JsError "ENOENT");
     realpath := fun p =>
       if String.eqb p "/app/docs/up" then inr "/app" else inr p;
     stat := fun p =>
       inr (mkStats_ (String.eqb p "/app" || String.eqb p "/app/docs")
                     (negb (String.eqb p "/app"
                            || String.eqb p "/app/docs")) 7 0);
     path_resolve := fun p => p;
     path_join := fun a b => a +:+ "/" +:+ b;
     path_relative := fun base p =>
       String.substring (String.length base + 1)
                        (String.length p - String.length base - 1) p;
     path_extname := fun p =>
       String.substring (String.length p - 3) 3 p;
     path_sep := "/"%char;
     RegExp_test := fun _ => inr (fun p => JS.endsWith p ".md") |}.

(** The options [parseArgs] knows. *)
Definition known_options : list string :=
  ["--output"; "-o"; "--config"; "-c"; "--verbose"; "-v"; "--dry-run"; "-d";
   "--force"; "-f"; "--stats"; "-s"; "--help"; "-h"; "--version"].

(** The options that take no value and do not end the process. *)
Definition switches : list string :=
  ["--verbose"; "-v"; "--dry-run"; "-d"; "--force"; "-f"; "--stats"; "-s"].

(** [Some true] when one of the two spellings is among the arguments. *)
Definition switched (long short : string) (args : list string)
  : option bool :=
  if existsb (fun arg => String.eqb arg long || String.eqb arg short) args
  then Some true else None.


End Terms.

Import Terms.

(** * Properties *)

(** ** Assembler *)

Lemma total_chars_app (a b : list PageResult) :
  total_chars (a ++ b) = total_chars a + total_chars b.
Proof. induction a as [|p a IH]; simpl; [done | rewrite IH; lia]. Qed.

Section AssemblerFacts.
Variable maxCharsPerPage maxTotalChars : Z.

Local Abbreviation limitsLoop :=
  (limitsLoop maxCharsPerPage maxTotalChars).
Local Abbreviation process_page := (process_page maxCharsPerPage).

(** The loop includes a prefix of its input, each page processed on its
    own. *)
Lemma limitsLoop_prefix pages tot st :
  exists k, k <= length pages /\
    fst (limitsLoop pages tot st) = map process_page (take k pages).
Proof.
  revert tot st. induction pages as [|p pages IH]; intros tot st; simpl.
  - exists 0. done.
  - destruct (maxTotalChars <=? Z.of_nat tot)%Z.
    + exists 0. split; [lia | done].
    + match goal with
      | |- context [limitsLoop pages ?t ?s] =>
          destruct (IH t s) as (k & Hk & Heq);
          destruct (limitsLoop pages t s) as [out st'] eqn:E
      end.
      exists (S k). simpl in *. split; [lia | by rewrite Heq].
Qed.

(** The flag is raised exactly when the loop leaves through [break]. *)
Lemma limitsLoop_flag pages tot st :
  globalLimitReached st = false ->
  (globalLimitReached (snd (limitsLoop pages tot st)) = true <->
   length (fst (limitsLoop pages tot st)) < length pages).
Proof.
  revert tot st. induction pages as [|p pages IH]; intros tot st Hst; simpl.
  - rewrite Hst. split; [done | lia].
  - destruct (maxTotalChars <=? Z.of_nat tot)%Z; simpl.
    + split; [lia | done].
    + match goal with
      | |- context [limitsLoop pages ?t ?s] =>
          specialize (IH t s);
          destruct (limitsLoop pages t s) as [out st'] eqn:E
      end.
      simpl in *. rewrite IH; [lia |].
      by destruct (over_page_limit maxCharsPerPage p).
Qed.

(** When the flag is raised the running total has reached the budget. *)
Lemma limitsLoop_reached pages tot st :
  globalLimitReached st = false ->
  globalLimitReached (snd (limitsLoop pages tot st)) = true ->
  (maxTotalChars <= Z.of_nat (tot + total_chars (fst (limitsLoop pages tot st))))%Z.
Proof.
  revert tot st. induction pages as [|p pages IH]; intros tot st Hst; simpl.
  - congruence.
  - destruct (maxTotalChars <=? Z.of_nat tot)%Z eqn:Hle; simpl.
    + intros _. lia.
    + match goal with
      | |- context [limitsLoop pages ?t ?s] =>
          specialize (IH t s);
          destruct (limitsLoop pages t s) as [out st'] eqn:E
      end.
      simpl in *. intros Hflag.
      assert (maxTotalChars <= Z.of_nat (tot + String.length (content (process_page p)) + total_chars out))%Z.
      { apply IH; [by destruct (over_page_limit maxCharsPerPage p) | done]. }
      lia.
Qed.

(** Every page but the last was included while the total was below the
    budget. *)
Lemma limitsLoop_below pages tot st init last :
  fst (limitsLoop pages tot st) = init ++ [last] ->
  (Z.of_nat (tot + total_chars init) < maxTotalChars)%Z.
Proof.
  revert tot st init. induction pages as [|p pages IH]; intros tot st init; simpl.
  - by destruct init.
  - destruct (maxTotalChars <=? Z.of_nat tot)%Z eqn:Hle; simpl.
    + by destruct init.
    + match goal with
      | |- context [limitsLoop pages ?t ?s] =>
          specialize (IH t s);
          destruct (limitsLoop pages t s) as [out st'] eqn:E
      end.
      simpl in *. intros Heq.
      destruct init as [|q init]; simpl in *.
      * lia.
      * injection Heq as Hq Heq. subst q. apply IH in Heq. lia.
Qed.

End AssemblerFacts.

Section AssemblerClaims.
Variable maxCharsPerPage maxTotalChars : Z.

(** C2 (as amended). [applyCharacterLimits] checks the running total
    before each page and stops once it has reached [maxTotalChars]: the
    result is a prefix of the input, in order, every page of it processed
    whole (only the per-page clamp applies); the flag is raised exactly
    when a page is left out, and then the included pages total at least
    [maxTotalChars]; without the last included page the total is below
    [maxTotalChars]. *)
Theorem applyCharacterLimits_budget pages st out st' :
  globalLimitReached st = false ->
  applyCharacterLimits maxCharsPerPage maxTotalChars pages st = (out, st') ->
  (exists k, k <= length pages /\
     out = map (process_page maxCharsPerPage) (take k pages)) /\
  (globalLimitReached st' = true <-> length out < length pages) /\
  (globalLimitReached st' = true ->
     (maxTotalChars <= Z.of_nat (total_chars out))%Z) /\
  (forall init last, out = init ++ [last] ->
     (Z.of_nat (total_chars init) < maxTotalChars)%Z).
Proof.
  unfold applyCharacterLimits. intros Hst Hrun.
  pose proof (limitsLoop_prefix maxCharsPerPage maxTotalChars pages 0 st) as Hpre.
  pose proof (limitsLoop_flag maxCharsPerPage maxTotalChars pages 0 st Hst) as Hflag.
  pose proof (limitsLoop_reached maxCharsPerPage maxTotalChars pages 0 st Hst) as Hreach.
  pose proof (limitsLoop_below maxCharsPerPage maxTotalChars pages 0 st) as Hbelow.
  rewrite Hrun in *. simpl in *.
  repeat split; try tauto.
Qed.

End AssemblerClaims.

(** C2, counterexample: with [maxTotalChars = 10] two pages of eight
    characters are included before the check stops the loop; the flag is
    raised and the included pages total sixteen characters. *)
Lemma budget_exceeded_when_flagged :
  let run := applyCharacterLimits 100 10 three_pages (createInitialStats 0) in
  length (fst run) = 2 /\
  globalLimitReached (snd run) = true /\
  total_chars (fst run) = 16 /\
  ~ within_budget_when_flagged 100 10 three_pages.
Proof.
  repeat split; try (by vm_compute).
  unfold within_budget_when_flagged. vm_compute. intros H.
  by specialize (H eq_refl).
Qed.

Lemma applyCharacterLimits_budget_witness :
  let run := applyCharacterLimits 100 10 three_pages (createInitialStats 0) in
  globalLimitReached (snd run) = true /\
  (10 <= Z.of_nat (total_chars (fst run)))%Z.
Proof.
  destruct (applyCharacterLimits 100 10 three_pages (createInitialStats 0))
    as [out st'] eqn:E.
  pose proof (applyCharacterLimits_budget 100 10 three_pages
                (createInitialStats 0) out st' eq_refl E)
    as (_ & Hflag & Hreach & _).
  assert (globalLimitReached st' = true) as H.
  { apply Hflag. vm_compute in E. injection E as <- <-. vm_compute. lia. }
  split; [exact H | exact (Hreach H)].
Defined.

(** ** Fetcher and crawl worker *)

Lemma set_lastmod_fields lm r :
  url (set_lastmod lm r) = url r /\
  content (set_lastmod lm r) = content r /\
  success (set_lastmod lm r) = success r /\
  contentLength (set_lastmod lm r) = contentLength r /\
  statusCode (set_lastmod lm r) = statusCode r /\
  skipReason (set_lastmod lm r) = skipReason r /\
  truncated (set_lastmod lm r) = truncated r /\
  originalLength (set_lastmod lm r) = originalLength r.
Proof. unfold set_lastmod. by destruct (JS.truthy_opt lm). Qed.

Lemma set_language_fields lang r :
  url (set_language lang r) = url r /\
  content (set_language lang r) = content r /\
  success (set_language lang r) = success r /\
  contentLength (set_language lang r) = contentLength r /\
  statusCode (set_language lang r) = statusCode r /\
  skipReason (set_language lang r) = skipReason r /\
  truncated (set_language lang r) = truncated r /\
  originalLength (set_language lang r) = originalLength r.
Proof. unfold set_language. by destruct (JS.truthy_opt lang). Qed.

(** [fetchWithRetry] hands back a response only when it is [ok]: a
    response with another status is thrown as a [GeneratorError] inside the
    [try], and the [catch] retries it like a transport failure. *)
Lemma fetchAttempt_ok fetch u k r :
  fetchAttempt fetch u k = inr r -> ok r = true.
Proof.
  unfold fetchAttempt. destruct (fetch u k) as [e|resp]; [done|].
  destruct (ok resp) eqn:E; [|done]. by intros [= <-].
Qed.

Lemma fetchLoop_ok fetch u retries k fuel r :
  snd (fetchLoop fetch u retries k fuel) = inr r -> ok r = true.
Proof.
  revert k. induction fuel as [|fuel IH]; intros k; simpl; [done|].
  destruct (fetchAttempt fetch u k) as [e|resp] eqn:E.
  - destruct (k =? retries - 1); [done|].
    specialize (IH (S k)).
    destruct (fetchLoop fetch u retries (S k) fuel) as [tr res]. exact IH.
  - simpl. intros [= <-]. by eapply fetchAttempt_ok.
Qed.

Lemma fetchWithRetry_ok fetch u r :
  snd (fetchWithRetry fetch u) = inr r -> ok r = true.
Proof. apply fetchLoop_ok. Qed.

Section CrawlWorkerFacts.
Variable extractContent : string -> string -> Thrown + Extracted.
Variable contentTransformer : string -> string -> Thrown + string.

Lemma skipped_fields st u lm body err code reason :
  let r := skipped st u lm body err code reason in
  url r = u /\ content r = body /\ success r = false /\
  contentLength r = 0 /\ statusCode r = Some code /\
  skipReason r = Some reason /\ truncated r = Some false /\
  originalLength r = None.
Proof.
  unfold skipped. simpl.
  destruct (set_lastmod_fields lm
    {| url := u; title := "Skipped"; content := body; success := false;
       error := Some err; timestamp := st; contentLength := 0;
       lastmod := None; language := None; statusCode := Some code;
       skipReason := Some reason; truncated := Some false;
       originalLength := None |}) as (-> & -> & -> & -> & -> & -> & -> & ->).
  done.
Qed.

(** The results [crawlSinglePage] can return: one of three skips, or the
    successful page.  The [http-<status>] skip is not among them. *)
Lemma crawlSinglePage_cases (Q : PageResult -> Prop) fetch st u lm :
  (forall body err code reason,
      reason = "content-type" \/ reason = "too-large"
        \/ reason = "parse-error" ->
      Q (skipped st u lm body err code reason)) ->
  (forall lang ttl body code,
      Q (set_language lang (set_lastmod lm (success_page st u ttl body code)))) ->
  Q (crawlSinglePage extractContent contentTransformer fetch st u lm).
Proof.
  intros Hskip Hsucc.
  unfold crawlSinglePage, crawlSinglePage_try.
  destruct (snd (fetchWithRetry fetch u)) as [e|response] eqn:Hfetch.
  { apply Hskip. auto. }
  rewrite (fetchWithRetry_ok _ _ _ Hfetch). cbn [negb].
  destruct (negb (JS.includes (default "" (contentType response)) "text/html")).
  { apply Hskip. auto. }
  destruct (text response) as [e|html]. { apply Hskip. auto. }
  destruct (5 * 1024 * 1024 <? Z.of_nat (String.length html))%Z.
  { apply Hskip. auto. }
  destruct (extractContent u html) as [e|ex]. { apply Hskip. auto. }
  destruct (contentTransformer (ex_content ex) u) as [e|c].
  { apply Hskip. auto. }
  apply Hsucc.
Qed.

Lemma crawlSinglePage_url fetch st u lm :
  url (crawlSinglePage extractContent contentTransformer fetch st u lm) = u.
Proof.
  apply crawlSinglePage_cases.
  - intros. apply skipped_fields.
  - intros. rewrite (proj1 (set_language_fields _ _)).
    by rewrite (proj1 (set_lastmod_fields _ _)).
Qed.

Lemma crawlSinglePage_shape fetch st u lm :
  crawl_shaped (crawlSinglePage extractContent contentTransformer fetch st u lm).
Proof.
  apply crawlSinglePage_cases.
  - intros body err code reason Hreason.
    pose proof (skipped_fields st u lm body err code reason)
      as (_ & _ & Hs & Hl & _ & Hr & Ht & _).
    split; [done | congruence |].
    intros _. split; [done|]. rewrite Hr.
    destruct Hreason as [->|[->| ->]]; auto.
  - intros lang ttl body code.
    destruct (set_language_fields lang
                (set_lastmod lm (success_page st u ttl body code)))
      as (_ & Hc & Hs & Hl & _ & Hr & Ht & Ho).
    destruct (set_lastmod_fields lm (success_page st u ttl body code))
      as (_ & Hc' & Hs' & Hl' & _ & Hr' & Ht' & Ho').
    split.
    + by rewrite Ht, Ht'.
    + intros _. rewrite Hl, Hc, Ho, Hr, Hl', Hc', Ho', Hr'. done.
    + rewrite Hs, Hs'. done.
Qed.

End CrawlWorkerFacts.

(** ** Crawl worker pool *)

Lemma slot_array_set {A} (arr : list (option A)) i j x :
  slot (array_set i x arr) j = if decide (j = i) then Some x else slot arr j.
Proof.
  unfold slot, array_set.
  destruct (i <? length arr) eqn:Hi.
  - apply Nat.ltb_lt in Hi. case_decide as Hj.
    + subst. by rewrite list_lookup_insert_eq.
    + by rewrite list_lookup_insert_ne.
  - apply Nat.ltb_ge in Hi. case_decide as Hj.
    + subst. rewrite lookup_app_r by done.
      rewrite lookup_app_r by (rewrite length_replicate; lia).
      rewrite length_replicate. by replace (i - length arr - (i - length arr)) with 0 by lia.
    + destruct (decide (j < length arr)) as [Hlt|Hge].
      * by rewrite lookup_app_l.
      * rewrite (lookup_ge_None_2 arr j) by lia.
        rewrite lookup_app_r by lia.
        destruct (decide (j - length arr < i - length arr)) as [Hlt'|Hge'].
        -- rewrite lookup_app_l by (by rewrite length_replicate).
           by rewrite lookup_replicate_2.
        -- rewrite lookup_app_r by (rewrite length_replicate; lia).
           rewrite length_replicate.
           destruct (j - length arr - (i - length arr)) as [|k] eqn:Hk; [lia|].
           done.
Qed.

Lemma length_array_set {A} (arr : list (option A)) i x :
  length (array_set i x arr) = Nat.max (length arr) (S i).
Proof.
  unfold array_set. destruct (i <? length arr) eqn:Hi.
  - apply Nat.ltb_lt in Hi. rewrite length_insert. lia.
  - apply Nat.ltb_ge in Hi. rewrite !length_app, length_replicate. simpl. lia.
Qed.

Lemma filter_Boolean_nil {A} (arr : list (option A)) :
  (forall i, slot arr i = None) -> filter_Boolean arr = [].
Proof.
  induction arr as [|x arr IH]; intros H; [done|].
  pose proof (H 0) as H0. unfold slot in H0. simpl in H0.
  destruct x; [done|]. simpl. apply IH. intros i. exact (H (S i)).
Qed.

(** Reading the compacted array off the slots. *)
Lemma filter_Boolean_slots {A B} (R : B -> A -> Prop) (keep : B -> bool)
    (us : list B) (arr : list (option A)) :
  (forall i,
     match us !! i with
     | Some u => if keep u then exists r, slot arr i = Some r /\ R u r
                 else slot arr i = None
     | None => slot arr i = None
     end) ->
  Forall2 R (List.filter keep us) (filter_Boolean arr).
Proof.
  revert arr. induction us as [|u us IH]; intros arr H.
  - simpl. rewrite filter_Boolean_nil; [constructor|].
    intros i. exact (H i).
  - pose proof (H 0) as H0. simpl in H0.
    destruct arr as [|x arr].
    + destruct (keep u) eqn:Hk.
      { destruct H0 as (r & Hr & _). by unfold slot in Hr. }
      simpl. rewrite Hk. apply (IH []). intros i. specialize (H (S i)).
      simpl in H. unfold slot in *. rewrite lookup_nil in *.
      repeat case_match; try done.
    + assert (forall i, match us !! i with
                        | Some u => if keep u
                                    then exists r, slot arr i = Some r /\ R u r
                                    else slot arr i = None
                        | None => slot arr i = None
                        end) as Htail by (intros i; exact (H (S i))).
      simpl. destruct (keep u) eqn:Hk.
      * destruct H0 as (r & Hr & HR). unfold slot in Hr. simpl in Hr.
        destruct x as [x|]; [|done]. injection Hr as ->.
        simpl. constructor; [done | by apply IH].
      * unfold slot in H0. simpl in H0. destruct x; [done|].
        simpl. by apply IH.
Qed.

Section CrawlPoolFacts.
Variable extractContent : string -> string -> Thrown + Extracted.
Variable contentTransformer : string -> string -> Thrown + string.
Variable urls : list SitemapUrl.

Local Abbreviation claimed_url := (Terms.claimed_url urls).
Local Abbreviation crawl_of :=
  (Terms.crawl_of extractContent contentTransformer).
Local Abbreviation pool_inv :=
  (Terms.pool_inv extractContent contentTransformer urls).
Local Abbreviation pool_measure := (Terms.pool_measure urls).

Local Abbreviation step :=
  (pool_step extractContent contentTransformer urls).
Local Abbreviation run :=
  (pool_run extractContent contentTransformer urls).

Lemma pool_inv_init c : pool_inv (pool_init c).
Proof.
  split; simpl; try done; try lia.
  - intros w i st [H _]%lookup_replicate. done.
  - intros w [H _]%lookup_replicate. done.
Qed.

Lemma workers_insert_other (ws : list Worker) w w' s s' :
  ws !! w = Some s -> w' <> w -> <[w := s']> ws !! w' = ws !! w'.
Proof. intros _ Hne. by rewrite list_lookup_insert_ne. Qed.

Lemma pool_inv_step p t : pool_inv p -> pool_inv (step p t).
Proof.
  intros [Hidx Hlen Hres Hcl Haw Hret Hcalls].
  unfold pool_step.
  destruct (workers p !! who t) as [[|index st|]|] eqn:Hw;
    [| | by split | by split].
  - (* at the head of the loop *)
    destruct (currentIndex p <? length urls) eqn:Hlt.
    + apply Nat.ltb_lt in Hlt.
      destruct (urls !! currentIndex p) as [u|] eqn:Hu;
        [| by apply lookup_ge_None in Hu; lia].
      assert (seq 0 (S (currentIndex p)) = seq 0 (currentIndex p) ++ [currentIndex p])
        as Hseq by (by rewrite seq_S).
      destruct (JS.truthy (loc u)) eqn:Hloc.
      * (* the index is claimed and the call starts *)
        split; cbn [currentIndex results workers calls set_worker]; try lia.
        -- done.
        -- intros i Hi Hc. destruct (decide (i = currentIndex p)) as [->|Hne].
           ++ right. exists (who t), (now t).
              apply list_lookup_insert_eq. by eapply lookup_lt_Some.
           ++ destruct (Hcl i ltac:(lia) Hc) as [?|(w & st & Hws)]; [by left|].
              right. exists w, st. rewrite list_lookup_insert_ne; [done|].
              intros <-. congruence.
        -- intros w i st. destruct (decide (w = who t)) as [->|Hne].
           ++ rewrite list_lookup_insert_eq by (by eapply lookup_lt_Some).
              intros [= <- <-]. split; [lia|]. unfold Terms.claimed_url.
              by rewrite Hu.
           ++ rewrite list_lookup_insert_ne by done. intros H.
              destruct (Haw _ _ _ H). split; [lia | done].
        -- intros w. destruct (decide (w = who t)) as [->|Hne].
           ++ by rewrite list_lookup_insert_eq by (by eapply lookup_lt_Some).
           ++ rewrite list_lookup_insert_ne by done. intros H.
              specialize (Hret _ H). lia.
        -- rewrite Hseq, List.filter_app, <- Hcalls. simpl.
           unfold Terms.claimed_url. by rewrite Hu; unfold has_loc; rewrite Hloc.
      * (* if (!url) continue *)
        split; cbn [currentIndex results workers calls set_worker]; try lia.
        -- done.
        -- intros i Hi Hc. destruct (decide (i = currentIndex p)) as [->|Hne].
           ++ unfold Terms.claimed_url in Hc. rewrite Hu in Hc. unfold has_loc in Hc.
              congruence.
           ++ apply Hcl; [lia | done].
        -- intros w i st H. destruct (Haw _ _ _ H). split; [lia | done].
        -- intros w H. specialize (Hret _ H). lia.
        -- rewrite Hseq, List.filter_app, <- Hcalls. simpl.
           unfold Terms.claimed_url. rewrite Hu. unfold has_loc. rewrite Hloc.
           by rewrite app_nil_r.
    + (* the loop ends *)
      apply Nat.ltb_ge in Hlt.
      split; cbn [currentIndex results workers calls set_worker]; try done.
      * intros i Hi Hc. destruct (Hcl i Hi Hc) as [?|(w & st & Hws)]; [by left|].
        right. exists w, st. rewrite list_lookup_insert_ne; [done|].
        intros <-. congruence.
      * intros w i st. destruct (decide (w = who t)) as [->|Hne].
        -- by rewrite list_lookup_insert_eq by (by eapply lookup_lt_Some).
        -- rewrite list_lookup_insert_ne by done. apply Haw.
      * intros w _. lia.
  - (* the awaited call settles *)
    destruct (Haw _ _ _ Hw) as [Hi Hc].
    unfold Terms.claimed_url in Hc.
    destruct (urls !! index) as [u|] eqn:Hu; [|done].
    split; cbn [currentIndex results workers calls set_worker]; try done.
    + rewrite length_array_set. lia.
    + intros i r. rewrite slot_array_set. case_decide as Hd.
      * subst. intros [= <-]. exists u. repeat split; try done.
        by exists (net t), st.
      * apply Hres.
    + intros i Hi' Hc'. rewrite slot_array_set. case_decide as Hd; [by left|].
      destruct (Hcl i Hi' Hc') as [?|(w & st' & Hws)]; [by left|].
      right. exists w, st'. rewrite list_lookup_insert_ne; [done|].
      intros <-. congruence.
    + intros w i st'. destruct (decide (w = who t)) as [->|Hne].
      * by rewrite list_lookup_insert_eq by (by eapply lookup_lt_Some).
      * rewrite list_lookup_insert_ne by done. apply Haw.
    + intros w. destruct (decide (w = who t)) as [->|Hne].
      * by rewrite list_lookup_insert_eq by (by eapply lookup_lt_Some).
      * rewrite list_lookup_insert_ne by done. apply Hret.
Qed.

Lemma pool_inv_run sched p : pool_inv p -> pool_inv (run p sched).
Proof.
  revert p. induction sched as [|t sched IH]; intros p Hp; [done|].
  simpl. apply IH. by apply pool_inv_step.
Qed.

Lemma pool_done_spec p :
  pool_done p = true <-> forall w s, workers p !! w = Some s -> s = Returned.
Proof.
  unfold pool_done. rewrite forallb_forall. split.
  - intros H w s Hw. apply list_elem_of_lookup_2, list_elem_of_In, H in Hw.
    by destruct s.
  - intros H s [w Hw]%list_elem_of_In%list_elem_of_lookup_1.
    by rewrite (H _ _ Hw).
Qed.

(** Once every worker has returned, the compacted array lists the results
    of the entries with a URL, in the order of the entries, and
    [crawlSinglePage] was called once for each of them. *)
Lemma pool_output p :
  pool_inv p -> pool_done p = true -> workers p <> [] ->
  Forall2 crawl_of (List.filter has_loc urls) (filter_Boolean (results p)) /\
  calls p = List.filter claimed_url (seq 0 (length urls)).
Proof.
  intros [Hidx Hlen Hres Hcl Haw Hret Hcalls] Hdone Hne.
  rewrite pool_done_spec in Hdone.
  assert (currentIndex p = length urls) as Hci.
  { destruct (workers p) as [|s ws] eqn:Hws; [done|].
    apply (Hret 0). simpl. f_equal. by apply (Hdone 0). }
  split; [|by rewrite Hcalls, Hci].
  apply filter_Boolean_slots. intros i.
  destruct (urls !! i) as [u|] eqn:Hu.
  - destruct (has_loc u) eqn:Hloc.
    + destruct (Hcl i) as [[r Hr]|(w & st & Hw)].
      * rewrite Hci. by eapply lookup_lt_Some.
      * unfold Terms.claimed_url. by rewrite Hu.
      * exists r. split; [done|].
        destruct (Hres _ _ Hr) as (u' & Hu' & _ & Hcr). congruence.
      * by specialize (Hdone _ _ Hw).
    + destruct (slot (results p) i) as [r|] eqn:Hr; [|done].
      destruct (Hres _ _ Hr) as (u' & Hu' & Hloc' & _). congruence.
  - destruct (slot (results p) i) as [r|] eqn:Hr; [|done].
    destruct (Hres _ _ Hr) as (u' & Hu' & _). congruence.
Qed.

(** *** Termination of the pool *)

Lemma sum_weights_insert (ws : list Worker) w s s' :
  ws !! w = Some s ->
  sum_list (map weight (<[w := s']> ws)) + weight s
  = sum_list (map weight ws) + weight s'.
Proof.
  revert w. induction ws as [|x ws IH]; intros [|w] H; simpl in *; try done.
  - injection H as ->. lia.
  - specialize (IH _ H). lia.
Qed.

Lemma pool_step_decreases p t s :
  workers p !! who t = Some s -> s <> Returned ->
  pool_measure (step p t) < pool_measure p.
Proof.
  intros Hw Hs. unfold pool_step, Terms.pool_measure. rewrite Hw.
  destruct s as [|index st|]; [| |done].
  - destruct (currentIndex p <? length urls) eqn:Hlt.
    + apply Nat.ltb_lt in Hlt.
      destruct (urls !! currentIndex p) as [u|]; [destruct (JS.truthy (loc u))|];
        cbn [currentIndex results workers calls set_worker].
      * pose proof (sum_weights_insert _ _ _ (Awaiting (currentIndex p) (now t)) Hw).
        simpl in *. lia.
      * lia.
      * lia.
    + cbn [currentIndex results workers calls set_worker].
      pose proof (sum_weights_insert _ _ _ Returned Hw). simpl in *. lia.
  - destruct (urls !! index);
      cbn [currentIndex results workers calls set_worker];
      pose proof (sum_weights_insert _ _ _ AtLoopHead Hw); simpl in *; lia.
Qed.

Lemma pool_not_done p :
  pool_done p = false ->
  exists w s, workers p !! w = Some s /\ s <> Returned.
Proof.
  unfold pool_done. intros H.
  induction (workers p) as [|s ws IH]; [done|]. simpl in H.
  destruct s; try (exists 0; eexists; split; [done | done]).
  destruct (IH H) as (w & s & Hw & Hs). by exists (S w), s.
Qed.

(** Whatever the network does, the pool can be run to the end, in no more
    steps than its measure. *)
Lemma pool_terminates (fetch : Network) (clock n : nat) p :
  pool_measure p <= n ->
  exists sched, length sched <= n /\ pool_done (run p sched) = true.
Proof.
  revert p. induction n as [|n IH]; intros p Hn.
  - exists []. split; [done|]. simpl.
    destruct (pool_done p) eqn:Hd; [done|].
    destruct (pool_not_done _ Hd) as (w & s & Hw & Hs).
    pose proof (pool_step_decreases p (mkTick w clock fetch) s Hw Hs). lia.
  - destruct (pool_done p) eqn:Hd.
    + exists []. split; [simpl; lia | done].
    + destruct (pool_not_done _ Hd) as (w & s & Hw & Hs).
      pose proof (pool_step_decreases p (mkTick w clock fetch) s Hw Hs) as Hdec.
      destruct (IH (step p (mkTick w clock fetch)) ltac:(lia))
        as (sched & Hlen & Hdone).
      exists (mkTick w clock fetch :: sched). split; [simpl; lia | done].
Qed.

Lemma pool_step_workers p t :
  length (workers (step p t)) = length (workers p).
Proof.
  unfold pool_step.
  repeat case_match; cbn [workers set_worker]; by rewrite ?length_insert.
Qed.

Lemma pool_run_workers sched p :
  length (workers (run p sched)) = length (workers p).
Proof.
  revert p. induction sched as [|t sched IH]; intros p; [done|].
  simpl. by rewrite IH, pool_step_workers.
Qed.

(** What a finished pool returns, for any number of workers above zero
    and any schedule: the results of the entries that have a URL, in the
    order of the entries. *)
Lemma crawlPages_output concurrency sched out :
  (1 <= concurrency)%Z ->
  crawlPages extractContent contentTransformer urls concurrency sched
    = Some out ->
  Forall2 crawl_of (List.filter has_loc urls) out /\
  calls (run (pool_init concurrency) sched)
    = List.filter claimed_url (seq 0 (length urls)).
Proof.
  unfold crawlPages. intros Hc.
  destruct (pool_done _) eqn:Hdone; [|done]. intros [= <-].
  apply pool_output; [apply pool_inv_run, pool_inv_init | done |].
  intros Hnil. apply (f_equal length) in Hnil.
  rewrite pool_run_workers in Hnil. simpl in Hnil.
  rewrite length_replicate in Hnil. lia.
Qed.

Lemma crawlPages_complete (fetch : Network) (clock : nat) concurrency :
  exists sched out,
    crawlPages extractContent contentTransformer urls concurrency sched
      = Some out.
Proof.
  destruct (pool_terminates fetch clock _ (pool_init concurrency) (le_n _))
    as (sched & _ & Hdone).
  exists sched. unfold crawlPages. rewrite Hdone. by eexists.
Qed.

End CrawlPoolFacts.

(** C6 (as amended). With at least one worker and a list whose entries all
    have a non-empty [loc], the pool finishes under some schedule, and
    under every schedule that finishes it the output has the length of the
    input, the result at index [i] is [crawlSinglePage]'s result for the
    [i]-th entry, and [crawlSinglePage] was called exactly once per index,
    whatever the interleaving of the workers. *)
Theorem crawlPages_preserves_order extractContent contentTransformer urls
    concurrency :
  (1 <= concurrency)%Z ->
  Forall (fun u => has_loc u = true) urls ->
  (exists sched out,
     crawlPages extractContent contentTransformer urls concurrency sched
       = Some out) /\
  forall sched out,
    crawlPages extractContent contentTransformer urls concurrency sched
      = Some out ->
    order_preserved urls out /\
    (forall i u, urls !! i = Some u ->
       exists r, out !! i = Some r /\
                 crawl_of extractContent contentTransformer u r) /\
    calls (pool_run extractContent contentTransformer urls
             (pool_init concurrency) sched) = seq 0 (length urls).
Proof.
  intros Hc Hlocs. split.
  { apply (crawlPages_complete _ _ _ (fun _ _ => Rejected NonError) 0). }
  intros sched out Hrun.
  destruct (crawlPages_output _ _ _ _ _ _ Hc Hrun) as [Hout Hcalls].
  assert (List.filter has_loc urls = urls) as Hfilter.
  { clear -Hlocs. induction Hlocs as [|u us Hu _ IH]; [done|].
    simpl. by rewrite Hu, IH. }
  rewrite Hfilter in Hout.
  assert (forall i u, urls !! i = Some u ->
            exists r, out !! i = Some r /\
                      crawl_of extractContent contentTransformer u r) as Hidx.
  { intros i u Hu. by eapply Forall2_lookup_l. }
  repeat split.
  - symmetry. by eapply Forall2_length.
  - intros i u Hu. destruct (Hidx i u Hu) as (r & Hr & fetch & st & ->).
    exists (crawlSinglePage extractContent contentTransformer fetch st
              (loc u) (su_lastmod u)).
    split; [done | apply crawlSinglePage_url].
  - done.
  - rewrite Hcalls. clear -Hlocs.
    assert (forall i, i < length urls -> claimed_url urls i = true) as Hall.
    { intros i Hi. unfold Terms.claimed_url.
      destruct (urls !! i) as [u|] eqn:Hu.
      - rewrite Forall_forall in Hlocs. apply Hlocs.
        by eapply list_elem_of_lookup_2.
      - apply lookup_ge_None in Hu. lia. }
    revert Hall. generalize (length urls) as n. intros n Hall.
    induction n as [|n IH]; [done|].
    rewrite seq_S, List.filter_app, IH by (intros; apply Hall; lia).
    simpl. by rewrite Hall by lia.
Qed.

Lemma crawlPages_preserves_order_witness :
  order_preserved [entry "https://a.b/1"; entry "https://a.b/2"]
    (default []
       (crawlPages plain_extract no_transform
          [entry "https://a.b/1"; entry "https://a.b/2"] 2
          (ticks hello_net 0 1 ++ ticks hello_net 1 2
             ++ ticks hello_net 0 2 ++ ticks hello_net 1 1))).
Proof.
  destruct (crawlPages_preserves_order plain_extract no_transform
              [entry "https://a.b/1"; entry "https://a.b/2"] 2%Z)
    as [_ H].
  - lia.
  - repeat constructor.
  - destruct (crawlPages plain_extract no_transform
                [entry "https://a.b/1"; entry "https://a.b/2"] 2
                (ticks hello_net 0 1 ++ ticks hello_net 1 2
             ++ ticks hello_net 0 2 ++ ticks hello_net 1 1))
      as [out|] eqn:E; [|by vm_compute in E].
    simpl. by apply (H _ _ E).
Defined.

(** C6, counterexample.  An entry whose [loc] is the empty string is
    claimed and skipped, and the final [filter(Boolean)] closes the hole:
    with one worker the three entries give two results, and index 1 holds
    the result for the third entry.  With no worker at all ([concurrency]
    zero) nothing is crawled. *)
Lemma crawlPages_order_broken :
  (exists out,
     crawlPages plain_extract no_transform
       [entry "https://a.b/1"; entry EmptyString; entry "https://a.b/3"]
       1 (ticks hello_net 0 6) = Some out /\
     (url <$> out) = ["https://a.b/1"; "https://a.b/3"] /\
     ~ order_preserved
         [entry "https://a.b/1"; entry EmptyString; entry "https://a.b/3"]
         out) /\
  (crawlPages plain_extract no_transform [entry "https://a.b/1"] 0 []
     = Some [] /\
   ~ order_preserved [entry "https://a.b/1"] []).
Proof.
  split.
  - eexists. split; [by vm_compute|]. split; [by vm_compute|].
    intros [Hlen _]. by vm_compute in Hlen.
  - split; [by vm_compute|]. intros [Hlen _]. by vm_compute in Hlen.
Qed.

(** ** Categorizer and filter *)

Lemma filter_submseteq {A} (f : A -> bool) (l : list A) :
  List.filter f l ⊆+ l.
Proof.
  induction l as [|x l IH]; simpl; [done|].
  destruct (f x); by constructor.
Qed.

Lemma map_submseteq {A B} (f : A -> B) (l k : list A) :
  l ⊆+ k -> map f l ⊆+ map f k.
Proof.
  induction 1; simpl; try by constructor.
  by etrans.
Qed.

Lemma flat_map_submseteq {A B} (f g : A -> list B) (l : list A) :
  (forall x, f x ⊆+ g x) -> flat_map f l ⊆+ flat_map g l.
Proof.
  intros H. induction l as [|x l IH]; simpl; [done|].
  by apply submseteq_app.
Qed.

Lemma slice0_submseteq {A} (l : list A) (e : Z) : slice0 l e ⊆+ l.
Proof. unfold slice0. destruct (e <? 0)%Z; apply submseteq_take. Qed.

Lemma slice0_length {A} (l : list A) (e : Z) :
  (0 <= e)%Z -> (Z.of_nat (length (slice0 l e)) <= e)%Z.
Proof.
  intros He. unfold slice0. destruct (e <? 0)%Z eqn:E; [lia|].
  rewrite length_take. lia.
Qed.

Section ContentFilterFacts.
Variable Array_sort : forall A : Type, (A -> A -> Z) -> list A -> list A.
Variable regexMatchCount : string -> string -> Thrown + nat.
Hypothesis sort_ok : sort_permutes Array_sort.

Lemma categorize_page config p cp :
  categorize regexMatchCount config p = inr cp -> page cp = p.
Proof.
  unfold categorize. destruct (findBestCategory _ _ _); [done|].
  by intros [= <-].
Qed.

Lemma categorize_all_pages config ps cps :
  categorize_all regexMatchCount config ps = inr cps -> map page cps = ps.
Proof.
  revert cps. induction ps as [|p ps IH]; intros cps; simpl.
  - by intros [= <-].
  - destruct (categorize _ _ p) as [e|cp] eqn:Hc; [done|].
    destruct (categorize_all _ _ ps) as [e|cps']; [done|].
    intros [= <-]. simpl. by rewrite (categorize_page _ _ _ Hc), IH.
Qed.

Lemma group_push_perm cp (g : list (string * list CategorizedPageResult)) :
  flat_map snd (group_push cp g) ≡ₚ cp :: flat_map snd g.
Proof.
  induction g as [|[k ps] g IH]; simpl; [done|].
  destruct (String.eqb k (category cp)); simpl.
  - rewrite <- app_assoc. simpl.
    by rewrite <- Permutation_middle.
  - rewrite IH. by rewrite <- Permutation_middle.
Qed.

Lemma groupByCategory_perm (pages : list CategorizedPageResult) :
  flat_map snd (groupByCategory pages) ≡ₚ pages.
Proof.
  unfold groupByCategory.
  assert (forall g, flat_map snd (foldl (fun grouped cp => group_push cp grouped) g pages)
                    ≡ₚ flat_map snd g ++ pages) as H.
  { induction pages as [|cp pages IH]; intros g; simpl.
    - by rewrite app_nil_r.
    - rewrite IH, group_push_perm. by rewrite <- Permutation_middle. }
  by rewrite H.
Qed.

Lemma insert_indexed_perm {V} n (e : V) (l : list (N * V)) :
  insert_indexed n e l ≡ₚ (n, e) :: l.
Proof.
  induction l as [|[m x] l IH]; simpl; [done|].
  destruct (n <=? m)%N; [done|]. rewrite IH. apply perm_swap.
Qed.

Lemma Object_entries_perm {V} (o : list (string * V)) :
  Object_entries o ≡ₚ o.
Proof.
  unfold Object_entries.
  induction o as [|kv o IH]; simpl; [done|].
  destruct (Num.array_index (fst kv)) as [n|]; simpl.
  - rewrite insert_indexed_perm. simpl. by rewrite IH.
  - by rewrite <- Permutation_middle, IH.
Qed.

Lemma applyCategoryLimits_submseteq config cps :
  applyCategoryLimits config cps ⊆+ cps.
Proof.
  unfold applyCategoryLimits.
  etrans; [apply (flat_map_submseteq _ snd)|].
  - intros [k ps]. apply slice0_submseteq.
  - apply Permutation_submseteq.
    rewrite (Permutation_flat_map _ (Object_entries_perm _)).
    apply groupByCategory_perm.
Qed.

(** Content filtering selects and reorders: what it returns are pages it
    was given, none of them twice. *)
Lemma applyContentFiltering_submseteq contentFilter pages :
  applyContentFiltering Array_sort regexMatchCount contentFilter pages
    ⊆+ pages.
Proof.
  unfold applyContentFiltering. destruct contentFilter as [config|]; [|done].
  unfold cf_filter.
  destruct (categorize_all _ _ pages) as [e|cps] eqn:Hc; [done|].
  rewrite <- (categorize_all_pages _ _ _ Hc).
  apply map_submseteq. etrans; [apply applyCategoryLimits_submseteq|].
  rewrite (sort_ok _ _ _). apply filter_submseteq.
Qed.

End ContentFilterFacts.

Lemma Toy_insert_sorted_perm {A} (cmp : A -> A -> Z) x (l : list A) :
  Toy.insert_sorted cmp x l ≡ₚ x :: l.
Proof.
  induction l as [|y l IH]; simpl; [done|].
  destruct (cmp x y <=? 0)%Z; [done|]. rewrite IH. apply perm_swap.
Qed.

Lemma Toy_sort_permutes : sort_permutes Toy.Array_sort.
Proof.
  intros A cmp l. unfold Toy.Array_sort.
  induction l as [|x l IH]; simpl; [done|].
  by rewrite Toy_insert_sorted_perm, IH.
Qed.

(** ** The processed set of a run *)

Section PoolPages.
Variable extractContent : string -> string -> Thrown + Extracted.
Variable contentTransformer : string -> string -> Thrown + string.
Variable urls : list SitemapUrl.

Lemma filter_Boolean_length {A} (arr : list (option A)) :
  length (filter_Boolean arr) <= length arr.
Proof.
  induction arr as [|[x|] arr IH]; simpl in *; lia.
Qed.

Lemma filter_Boolean_elem {A} (arr : list (option A)) x :
  x ∈ filter_Boolean arr -> exists i, slot arr i = Some x.
Proof.
  induction arr as [|[y|] arr IH]; simpl.
  - by intros ?%elem_of_nil.
  - intros [->|Hin]%elem_of_cons.
    + by exists 0.
    + destruct (IH Hin) as [i Hi]. by exists (S i).
  - intros Hin. destruct (IH Hin) as [i Hi]. by exists (S i).
Qed.

(** Every result of the pool is a result of [crawlSinglePage] for one of
    the entries, and there are no more results than entries. *)
Lemma crawlPages_pages concurrency sched out :
  crawlPages extractContent contentTransformer urls concurrency sched
    = Some out ->
  length out <= length urls /\
  forall r, r ∈ out ->
    exists u, u ∈ urls /\ crawl_of extractContent contentTransformer u r.
Proof.
  unfold crawlPages. destruct (pool_done _); [|done]. intros [= <-].
  pose proof (pool_inv_run extractContent contentTransformer urls sched _
                (pool_inv_init extractContent contentTransformer urls
                   concurrency)) as [Hidx Hlen Hres _ _ _ _].
  split.
  - etrans; [apply filter_Boolean_length|]. lia.
  - intros r [i Hi]%filter_Boolean_elem.
    destruct (Hres _ _ Hi) as (u & Hu & _ & Hcr).
    exists u. split; [by eapply list_elem_of_lookup_2 | done].
Qed.

End PoolPages.

Section Runs.
Variable P : Platform.
Variable fetch : Network.
Variable sched : list Tick.
Variable clock : nat.
Hypothesis sort_ok : sort_permutes (p_Array_sort P).

(** A run that returns: the stages it went through. *)
Lemma generate_stages options out st :
  generate P fetch sched clock options = Some (inr (out, st)) ->
  exists sortedUrls pageResults,
    generate_sortedUrls P fetch (effective options) = inr sortedUrls /\
    length pageResults <= length sortedUrls /\
    Forall crawl_shaped pageResults /\
    applyCharacterLimits (o_maxCharsPerPage (effective options))
      (o_maxTotalChars (effective options))
      (applyContentFiltering (p_Array_sort P) (p_regexMatchCount P)
         (o_contentFilter (effective options)) pageResults)
      (createInitialStats clock) = (out, st).
Proof.
  unfold generate, effective.
  destruct (generate_sortedUrls P fetch (applyFormatLimits options))
    as [e|sortedUrls]; [done|].
  destruct (crawlPages _ _ _ _ _) as [pageResults|] eqn:Hcrawl; [|done].
  intros [= Heq]. exists sortedUrls, pageResults.
  destruct (crawlPages_pages _ _ _ _ _ _ Hcrawl) as [Hlen Hall].
  repeat split; try done.
  apply Forall_forall. intros r Hr.
  destruct (Hall r Hr) as (u & _ & fetch' & st' & ->).
  apply crawlSinglePage_shape.
Qed.

(** Every page of the processed set is a crawled page, passed through the
    per-page clamp. *)
Lemma processed_pages options out st p :
  generate P fetch sched clock options = Some (inr (out, st)) ->
  p ∈ out ->
  exists q, crawl_shaped q /\
            p = process_page (o_maxCharsPerPage (effective options)) q.
Proof.
  intros (sortedUrls & pageResults & _ & _ & Hshape & Hlim)%generate_stages Hp.
  unfold applyCharacterLimits in Hlim.
  destruct (limitsLoop_prefix (o_maxCharsPerPage (effective options))
              (o_maxTotalChars (effective options))
              (applyContentFiltering (p_Array_sort P) (p_regexMatchCount P)
                 (o_contentFilter (effective options)) pageResults)
              0 (createInitialStats clock)) as (k & _ & Hout).
  rewrite Hlim in Hout. simpl in Hout. subst out.
  apply list_elem_of_In, in_map_iff in Hp. destruct Hp as (q & <- & Hq).
  exists q. split; [|done].
  rewrite Forall_forall in Hshape. apply Hshape.
  eapply elem_of_submseteq; [|by apply applyContentFiltering_submseteq].
  eapply elem_of_submseteq; [by apply list_elem_of_In | apply submseteq_take].
Qed.

(** The processed set is no longer than the list of URLs handed to the
    pool. *)
Lemma processed_length options out st :
  generate P fetch sched clock options = Some (inr (out, st)) ->
  exists sortedUrls,
    generate_sortedUrls P fetch (effective options) = inr sortedUrls /\
    length out <= length sortedUrls.
Proof.
  intros (sortedUrls & pageResults & Hurls & Hlen & _ & Hlim)%generate_stages.
  exists sortedUrls. split; [done|].
  unfold applyCharacterLimits in Hlim.
  destruct (limitsLoop_prefix (o_maxCharsPerPage (effective options))
              (o_maxTotalChars (effective options))
              (applyContentFiltering (p_Array_sort P) (p_regexMatchCount P)
                 (o_contentFilter (effective options)) pageResults)
              0 (createInitialStats clock)) as (k & Hk & Hout).
  rewrite Hlim in Hout. simpl in Hout. subst out.
  rewrite length_map, length_take.
  pose proof (submseteq_length _ _
    (applyContentFiltering_submseteq _ (p_regexMatchCount P) sort_ok
       (o_contentFilter (effective options)) pageResults)).
  lia.
Qed.

End Runs.

Section ProcessedSetClaims.
Variable P : Platform.
Variable fetch : Network.
Variable sched : list Tick.
Variable clock : nat.
Hypothesis sort_ok : sort_permutes (p_Array_sort P).

(** C3 (as amended). In the processed set of every run, a page has
    [truncated = true] exactly when its crawled content was longer than the
    per-page limit and was clamped to the limit, with the marker appended;
    then [originalLength] is the length of the crawled content, above the
    limit, and at least [contentLength] (which the clamp leaves as it
    was). *)
Theorem truncated_iff_clamped options out st p :
  generate P fetch sched clock options = Some (inr (out, st)) ->
  p ∈ out ->
  let limit := o_maxCharsPerPage (effective options) in
  exists q,
    crawl_shaped q /\ p = process_page limit q /\
    (truncated p = Some true <-> over_page_limit limit q = true) /\
    (truncated p = Some true ->
       content p = JS.substring0 (content q) limit +:+ truncation_marker limit
       /\ originalLength p = Some (String.length (content q))
       /\ (limit < Z.of_nat (String.length (content q)))%Z
       /\ contentLength p <= String.length (content q)).
Proof.
  intros Hrun Hp limit.
  destruct (processed_pages P fetch sched clock sort_ok _ _ _ _ Hrun Hp)
    as (q & Hq & ->).
  exists q. split; [done|]. split; [done|].
  fold limit. unfold process_page.
  destruct (over_page_limit limit q) eqn:Hover; simpl.
  - split; [done|]. intros _. repeat split.
    + unfold over_page_limit in Hover. lia.
    + destruct (success q) eqn:Hs.
      * by rewrite (proj1 (cs_success q Hq Hs)).
      * rewrite (proj1 (cs_skipped q Hq Hs)). lia.
  - rewrite (cs_truncated q Hq). split; [split; done | done].
Qed.

(** C4 (as amended). In the processed set of every run, a successful page
    that was not truncated has [contentLength] equal to the length of its
    [content], and a skipped page has [contentLength] zero. *)
Theorem contentLength_of_processed options out st p :
  generate P fetch sched clock options = Some (inr (out, st)) ->
  p ∈ out ->
  (success p = true -> truncated p = Some false ->
     contentLength p = String.length (content p)) /\
  (success p = false -> contentLength p = 0).
Proof.
  intros Hrun Hp.
  destruct (processed_pages P fetch sched clock sort_ok _ _ _ _ Hrun Hp)
    as (q & Hq & ->).
  unfold process_page.
  destruct (over_page_limit _ q); simpl.
  - split; [done|]. intros Hs. apply (cs_skipped q Hq Hs).
  - split.
    + intros Hs _. apply (cs_success q Hq Hs).
    + intros Hs. apply (cs_skipped q Hq Hs).
Qed.

End ProcessedSetClaims.

Lemma long_page_run_pages :
  long_page_run
  = Some (inr ([long_page], incr_truncatedPages (createInitialStats 0))).
Proof. by vm_compute. Qed.

Lemma truncated_iff_clamped_witness :
  exists q, crawl_shaped q /\ long_page = process_page 5 q /\
            over_page_limit 5 q = true /\
            originalLength long_page = Some (String.length (content q)).
Proof.
  destruct (truncated_iff_clamped Toy.platform long_page_net
              (ticks long_page_net 0 3) 0 Toy_sort_permutes small_options
              [long_page] (incr_truncatedPages (createInitialStats 0))
              long_page long_page_run_pages (list_elem_of_here _ _))
    as (q & Hq & Hp & Hiff & Hthen).
  exists q. split; [done|]. split; [done|]. split.
  - by apply Hiff.
  - by apply Hthen.
Defined.

(** C3, counterexample: the page of ten characters is clamped to five;
    its [originalLength] and its [contentLength] are both ten, so the first
    is not above the second, and with the marker its content is twenty-nine
    characters long. *)
Lemma truncated_original_not_greater :
  exists p, p ∈ pages_of long_page_run /\
    truncated p = Some true /\
    originalLength p = Some 10 /\ contentLength p = 10 /\
    String.length (content p) = 29.
Proof.
  unfold pages_of. rewrite long_page_run_pages.
  exists long_page. split; [apply list_elem_of_here|]. vm_compute.
  repeat split.
Qed.

Lemma pdf_run_pages :
  pdf_run = Some (inr ([pdf_page], createInitialStats 0)).
Proof. by vm_compute. Qed.

Lemma contentLength_of_processed_witness :
  (success pdf_page = true -> truncated pdf_page = Some false ->
     contentLength pdf_page = String.length (content pdf_page)) /\
  (success pdf_page = false -> contentLength pdf_page = 0).
Proof.
  exact (contentLength_of_processed Toy.platform pdf_net (ticks pdf_net 0 3) 0
           Toy_sort_permutes large_limit_options [pdf_page]
           (createInitialStats 0) pdf_page pdf_run_pages
           (list_elem_of_here _ _)).
Defined.

(** C4, counterexample: the skipped page carries the placeholder text of
    twenty-one characters and a [contentLength] of zero. *)
Lemma skipped_contentLength_is_zero :
  exists p, p ∈ pages_of pdf_run /\
    success p = false /\ contentLength p = 0 /\
    String.length (content p) = 21.
Proof.
  unfold pages_of. rewrite pdf_run_pages.
  exists pdf_page. split; [apply list_elem_of_here|]. vm_compute.
  repeat split.
Qed.

(** ** URL filtering and discovery *)

Section FilterUrlsFacts.
Variable siteUrl : string.
Variable includePatterns excludePatterns : list Pattern.
Variable maxPages : Z.

Local Abbreviation candidates :=
  (Terms.candidates includePatterns excludePatterns maxPages).

Lemma filterUrls_fallback urls :
  filterUrls siteUrl includePatterns excludePatterns maxPages urls
  = match candidates urls with
    | [] => [{| loc := siteUrl; su_lastmod := None |}]
    | _ :: _ => candidates urls
    end.
Proof.
  unfold filterUrls, Terms.candidates.
  by destruct (slice0 _ maxPages).
Qed.

Lemma filterUrls_nonempty urls :
  1 <= length (filterUrls siteUrl includePatterns excludePatterns maxPages urls).
Proof.
  rewrite filterUrls_fallback. destruct (candidates urls); simpl; lia.
Qed.

Lemma filterUrls_length urls :
  (1 <= maxPages)%Z ->
  (Z.of_nat (length (filterUrls siteUrl includePatterns excludePatterns
                       maxPages urls)) <= maxPages)%Z.
Proof.
  intros Hmax. rewrite filterUrls_fallback.
  destruct (candidates urls) as [|u us] eqn:Hc; [simpl; lia|].
  rewrite <- Hc. unfold Terms.candidates. apply slice0_length. lia.
Qed.

End FilterUrlsFacts.

Lemma Map_set_length {V} k (v : V) m :
  1 <= length (Map_set k v m) /\ length m <= length (Map_set k v m).
Proof.
  induction m as [|[k' v'] m IH]; simpl; [lia|].
  destruct (String.eqb k k'); simpl; lia.
Qed.

Section DiscoveryFacts.
Variable api : UrlApi.
Variable fetch : Network.
Variable anchorHrefs : string -> string -> Thrown + list string.
Variable resolveUrl : string -> string -> option string.
Variable siteUrl : string.
Variable keepQueryParams : list string.
Variable maxRecursiveDepth maxLinksPerPage concurrency : Z.

Lemma add_new_grows st newUrl :
  length (fst st)
  <= length (fst (add_new api siteUrl keepQueryParams st newUrl)).
Proof.
  unfold add_new. destruct (_ && _); simpl; [|lia].
  apply Map_set_length.
Qed.

Lemma foldl_add_new_grows newUrls st :
  length (fst st)
  <= length (fst (foldl (add_new api siteUrl keepQueryParams) st newUrls)).
Proof.
  revert st. induction newUrls as [|x xs IH]; intros st; simpl; [lia|].
  etrans; [apply (add_new_grows st x) | apply IH].
Qed.

Lemma discoverLoop_grows fuel d st :
  length (fst st)
  <= length (fst (discoverLoop api fetch anchorHrefs resolveUrl siteUrl
                    keepQueryParams maxLinksPerPage concurrency fuel d st)).
Proof.
  revert d st. induction fuel as [|fuel IH]; intros d st; simpl; [lia|].
  destruct (length _ =? 0); [lia|].
  etrans; [|apply IH]. apply foldl_add_new_grows.
Qed.

Lemma foldl_add_initial_grows urls st :
  length (fst st)
  <= length (fst (foldl (add_initial api keepQueryParams) st urls)).
Proof.
  revert st. induction urls as [|x xs IH]; intros st; simpl; [lia|].
  etrans; [|apply IH]. unfold add_initial. simpl. apply Map_set_length.
Qed.

(** Discovery never loses the seeds: from a list that is not empty it
    returns a list that is not empty; without recursion it returns one
    entry per seed. *)
Lemma discoverUrlsRecursively_nonempty recursive initialUrls :
  1 <= length initialUrls ->
  1 <= length (discoverUrlsRecursively api fetch anchorHrefs resolveUrl
                 siteUrl keepQueryParams recursive maxRecursiveDepth
                 maxLinksPerPage concurrency initialUrls).
Proof.
  intros Hne. unfold discoverUrlsRecursively.
  destruct recursive; simpl.
  - unfold Map_values. rewrite length_map.
    etrans; [|apply discoverLoop_grows].
    destruct initialUrls as [|u us]; [simpl in Hne; lia|]. simpl.
    etrans; [|apply foldl_add_initial_grows].
    unfold add_initial. simpl. lia.
  - by rewrite length_map.
Qed.

Lemma discoverUrlsRecursively_off initialUrls :
  length (discoverUrlsRecursively api fetch anchorHrefs resolveUrl
            siteUrl keepQueryParams false maxRecursiveDepth
            maxLinksPerPage concurrency initialUrls)
  = length initialUrls.
Proof. unfold discoverUrlsRecursively. simpl. by rewrite length_map. Qed.

End DiscoveryFacts.

Section PipelineClaims.
Variable P : Platform.
Variable fetch : Network.
Variable sched : list Tick.
Variable clock : nat.
Hypothesis sort_ok : sort_permutes (p_Array_sort P).

Lemma sortUrls_length urls :
  length (sortUrls (p_Array_sort P) (p_dateTime P) (p_localeCompare P) urls)
  = length urls.
Proof. unfold sortUrls. by rewrite (sort_ok _ _ _). Qed.

(** C5 (as amended). In every run without recursive link discovery whose
    page limit in force (the output format's, where it sets one) is at
    least one, the processed set has at most that many pages. *)
Theorem processed_at_most_maxPages options out st :
  o_enableRecursiveDiscovery options = false ->
  (1 <= o_maxPages (effective options))%Z ->
  generate P fetch sched clock options = Some (inr (out, st)) ->
  (Z.of_nat (length out) <= o_maxPages (effective options))%Z.
Proof.
  intros Hrec Hmax Hrun.
  destruct (processed_length P fetch sched clock sort_ok _ _ _ Hrun)
    as (sortedUrls & Hurls & Hlen).
  unfold generate_sortedUrls in Hurls.
  destruct (extractUrls _ _ _ _) as [e|urls]; [done|].
  injection Hurls as <-.
  rewrite sortUrls_length, length_map in Hlen.
  rewrite Hrec, discoverUrlsRecursively_off in Hlen.
  pose proof (filterUrls_length (o_siteUrl options)
                (o_includePatterns options) (o_excludePatterns options)
                (o_maxPages (effective options)) urls Hmax) as Hcap.
  unfold effective, applyFormatLimits in *. cbn [o_maxPages] in *. lia.
Qed.

(** C10. [filterUrls] never returns an empty list: when the patterns and
    the page limit leave no URL, it returns the one-element list holding
    the site URL; so the list handed to the crawl worker pool has at least
    one URL in every run. *)
Theorem filterUrls_never_empty options :
  (forall urls,
     let site := o_siteUrl options in
     let inc := o_includePatterns options in
     let exc := o_excludePatterns options in
     let cap := o_maxPages options in
     1 <= length (filterUrls site inc exc cap urls) /\
     (candidates inc exc cap urls = [] ->
      filterUrls site inc exc cap urls
      = [{| loc := site; su_lastmod := None |}])) /\
  (forall sortedUrls,
     generate_sortedUrls P fetch options = inr sortedUrls ->
     1 <= length sortedUrls).
Proof.
  split.
  - intros urls site inc exc cap. split; [apply filterUrls_nonempty|].
    intros Hc. by rewrite filterUrls_fallback, Hc.
  - intros sortedUrls. unfold generate_sortedUrls.
    destruct (extractUrls _ _ _ _) as [e|urls]; [done|].
    intros [= <-]. rewrite sortUrls_length, length_map.
    apply discoverUrlsRecursively_nonempty, filterUrls_nonempty.
Qed.

End PipelineClaims.

Lemma processed_at_most_maxPages_witness :
  (Z.of_nat (length [long_page]) <= o_maxPages (effective small_options))%Z.
Proof.
  apply (processed_at_most_maxPages Toy.platform long_page_net
           (ticks long_page_net 0 3) 0 Toy_sort_permutes small_options
           [long_page] (incr_truncatedPages (createInitialStats 0))).
  - reflexivity.
  - vm_compute. discriminate.
  - exact long_page_run_pages.
Defined.

(** C5, counterexample: with [maxPages = 0] the slice leaves no URL, the
    fallback of [filterUrls] puts the site URL in, and the processed set
    has one page. *)
Lemma one_page_with_maxPages_zero :
  o_maxPages (effective zero_pages_options) = 0%Z /\
  (url <$> pages_of zero_pages_run) = ["https://a.b"] /\
  (o_maxPages (effective zero_pages_options)
   < Z.of_nat (length (pages_of zero_pages_run)))%Z.
Proof. by vm_compute. Qed.

(** With recursive discovery the links found on the one sitemap page are
    added after the page limit was applied: under [maxPages = 1] the
    processed set has three pages. *)
Lemma recursive_discovery_exceeds_maxPages :
  o_maxPages (effective recursive_options) = 1%Z /\
  (url <$> pages_of recursive_run)
  = ["https://a.b/p"; "https://a.b/x"; "https://a.b/y"].
Proof. by vm_compute. Qed.

(** The default limits of the output format replace the options' own: a
    [maxPages] of one in the options is a limit of 5000 in the run. *)
Lemma format_limits_override_maxPages :
  o_maxPages
    (effective
       (mkOptions (o_siteUrl small_options) (o_sitemapUrl small_options)
          1 1 [] [] 1000 100000 [] no_transform false 3 50 false false full
          default_formatLimits None [] false)) = 5000%Z.
Proof. reflexivity. Qed.

Lemma filterUrls_never_empty_witness :
  1 <= length (filterUrls (o_siteUrl zero_pages_options)
                 (o_includePatterns zero_pages_options)
                 (o_excludePatterns zero_pages_options)
                 (o_maxPages zero_pages_options)
                 [entry "https://a.b/p"]) /\
  generate_sortedUrls Toy.platform hello_site zero_pages_options
  = inr [entry "https://a.b"].
Proof.
  destruct (filterUrls_never_empty Toy.platform hello_site Toy_sort_permutes
              zero_pages_options) as [Hfilter Hrun].
  split.
  - apply Hfilter.
  - destruct (Hfilter [entry "https://a.b/p"]) as [_ Hfallback].
    by vm_compute.
Defined.

(** ** Non-2xx responses in the fetcher and the crawl worker *)

(** C1, on the code: a [404] is retried like a transport failure (three
    requests, with the two back-off sleeps between them), then thrown as a
    [GeneratorError], and the crawl worker's [catch] reports the page as a
    [parse-error] with status code 0; the [http-404] skip of the worker is
    never produced. *)
Theorem http_404_is_retried_then_parse_error :
  let u := "https://a.b/missing" in
  fetchWithRetry missing_net u
  = ([EvFetch u 0; EvSleep 250; EvFetch u 1; EvSleep 500; EvFetch u 2],
     inl (GeneratorError "HTTP 404: Not Found" NETWORK_ERROR (Some u))) /\
  let r := crawlSinglePage plain_extract no_transform missing_net 0 u None in
  success r = false /\
  skipReason r = Some "parse-error" /\
  statusCode r = Some 0%Z /\
  error r = Some "HTTP 404: Not Found" /\
  content r = "(Fetch/parse error: HTTP 404: Not Found)".
Proof. by vm_compute. Qed.

(** Whatever the network answers, three answers that are not [ok] make
    [fetchWithRetry] send three requests and throw. *)
Lemma fetchWithRetry_retries_non_ok (fetch : Network) u :
  (forall k, k < 3 -> exists r, fetch u k = Resolved r /\ ok r = false) ->
  fst (fetchWithRetry fetch u)
  = [EvFetch u 0; EvSleep 250; EvFetch u 1; EvSleep 500; EvFetch u 2] /\
  exists e, snd (fetchWithRetry fetch u) = inl e.
Proof.
  intros H.
  destruct (H 0 ltac:(lia)) as (r0 & H0 & Hok0).
  destruct (H 1 ltac:(lia)) as (r1 & H1 & Hok1).
  destruct (H 2 ltac:(lia)) as (r2 & H2 & Hok2).
  unfold fetchWithRetry, fetchWithRetry_n. cbn [fetchLoop].
  unfold fetchAttempt. rewrite H0, Hok0, H1, Hok1, H2, Hok2. simpl.
  split; [done | by eexists].
Qed.

Lemma fetchWithRetry_retries_non_ok_witness :
  fst (fetchWithRetry missing_net "https://a.b/missing")
  = [EvFetch "https://a.b/missing" 0; EvSleep 250;
     EvFetch "https://a.b/missing" 1; EvSleep 500;
     EvFetch "https://a.b/missing" 2].
Proof.
  apply (fetchWithRetry_retries_non_ok missing_net "https://a.b/missing").
  intros k _. exists (mkResponse 404%Z "Not Found" (Some "text/html")
                                 (inr "<h1>Not Found</h1>")).
  by vm_compute.
Defined.

(** The skip reason of a crawled page is never [http-<status>]. *)
Lemma crawlSinglePage_never_http_skip extractContent contentTransformer
    fetch st u lm code :
  skipReason (crawlSinglePage extractContent contentTransformer fetch st u lm)
  <> Some ("http-" +:+ code).
Proof.
  pose proof (crawlSinglePage_shape extractContent contentTransformer
                fetch st u lm) as [_ Hs Hk].
  destruct (success _).
  - destruct (Hs eq_refl) as (_ & _ & ->). done.
  - destruct (Hk eq_refl) as (_ & [-> | [-> | ->]]); simpl; done.
Qed.

(** ** URL normalizer *)

Lemma Map_get_filter_ne (k k' : string) (m : list (string * string)) :
  k' <> k ->
  Map_get k' (List.filter (fun nv => negb (String.eqb k (fst nv))) m)
  = Map_get k' m.
Proof.
  intros Hne. induction m as [|[n v] m IH]; simpl; [done|].
  destruct (String.eqb_spec k n) as [->|Hkn]; simpl.
  - destruct (String.eqb_spec k' n); [done | exact IH].
  - by rewrite IH.
Qed.

Lemma Map_get_URLSearchParams_set (k k' v : string) m :
  Map_get k' (URLSearchParams_set k v m)
  = if String.eqb k' k then Some v else Map_get k' m.
Proof.
  induction m as [|[n v0] m IH]; simpl; [done|].
  destruct (String.eqb_spec k n) as [->|Hkn]; simpl.
  - destruct (String.eqb_spec k' n) as [->|Hne]; [done|].
    by apply Map_get_filter_ne.
  - destruct (String.eqb_spec k' n) as [->|Hne].
    + destruct (String.eqb_spec n k); [congruence | done].
    + exact IH.
Qed.

Section NormalizerFacts.
Variable api : UrlApi.
Variable keepQueryParams : list string.

(** What the kept parameters hold for a name of the list. *)
Lemma keep_from_get get names kept p :
  Map_get p (keep_from get names kept)
  = if bool_decide (p ∈ names) then
      match get p with
      | Some v => Some v
      | None => Map_get p kept
      end
    else Map_get p kept.
Proof.
  revert kept. induction names as [|n names IH]; intros kept; simpl.
  - try (case_bool_decide as H; [by apply elem_of_nil in H|]); done.
  - change (keep_from get (n :: names) kept)
      with (keep_from get names
              match get n with
              | Some value => URLSearchParams_set n value kept
              | None => kept
              end).
    rewrite IH. destruct (decide (p = n)) as [->|Hne].
    + rewrite (bool_decide_eq_true_2 (n ∈ n :: names)) by apply list_elem_of_here.
      destruct (get n) as [v|] eqn:Hget.
      * rewrite Map_get_URLSearchParams_set, String.eqb_refl.
        by case_bool_decide.
      * by case_bool_decide.
    + assert (Map_get p match get n with
                        | Some value => URLSearchParams_set n value kept
                        | None => kept
                        end = Map_get p kept) as ->.
      { destruct (get n); [|done].
        rewrite Map_get_URLSearchParams_set.
        by destruct (String.eqb_spec p n). }
      case_bool_decide as H1; case_bool_decide as H2; try done.
      * exfalso. apply H2. by apply list_elem_of_further.
      * exfalso. apply H1. by apply elem_of_cons in H2 as [?|?].
Qed.

(** Reading the values from the kept parameters gives the kept
    parameters again. *)
Lemma keep_from_again get :
  keep_from (fun p => Map_get p (keep_from get keepQueryParams []))
            keepQueryParams []
  = keep_from get keepQueryParams [].
Proof.
  unfold keep_from at 1 3.
  assert (forall names kept,
            (forall p, p ∈ names -> p ∈ keepQueryParams) ->
            foldl (fun kept param =>
                     match Map_get param (keep_from get keepQueryParams []) with
                     | Some value => URLSearchParams_set param value kept
                     | None => kept
                     end) kept names
            = foldl (fun kept param =>
                       match get param with
                       | Some value => URLSearchParams_set param value kept
                       | None => kept
                       end) kept names) as H.
  { induction names as [|n names IH]; intros kept Hsub; simpl; [done|].
    rewrite keep_from_get.
    rewrite bool_decide_eq_true_2 by (apply Hsub, list_elem_of_here).
    simpl. destruct (get n).
    - apply IH. intros p Hp. by apply Hsub, list_elem_of_further.
    - apply IH. intros p Hp. by apply Hsub, list_elem_of_further. }
  by apply H.
Qed.

(** C9. [normalizeUrl] is idempotent at [u], for a URL library that parses
    the normalized URL it serialized back to the same URL object, and
    whose [URLSearchParams] reads back the kept parameters it
    serialized. *)
Theorem normalizeUrl_idempotent u :
  (forall urlObj, parseURL api u = Some urlObj ->
     parseURL api (href api (normalized api keepQueryParams urlObj))
     = Some (normalized api keepQueryParams urlObj)) ->
  (forall urlObj, parseURL api u = Some urlObj ->
     let kept := paramsToKeep api keepQueryParams (clear_hash api urlObj) in
     parseQuery api (serializeQuery api kept) = kept) ->
  normalizeUrl api keepQueryParams (normalizeUrl api keepQueryParams u)
  = normalizeUrl api keepQueryParams u.
Proof.
  intros Hreparse Hquery. unfold normalizeUrl at 2 3.
  destruct (parseURL api u) as [urlObj|] eqn:Hparse.
  2: { unfold normalizeUrl. by rewrite Hparse. }
  unfold normalizeUrl. rewrite (Hreparse _ eq_refl). f_equal.
  specialize (Hquery _ eq_refl). simpl in Hquery.
  unfold normalized.
  destruct (0 <? length keepQueryParams) eqn:Hkeep; [|done].
  set (kept := paramsToKeep api keepQueryParams (clear_hash api urlObj)) in *.
  set (s := serializeQuery api kept) in *.
  assert (paramsToKeep api keepQueryParams
            (clear_hash api (set_search api (clear_hash api urlObj) s))
          = kept) as ->; [|done].
  unfold paramsToKeep at 1, searchParams_get. simpl.
  assert (default EmptyString (if JS.truthy s then Some s else None) = s) as ->.
  { unfold JS.truthy. by destruct (String.eqb_spec s EmptyString) as [->|]. }
  rewrite Hquery. subst kept. unfold paramsToKeep.
  apply (keep_from_again (searchParams_get api (clear_hash api urlObj))).
Qed.

End NormalizerFacts.

Lemma normalizeUrl_idempotent_witness :
  normalizeUrl Toy.api ["r"; "zz"; "r"]
    (normalizeUrl Toy.api ["r"; "zz"; "r"] "https://a.b/x/y?q=1&r=2&r=3#top")
  = normalizeUrl Toy.api ["r"; "zz"; "r"] "https://a.b/x/y?q=1&r=2&r=3#top".
Proof.
  apply (normalizeUrl_idempotent Toy.api ["r"; "zz"; "r"]).
  - intros urlObj H. vm_compute in H. injection H as <-. by vm_compute.
  - intros urlObj H. vm_compute in H. injection H as <-. by vm_compute.
Defined.

(** ** Sitemap resolver *)

Lemma Map_set_elem {V} k (v : V) m kv :
  kv ∈ Map_set k v m -> kv = (k, v) \/ kv ∈ m.
Proof.
  induction m as [|[k' v'] m IH]; simpl.
  - intros ->%list_elem_of_singleton. by left.
  - destruct (String.eqb k k').
    + intros [->|H]%elem_of_cons; [by left|]. right. by apply list_elem_of_further.
    + intros [->|H]%elem_of_cons; [right; apply list_elem_of_here|].
      destruct (IH H) as [->|?]; [by left|]. right. by apply list_elem_of_further.
Qed.

Lemma Map_set_keys {V} k (v : V) m x :
  x ∈ map fst (Map_set k v m) <-> x = k \/ x ∈ map fst m.
Proof.
  induction m as [|[k' v'] m IH]; simpl.
  - rewrite list_elem_of_singleton. split; [by left|].
    by intros [?|?%elem_of_nil].
  - destruct (String.eqb_spec k k') as [->|Hne]; simpl.
    + rewrite !elem_of_cons. tauto.
    + rewrite !elem_of_cons, IH. tauto.
Qed.

Lemma Map_set_NoDup {V} k (v : V) m :
  NoDup (map fst m) -> NoDup (map fst (Map_set k v m)).
Proof.
  induction m as [|[k' v'] m IH]; simpl.
  - intros _. apply NoDup_singleton.
  - intros [Hnotin Hnd]%NoDup_cons.
    destruct (String.eqb_spec k k') as [->|Hne]; simpl.
    + by apply NoDup_cons.
    + apply NoDup_cons. split; [|by apply IH].
      rewrite Map_set_keys. intros [?|?]; congruence.
Qed.

(** What the [allUrls] map holds after the entries of the children were
    set into it, starting from the empty map: one entry per location, the
    locations are those of the entries, and every value is one of the
    entries, filed under its own location. *)
Lemma merge_entries_spec entries :
  let m := merge_entries [] entries in
  NoDup (map fst m) /\
  (forall l, l ∈ map fst m <-> l ∈ map loc entries) /\
  (forall k e, (k, e) ∈ m -> k = loc e /\ e ∈ entries).
Proof.
  assert (forall m0,
            NoDup (map fst m0) ->
            let m := merge_entries m0 entries in
            NoDup (map fst m) /\
            (forall l, l ∈ map fst m <-> l ∈ map fst m0 \/ l ∈ map loc entries) /\
            (forall k e, (k, e) ∈ m -> (k, e) ∈ m0 \/ (k = loc e /\ e ∈ entries)))
    as H.
  { induction entries as [|x xs IH]; intros m0 Hnd; simpl.
    - split; [done|]. split; [|by left].
      intros l. split; [by left | by intros [?|?%elem_of_nil]].
    - destruct (IH (Map_set (loc x) x m0) (Map_set_NoDup _ _ _ Hnd))
        as (Hnd' & Hkeys & Hvals).
      split; [done|]. split.
      + intros l. rewrite Hkeys, Map_set_keys, elem_of_cons. tauto.
      + intros k e Hin. destruct (Hvals k e Hin) as [Hset|[-> He]].
        * destruct (Map_set_elem _ _ _ _ Hset) as [[= -> ->]|?]; [|by left].
          right. split; [done | apply list_elem_of_here].
        * right. split; [done | by apply list_elem_of_further]. }
  destruct (H [] (NoDup_nil_2)) as (Hnd & Hkeys & Hvals).
  split; [done|]. split.
  - intros l. rewrite Hkeys. simpl. split; [by intros [?%elem_of_nil|?] | by right].
  - intros k e Hin. by destruct (Hvals k e Hin) as [?%elem_of_nil|?].
Qed.

Lemma merge_entries_app m a b :
  merge_entries m (a ++ b) = merge_entries (merge_entries m a) b.
Proof. unfold merge_entries. by rewrite foldl_app. Qed.

Section SitemapFacts.
Variable fetch : Network.
Variable hostname : string -> option string.
Variable siteUrl sitemapUrl : string.

Local Abbreviation serves := (Terms.serves fetch).
Local Abbreviation page_on_site := (Terms.page_on_site hostname).

(** A document with a location ending in [.xml] is a sitemap index: its
    children are the locations ending in [.xml], and it has no URLs. *)
Lemma parseSitemap_index sitemap entries :
  serves sitemap entries ->
  existsb is_xml entries = true ->
  parseSitemap fetch hostname siteUrl sitemap
  = inr {| sr_urls := []; isIndex := true;
           childSitemaps := Some (map loc (List.filter is_xml entries)) |}.
Proof.
  intros (response & xml & Hfetch & Htext & <-) Hxml.
  unfold parseSitemap, parseSitemap_try. rewrite Hfetch, Htext.
  fold is_xml. by rewrite Hxml.
Qed.

Lemma parseSitemap_leaf sitemap entries siteHost :
  hostname siteUrl = Some siteHost ->
  serves sitemap entries ->
  Forall (page_on_site siteHost) entries ->
  parseSitemap fetch hostname siteUrl sitemap
  = inr {| sr_urls := entries; isIndex := false; childSitemaps := None |}.
Proof.
  intros Hsite (response & xml & Hfetch & Htext & <-) Hall.
  unfold parseSitemap, parseSitemap_try. rewrite Hfetch, Htext.
  fold is_xml.
  assert (existsb is_xml (extractUrlsFromXml xml) = false) as ->.
  { induction Hall as [|e es [He _] _ IH]; [done|]. simpl. by rewrite He, IH. }
  rewrite Hsite. do 2 f_equal.
  induction Hall as [|e es [_ He] _ IH]; [done|].
  simpl. rewrite He, String.eqb_refl. by rewrite IH.
Qed.

Lemma merge_children children childEntries siteHost m :
  hostname siteUrl = Some siteHost ->
  Forall2 (fun child entries =>
             serves child entries /\ Forall (page_on_site siteHost) entries)
          children childEntries ->
  foldl (merge_child fetch hostname siteUrl) m children
  = merge_entries m (concat childEntries).
Proof.
  intros Hsite H. revert m.
  induction H as [|c es cs ess [Hc Hes] _ IH]; intros m; [done|].
  simpl. rewrite merge_entries_app, <- IH. f_equal.
  unfold merge_child. by rewrite (parseSitemap_leaf _ _ _ Hsite Hc Hes).
Qed.

(** C7 (as amended). A fetched sitemap with a location ending in [.xml]
    is parsed as an index: [isIndex] is true, the children are the
    locations ending in [.xml], and there are no page URLs.  When each
    child can be fetched and lists only locations on the site's host that
    do not end in [.xml], resolving the index gives one entry per location,
    and the locations are exactly those of the children taken together. *)
Theorem sitemap_index_is_union_of_children rootEntries childEntries siteHost :
  hostname siteUrl = Some siteHost ->
  serves sitemapUrl rootEntries ->
  existsb is_xml rootEntries = true ->
  Forall2 (fun child entries =>
             serves child entries /\ Forall (page_on_site siteHost) entries)
          (map loc (List.filter is_xml rootEntries)) childEntries ->
  parseSitemap fetch hostname siteUrl sitemapUrl
  = inr {| sr_urls := []; isIndex := true;
           childSitemaps := Some (map loc (List.filter is_xml rootEntries)) |}
  /\ exists urls,
       extractUrls fetch hostname siteUrl sitemapUrl = inr urls /\
       NoDup (map loc urls) /\
       (forall l, l ∈ map loc urls <-> l ∈ map loc (concat childEntries)) /\
       (forall e, e ∈ urls -> e ∈ concat childEntries).
Proof.
  intros Hsite Hroot Hxml Hchildren.
  pose proof (parseSitemap_index _ _ Hroot Hxml) as Hindex.
  split; [done|].
  unfold extractUrls. rewrite Hindex. simpl.
  rewrite (merge_children _ _ _ _ Hsite Hchildren).
  destruct (merge_entries_spec (concat childEntries)) as (Hnd & Hkeys & Hvals).
  set (m := merge_entries [] (concat childEntries)) in *.
  assert (map loc (Map_values m) = map fst m) as Hlocs.
  { unfold Map_values. rewrite map_map. apply map_ext_in.
    intros [k e] Hin%list_elem_of_In. simpl. by destruct (Hvals k e Hin) as [-> _]. }
  eexists. split; [done|]. rewrite Hlocs. split; [done|]. split; [done|].
  intros e Hin. unfold Map_values in Hin.
  apply list_elem_of_In, in_map_iff in Hin. destruct Hin as ([k e'] & <- & Hin).
  apply list_elem_of_In in Hin. by destruct (Hvals k e' Hin).
Qed.

End SitemapFacts.

Lemma sitemap_index_is_union_of_children_witness :
  exists urls,
    extractUrls (index_net "https://a.b/1" "https://a.b/2")
      (hostname Toy.api) "https://a.b" "https://a.b/sitemap.xml" = inr urls /\
    NoDup (map loc urls) /\
    (forall l, l ∈ map loc urls <-> l ∈ ["https://a.b/1"; "https://a.b/2"]).
Proof.
  destruct (sitemap_index_is_union_of_children
              (index_net "https://a.b/1" "https://a.b/2")
              (hostname Toy.api) "https://a.b" "https://a.b/sitemap.xml"
              [entry "https://a.b/s1.xml"; entry "https://a.b/s2.xml"]
              [[entry "https://a.b/1"]; [entry "https://a.b/2"]] "a.b")
    as (_ & urls & Hurls & Hnd & Hlocs & _).
  - reflexivity.
  - eexists _, _. by vm_compute.
  - reflexivity.
  - repeat constructor; try (eexists _, _; by vm_compute).
  - exists urls. split; [done|]. split; [done|]. exact Hlocs.
Defined.

(** C7, counterexample: the second child lists a location on another
    host; it is filtered out, and the resolved set is not the union of
    the children's locations. *)
Lemma sitemap_union_misses_other_host :
  extractUrlsFromXml (urlset "https://a.b/1") = [entry "https://a.b/1"] /\
  extractUrlsFromXml (urlset "https://cdn.other/2")
  = [entry "https://cdn.other/2"] /\
  extractUrls (index_net "https://a.b/1" "https://cdn.other/2")
    (hostname Toy.api) "https://a.b" "https://a.b/sitemap.xml"
  = inr [entry "https://a.b/1"].
Proof. by vm_compute. Qed.

(** A child that lists a page whose location ends in [.xml] is itself
    read as an index, and contributes no URL. *)
Lemma sitemap_child_with_xml_page :
  extractUrlsFromXml (urlset "https://a.b/feed.xml")
  = [entry "https://a.b/feed.xml"] /\
  extractUrls (index_net "https://a.b/1" "https://a.b/feed.xml")
    (hostname Toy.api) "https://a.b" "https://a.b/sitemap.xml"
  = inr [entry "https://a.b/1"].
Proof. by vm_compute. Qed.

(** ** Content extractor: the fallback chain *)

Section ExtractorFacts.
Variable dom : DomApi.

Local Abbreviation rejected_all := (Terms.rejected_all dom).
Local Abbreviation placeholder := (Terms.placeholder dom).

(** The loop returns the result of the first method that is accepted, the
    methods before it having been rejected; or, all rejected, the
    placeholder. *)
Lemma fallbackLoop_spec methods document u :
  let run := fallbackLoop dom methods document u in
  (exists before method after d,
     methods = before ++ method :: after /\
     rejected_all u before document d /\
     method d u = (fst run, inr (snd run)) /\
     accepted (snd run) = true) \/
  (rejected_all u methods document (fst run) /\
   snd run = placeholder (fst run) u).
Proof.
  revert document. induction methods as [|method rest IH]; intros document.
  - right. split; [constructor | done].
  - simpl. destruct (method document u) as [document' [e|result]] eqn:Hm.
    + destruct (IH document') as
        [(before & m & after & d & -> & Hrej & Hrun & Hacc) | [Hrej Hph]].
      * left. exists (method :: before), m, after, d.
        repeat split; try done. by eapply rejected_throw.
      * right. split; [by eapply rejected_throw | done].
    + destruct (accepted result) eqn:Hacc.
      * left. exists [], method, rest, document. simpl.
        repeat split; try done. constructor.
      * destruct (IH document') as
          [(before & m & after & d & -> & Hrej & Hrun & Hacc') | [Hrej Hph]].
        -- left. exists (method :: before), m, after, d.
           repeat split; try done. by eapply rejected_short.
        -- right. split; [by eapply rejected_short | done].
Qed.

(** C8 (as amended). The chain runs readability, the semantic selectors,
    the content-class selectors, the metadata and the raw text in this
    order, returns the result of the first method whose trimmed content is
    longer than fifty characters, and, when every method throws or falls
    short, the fixed placeholder under the document's title, or under the
    page URL when the document's title is empty.  It is a total function:
    a method's throw is caught. *)
Theorem fallback_chain_order document u :
  extractionMethods dom
  = [extractWithReadability dom; extractWithSemanticSelectors dom;
     extractWithContentSelectors dom; extractWithMetadata dom;
     extractRawText dom] /\
  (forall r, accepted r = true <->
             50 < String.length (JS.trim (tc_content r))) /\
  let run := extractContentWithFallbacks dom document u in
  (exists before method after d,
     extractionMethods dom = before ++ method :: after /\
     rejected_all u before document d /\
     method d u = (fst run, inr (snd run)) /\
     accepted (snd run) = true) \/
  (rejected_all u (extractionMethods dom) document (fst run) /\
   tc_content (snd run) = "No content could be extracted from this page." /\
   tc_title (snd run)
   = if JS.truthy (doc_title dom (fst run)) then doc_title dom (fst run)
     else u).
Proof.
  split; [done|]. split.
  - intros r. unfold accepted, JS.truthy.
    rewrite andb_true_iff, Nat.ltb_lt. split; [tauto|].
    intros H. split; [|done].
    destruct (tc_content r); [|done]. simpl in H. lia.
  - destruct (fallbackLoop_spec (extractionMethods dom) document u)
      as [H | [Hrej Hph]]; [by left|].
    right. split; [done|]. unfold extractContentWithFallbacks.
    by rewrite Hph.
Qed.

(** When readability finds nothing and a semantic selector yields an
    accepted result, that result is returned, whatever the content-class
    selectors would match. *)
Lemma semantic_selector_wins document document' u r :
  readability_parse dom document = (document', inr None) ->
  first_selector dom semanticSelectors document' u = Some r ->
  accepted r = true ->
  extractContentWithFallbacks dom document u = (document', r).
Proof.
  intros Hread Hsel Hacc.
  unfold extractContentWithFallbacks, extractionMethods.
  cbn [fallbackLoop]. unfold extractWithReadability at 1. rewrite Hread.
  unfold extractWithSemanticSelectors at 1. by rewrite Hsel, Hacc.
Qed.

End ExtractorFacts.

(** C8, counterexample: a document without a title and with too little
    text.  Every method is rejected, and the placeholder is returned
    under the page URL, not under the document's (empty) title. *)
Lemma placeholder_title_is_url :
  doc_title Toy.dom "short" = EmptyString /\
  extractContentWithFallbacks Toy.dom "short" "https://a.b/p"
  = ("short",
     {| tc_title := "https://a.b/p";
        tc_content := "No content could be extracted from this page." |}).
Proof. by vm_compute. Qed.

Lemma semantic_selector_wins_witness :
  extractContentWithFallbacks selector_dom two_matches "https://a.b/p"
  = (two_matches,
     {| tc_title := "Title"; tc_content := sixty_chars "A" |}).
Proof.
  apply (semantic_selector_wins selector_dom); by vm_compute.
Defined.


(** ** The fetcher: the attempt that succeeds ends the call *)

Lemma fetchLoop_first_ok fetch u retries r fuel : forall a k,
  a + fuel = retries -> k < fuel ->
  (forall j, a <= j < a + k -> exists e, fetchAttempt fetch u j = inl e) ->
  fetchAttempt fetch u (a + k) = inr r ->
  fetchLoop fetch u retries a fuel = (retry_trace u a k, inr r).
Proof.
  induction fuel as [|fuel IH]; intros a k Hsum Hk Hfail Hok; [lia|].
  destruct k as [|k].
  - rewrite Nat.add_0_r in Hok. simpl. rewrite Hok.
    unfold retry_trace. simpl. repeat f_equal. lia.
  - destruct (Hfail a ltac:(lia)) as [e He]. simpl. rewrite He.
    destruct (Nat.eqb_spec a (retries - 1)) as [Heq|_]; [lia|].
    rewrite (IH (S a) k); try lia.
    + unfold retry_trace. simpl. repeat f_equal; lia.
    + intros j Hj. apply Hfail. lia.
    + by rewrite Nat.add_succ_r in Hok.
Qed.

(** When the attempt [k] (of the three) is the first that the network
    answers with a 2xx response, [fetchWithRetry] returns that response
    after exactly [k + 1] requests, having paused 250 ms times the attempt
    number after each failed one; it sends no request after it. *)
Theorem fetchWithRetry_first_ok (fetch : Network) u k r :
  k < 3 ->
  (forall j, j < k ->
     match fetch u j with
     | Resolved r' => ok r' = false
     | Rejected _ => True
     end) ->
  fetch u k = Resolved r -> ok r = true ->
  fetchWithRetry fetch u = (retry_trace u 0 k, inr r).
Proof.
  intros Hk Hfail Hres Hok. unfold fetchWithRetry, fetchWithRetry_n.
  apply fetchLoop_first_ok; [lia | lia | |].
  - intros j Hj. specialize (Hfail j ltac:(lia)). unfold fetchAttempt.
    destruct (fetch u j) as [e|r']; [by eexists|].
    rewrite Hfail. by eexists.
  - unfold fetchAttempt. simpl. by rewrite Hres, Hok.
Qed.

Lemma fetchWithRetry_first_ok_witness :
  fetchWithRetry flaky_net "https://a.b/p"
  = ([EvFetch "https://a.b/p" 0; EvSleep 250; EvFetch "https://a.b/p" 1;
      EvSleep 500; EvFetch "https://a.b/p" 2],
     inr (mkResponse 200%Z "OK" (Some "text/html") (inr "x"))).
Proof.
  apply (fetchWithRetry_first_ok flaky_net "https://a.b/p" 2); [lia | | done..].
  intros j Hj. destruct j as [|[|j]]; [done | done | lia].
Defined.

(** ** A worker pool of size zero *)





(** ** The content transformer runs twice *)

Section TransformerFacts.
Variable dom : DomApi.
Variable clean : string -> string.
Variable contentTransformer : string -> string -> Thrown + string.
Variable stripSelectors : list string.
Variable useReadability multi cleaning : bool.

Local Abbreviation extract :=
  (extractContent dom clean contentTransformer stripSelectors
     useReadability multi cleaning).

Lemma extractContent_transformed u html ex :
  extract u html = inr ex ->
  exists c, contentTransformer c u = inr (ex_content ex).
Proof.
  unfold extractContent. intros H.
  destruct (parseHTML dom u html) as [|document]; [done|].
  destruct (strip_all dom _ document) as [|document']; [done|].
  destruct (if multi then _ else _) as [|tc]; [done|].
  match type of H with
  | match contentTransformer ?c u with _ => _ end = _ =>
      exists c; destruct (contentTransformer c u) as [|c']; [done|]
  end.
  by injection H as <-.
Qed.

(** A skipped page is no success. *)
Local Ltac not_a_success :=
  by rewrite (proj1 (proj2 (proj2 (skipped_fields _ _ _ _ _ _ _)))).

(** [extractContent] passes the extracted text through
    [options.contentTransformer], and [crawlSinglePage] passes what it gets
    back through the transformer once more: the content of every page
    crawled with success is the transformer applied twice. *)
Theorem contentTransformer_applied_twice (fetch : Network) st u lm :
  let p := crawlSinglePage extract contentTransformer fetch st u lm in
  success p = true ->
  exists c c', contentTransformer c u = inr c' /\
               contentTransformer c' u = inr (content p).
Proof.
  intros p. subst p. unfold crawlSinglePage, crawlSinglePage_try.
  destruct (snd (fetchWithRetry fetch u)) as [e|response]; [not_a_success|].
  destruct (negb (ok response)); [not_a_success|].
  destruct (negb (JS.includes _ _)); [not_a_success|].
  destruct (text response) as [e|html]; [not_a_success|].
  destruct (_ <? _)%Z; [not_a_success|].
  destruct (extract u html) as [e|ex] eqn:Hex; [not_a_success|].
  destruct (contentTransformer (ex_content ex) u) as [e|c2] eqn:Hc2;
    [not_a_success|].
  intros _. destruct (extractContent_transformed u html ex Hex) as [c Hc].
  exists c, (ex_content ex). split; [done|].
  rewrite (proj1 (proj2 (set_language_fields _ _))).
  rewrite (proj1 (proj2 (set_lastmod_fields _ _))). done.
Qed.

End TransformerFacts.

Lemma contentTransformer_applied_twice_witness :
  exists c c', add_bang c "https://a.b/p" = inr c' /\
               add_bang c' "https://a.b/p" = inr "hello!!".
Proof.
  apply (contentTransformer_applied_twice Toy.dom (fun s => s) add_bang
           [] false false false hello_net 0 "https://a.b/p" None).
  reflexivity.
Defined.

(** ** What [filterUrls] lets through *)




(** ** What recursive discovery returns *)

Lemma Map_set_values {V} (Q : V -> Prop) k (v : V) m :
  Q v -> Forall Q (Map_values m) -> Forall Q (Map_values (Map_set k v m)).
Proof.
  intros Hv Hm. apply Forall_forall. intros x Hx.
  apply list_elem_of_fmap in Hx as ([k' v'] & -> & Hx).
  apply Map_set_elem in Hx as [[= -> ->]|Hx]; [done|].
  rewrite Forall_forall in Hm. apply Hm.
  apply list_elem_of_fmap. by exists (k', v').
Qed.

Section DiscoveredFacts.
Variable api : UrlApi.
Variable fetch : Network.
Variable anchorHrefs : string -> string -> Thrown + list string.
Variable resolveUrl : string -> string -> option string.
Variable siteUrl : string.
Variable keepQueryParams : list string.
Variable maxRecursiveDepth maxLinksPerPage concurrency : Z.

Local Abbreviation link_at := (from_link api siteUrl).
Local Abbreviation well_found :=
  (well_discovered api siteUrl maxRecursiveDepth).

Lemma extractLinksFromPage_links u n :
  Forall (link_at n)
         (extractLinksFromPage api fetch anchorHrefs resolveUrl siteUrl
            keepQueryParams maxLinksPerPage u n).
Proof.
  unfold extractLinksFromPage.
  destruct (snd (fetchWithRetry fetch u)) as [|response]; [done|].
  destruct (text response) as [|html]; [done|].
  destruct (anchorHrefs u html) as [|hrefs]; [done|].
  apply Forall_forall. intros d Hd.
  apply list_elem_of_fmap in Hd as (link & -> & Hlink).
  eapply elem_of_submseteq in Hlink; [|apply slice0_submseteq].
  apply list_elem_of_omap in Hlink as (h & _ & Hh).
  destruct (resolveUrl h u) as [absoluteUrl|]; [|done].
  destruct (isInternalUrl api siteUrl _) eqn:Hint; [|done].
  destruct (String.eqb_spec (normalizeUrl api keepQueryParams absoluteUrl) u)
    as [|Hne]; [done|].
  simpl in Hh. injection Hh as <-.
  repeat split; [done|]. by exists u.
Qed.

Lemma extractLinksLoop_links w queue n :
  Forall (link_at n)
         (extractLinksLoop api fetch anchorHrefs resolveUrl siteUrl
            keepQueryParams maxLinksPerPage w queue n).
Proof.
  revert w. induction queue as [|u queue IH]; intros w.
  { by destruct w. }
  destruct w as [|w]; [done|]. simpl.
  destruct (JS.truthy u); [|apply IH].
  apply Forall_app. split; [apply extractLinksFromPage_links | apply IH].
Qed.

Lemma foldl_add_new_values (Q : DiscoveredUrl -> Prop) newUrls st :
  Forall Q newUrls -> Forall Q (Map_values (fst st)) ->
  Forall Q (Map_values
              (fst (foldl (add_new api siteUrl keepQueryParams) st newUrls))).
Proof.
  revert st. induction newUrls as [|d ds IH]; intros st Hnew Hst; [done|].
  apply Forall_cons in Hnew as [Hd Hds]. simpl. apply IH; [done|].
  unfold add_new. destruct (_ && _); [|done]. simpl.
  by apply Map_set_values.
Qed.

Lemma discoverLoop_values fuel : forall n st,
  (Z.of_nat (n + fuel) <= Z.max 0 maxRecursiveDepth)%Z ->
  Forall well_found (Map_values (fst st)) ->
  Forall well_found
    (Map_values
       (fst (discoverLoop api fetch anchorHrefs resolveUrl siteUrl
               keepQueryParams maxLinksPerPage concurrency fuel n st))).
Proof.
  induction fuel as [|fuel IH]; intros n st Hdepth Hst; [done|].
  simpl. destruct (length _ =? 0); [done|].
  apply IH; [lia|].
  apply foldl_add_new_values; [|done].
  eapply Forall_impl; [apply extractLinksLoop_links|].
  intros d Hd. right. exists (n + 1). split; [lia|]. split; [lia|]. done.
Qed.

Lemma foldl_add_initial_values initialUrls st :
  Forall well_found (Map_values (fst st)) ->
  Forall well_found
    (Map_values (fst (foldl (add_initial api keepQueryParams) st
                        initialUrls))).
Proof.
  revert st. induction initialUrls as [|u us IH]; intros st Hst; [done|].
  simpl. apply IH. unfold add_initial. simpl.
  apply Map_set_values; [|done]. by left.
Qed.

(** Every entry that [discoverUrlsRecursively] returns either comes
    from the sitemap, at depth 0 and without a parent, or is a link found
    on a fetched page: then its URL has the host of the site, differs from
    the URL of the page it was found on, and its depth is at least 1 and at
    most [maxRecursiveDepth]. *)
Theorem discovered_urls_are_internal recursive initialUrls d :
  d ∈ discoverUrlsRecursively api fetch anchorHrefs resolveUrl siteUrl
        keepQueryParams recursive maxRecursiveDepth maxLinksPerPage
        concurrency initialUrls ->
  well_found d.
Proof.
  unfold discoverUrlsRecursively. destruct recursive; simpl.
  - revert d. apply Forall_forall. apply discoverLoop_values; [lia|].
    by apply foldl_add_initial_values.
  - intros Hd. apply list_elem_of_fmap in Hd as (u & -> & _). by left.
Qed.

End DiscoveredFacts.

Lemma discovered_urls_are_internal_witness :
  well_discovered Toy.api "https://a.b" 1 found_x.
Proof.
  apply (discovered_urls_are_internal Toy.api linked_site
           (p_anchorHrefs Toy.platform) (p_resolveUrl Toy.platform)
           "https://a.b" [] 1 50 1 true [entry "https://a.b/p"] found_x).
  vm_compute. apply list_elem_of_further, list_elem_of_here.
Defined.

(** ** How far the character budget can be exceeded *)

Lemma String_length_app (s t : string) :
  String.length (s +:+ t) = String.length s + String.length t.
Proof. induction s as [|c s IH]; simpl; [done | by rewrite IH]. Qed.

Lemma String_length_substring0 n (s : string) :
  String.length (String.substring 0 n s) <= n.
Proof.
  revert s. induction n as [|n IH]; intros [|c s]; simpl; try lia.
  specialize (IH s). lia.
Qed.

Lemma process_page_length maxCharsPerPage p :
  (0 <= maxCharsPerPage)%Z ->
  (Z.of_nat (String.length (content (process_page maxCharsPerPage p)))
   <= maxCharsPerPage
      + Z.of_nat (String.length (truncation_marker maxCharsPerPage)))%Z.
Proof.
  intros Hlimit. unfold process_page, over_page_limit.
  destruct (Z.ltb_spec maxCharsPerPage
              (Z.of_nat (String.length (content p)))) as [Hover|Hfits];
    [|lia].
  unfold truncate_page. cbn [content]. rewrite String_length_app.
  unfold JS.substring0.
  pose proof (String_length_substring0 (Z.to_nat maxCharsPerPage)
                (content p)).
  lia.
Qed.

(** With a per-page limit that is not negative, no page leaves
    [applyCharacterLimits] longer than the limit plus the truncation
    marker, and the pages it returns together stay below the total budget
    plus one such page: the budget is checked before a page is added, so
    only the last page can cross it. *)
Theorem applyCharacterLimits_overshoot maxCharsPerPage maxTotalChars
    pages st out st' :
  (0 <= maxCharsPerPage)%Z ->
  applyCharacterLimits maxCharsPerPage maxTotalChars pages st = (out, st') ->
  let page_bound :=
    (maxCharsPerPage
     + Z.of_nat (String.length (truncation_marker maxCharsPerPage)))%Z in
  Forall (fun p => Z.of_nat (String.length (content p)) <= page_bound)%Z out
  /\ (out <> [] ->
      (Z.of_nat (total_chars out) < maxTotalChars + page_bound)%Z).
Proof.
  intros Hlimit Hrun page_bound. unfold applyCharacterLimits in Hrun.
  destruct (limitsLoop_prefix maxCharsPerPage maxTotalChars pages 0 st)
    as (k & _ & Hout).
  rewrite Hrun in Hout. simpl in Hout.
  assert (Hall : Forall (fun p => Z.of_nat (String.length (content p))
                                  <= page_bound)%Z out).
  { rewrite Hout. apply Forall_forall. intros p Hp.
    apply list_elem_of_fmap in Hp as (q & -> & _).
    by apply process_page_length. }
  split; [done|]. intros Hne.
  destruct (exists_last Hne) as (init & last & Hlast).
  pose proof (limitsLoop_below maxCharsPerPage maxTotalChars pages 0 st
                init last) as Hbelow.
  rewrite Hrun in Hbelow. specialize (Hbelow Hlast).
  rewrite Hlast, total_chars_app. rewrite Hlast in Hall.
  apply Forall_app in Hall as [_ Hl]. rewrite Forall_singleton in Hl.
  cbn [total_chars foldr]. lia.
Qed.

Lemma applyCharacterLimits_overshoot_witness :
  let out := fst (applyCharacterLimits 100 10 three_pages
                    (createInitialStats 0)) in
  out <> [] /\ (Z.of_nat (total_chars out) < 10 + (100 + 25))%Z.
Proof.
  intros out.
  destruct (applyCharacterLimits_overshoot 100 10 three_pages
              (createInitialStats 0) out
              (snd (applyCharacterLimits 100 10 three_pages
                      (createInitialStats 0))))
    as [_ Htotal]; [lia | reflexivity |].
  assert (Hne : out <> []) by done.
  split; [done|]. apply (Htotal Hne).
Defined.

(** ** The title of an extracted page *)

Lemma or_else_nonempty (a b : string) :
  b <> EmptyString -> JS.or_else a b <> EmptyString.
Proof.
  intros Hb. unfold JS.or_else, JS.truthy.
  by destruct (String.eqb_spec a "").
Qed.

Section TitleFacts.
Variable dom : DomApi.
Variable u : string.
Hypothesis u_nonempty : u <> EmptyString.

Lemma title_or_url_nonempty document :
  title_or_url dom document u <> EmptyString.
Proof. by apply or_else_nonempty. Qed.

Lemma first_selector_title selectors document r :
  first_selector dom selectors document u = Some r ->
  tc_title r <> EmptyString.
Proof.
  induction selectors as [|selector rest IH]; [done|]. simpl.
  destruct (select_innerHTML dom selector document); [|done].
  destruct (_ <? _); [|done].
  intros [= <-]. apply title_or_url_nonempty.
Qed.

Lemma methods_title :
  Forall (fun method : Method dom =>
            forall document document' r,
              method document u = (document', inr r) ->
              tc_title r <> EmptyString)
         (extractionMethods dom).
Proof.
  unfold extractionMethods.
  repeat apply Forall_cons_2; [..|by apply Forall_nil_2];
    intros document document' r.
  - unfold extractWithReadability.
    destruct (readability_parse dom document) as [d' [e|[article|]]];
      [done | | done].
    intros [= _ <-]. apply or_else_nonempty, title_or_url_nonempty.
  - unfold extractWithSemanticSelectors.
    destruct (first_selector _ _ _ _) as [r'|] eqn:Hsel; [|done].
    intros [= _ <-]. by eapply first_selector_title.
  - unfold extractWithContentSelectors.
    destruct (first_selector _ _ _ _) as [r'|] eqn:Hsel; [|done].
    intros [= _ <-]. by eapply first_selector_title.
  - unfold extractWithMetadata.
    match goal with |- context [if ?b then _ else _] => destruct b end;
      [done|].
    intros [= _ <-]. apply title_or_url_nonempty.
  - unfold extractRawText.
    destruct (removeAll dom _ document) as [|d']; [done|].
    destruct (_ <? _); [done|].
    intros [= _ <-]. apply title_or_url_nonempty.
Qed.

Lemma fallbackLoop_title methods document :
  Forall (fun method : Method dom =>
            forall document document' r,
              method document u = (document', inr r) ->
              tc_title r <> EmptyString) methods ->
  tc_title (snd (fallbackLoop dom methods document u)) <> EmptyString.
Proof.
  revert document. induction methods as [|method rest IH];
    intros document Hall.
  { apply title_or_url_nonempty. }
  apply Forall_cons in Hall as [Hmethod Hrest].
  simpl. destruct (method document u) as [d' [e|r]] eqn:Hm; [by apply IH|].
  destruct (accepted r); [|by apply IH].
  by eapply Hmethod.
Qed.

End TitleFacts.

(** The title of an extracted page is never empty when its URL is
    not: whichever extraction method produces the result, the title falls
    back on the document's title and then on the URL. *)
Theorem extracted_title_nonempty dom clean contentTransformer
    stripSelectors useReadability multi cleaning u html ex :
  u <> EmptyString ->
  extractContent dom clean contentTransformer stripSelectors
                 useReadability multi cleaning u html = inr ex ->
  ex_title ex <> EmptyString.
Proof.
  intros Hu. unfold extractContent.
  destruct (parseHTML dom u html) as [|document]; [done|].
  destruct (strip_all dom _ document) as [|document']; [done|].
  destruct multi.
  - destruct (contentTransformer _ u); [done|]. intros [= <-]. simpl.
    by apply fallbackLoop_title, methods_title.
  - unfold extractSingle. destruct useReadability.
    + destruct (readability_parse dom document') as [d [e|article]];
        [done|].
      destruct (contentTransformer _ u); [done|]. intros [= <-]. simpl.
      by apply or_else_nonempty, title_or_url_nonempty.
    + destruct (contentTransformer _ u); [done|]. intros [= <-]. simpl.
      by apply title_or_url_nonempty.
Qed.

Lemma extracted_title_nonempty_witness :
  ex_title {| ex_title := "https://a.b/p"; ex_content := "hello";
              ex_language := None |} <> EmptyString.
Proof.
  apply (extracted_title_nonempty Toy.dom (fun s => s) no_transform [] false
           false false "https://a.b/p" "hello"); [done | reflexivity].
Defined.

(** ** A child sitemap that lists an XML file *)



(** ** What the content filter lets through *)

Section FilterPassFacts.
Variable Array_sort : forall A : Type, (A -> A -> Z) -> list A -> list A.
Variable regexMatchCount : string -> string -> Thrown + nat.
Variable config : ContentFilterConfig.
Hypothesis sort_ok : sort_permutes Array_sort.




End FilterPassFacts.


Section DefaultFilterFacts.
Variable Array_sort : forall A : Type, (A -> A -> Z) -> list A -> list A.
Variable regexMatchCount : string -> string -> Thrown + nat.
Hypothesis sort_ok : sort_permutes Array_sort.


(** A content filter configured with an empty list of categories
    throws at the first page it categorizes, and [applyContentFiltering]
    then returns the results as they were: such a filter filters
    nothing. *)
Theorem filter_without_categories config pages :
  categories config = [] ->
  applyContentFiltering Array_sort regexMatchCount (Some config) pages
  = pages.
Proof.
  intros Hnone. unfold applyContentFiltering, cf_filter.
  destruct pages as [|p pages].
  - simpl. assert (Hsort : forall (A : Type) (cmp : A -> A -> Z),
                     Array_sort A cmp [] = []).
    { intros A cmp. apply Permutation_nil_r. by rewrite (sort_ok A cmp []). }
    rewrite Hsort. unfold applyCategoryLimits, groupByCategory. simpl.
    done.
  - simpl. unfold categorize, findBestCategory, find_category.
    by rewrite Hnone.
Qed.

End DefaultFilterFacts.


Lemma filter_without_categories_witness :
  applyContentFiltering Toy.Array_sort no_match (Some no_categories)
                        [pdf_page; docs_page]
  = [pdf_page; docs_page].
Proof.
  apply (filter_without_categories Toy.Array_sort no_match
           Toy_sort_permutes no_categories).
  reflexivity.
Defined.

(** ** How a category is chosen, and how many pages each may keep *)

Section CategoryFacts.
Variable Array_sort : forall A : Type, (A -> A -> Z) -> list A -> list A.
Variable regexMatchCount : string -> string -> Thrown + nat.
Variable config : ContentFilterConfig.

(** [findBestCategory] never moves a page into a disabled category:
    the category it returns is the one it starts from (the default
    category, or the first when the default's id is unknown), or else an
    enabled category in which the page has a positive score.  Disabling a
    category therefore re-files its pages, it does not exclude them. *)
Theorem findBestCategory_choice p c :
  findBestCategory regexMatchCount config p = inr c ->
  starting_category config = Some c \/
  (c ∈ categories config /\ enabled c = true /\
   exists score,
     calculateCategoryScore regexMatchCount p c = inr score /\ 0 < score).
Proof.
  unfold findBestCategory. fold (starting_category config).
  destruct (starting_category config) as [start|]; [|done].
  set (step := fun acc c => match acc with inl e => inl e | inr _ => _ end).
  set (good := fun acc : Thrown + ContentCategory * nat =>
                 match acc with
                 | inl _ => True
                 | inr (best, bestScore) =>
                     Some start = Some best \/
                     (best ∈ categories config /\ enabled best = true /\
                      exists score,
                        calculateCategoryScore regexMatchCount p best
                        = inr score /\ 0 < score)
                 end).
  assert (Hfold : forall l acc,
             Forall (fun c => c ∈ categories config) l ->
             good acc -> good (foldl step acc l)).
  { induction l as [|c' l IH]; intros acc Hl Hacc; [done|].
    apply Forall_cons in Hl as [Hc' Hl]. simpl. apply IH; [done|].
    unfold step. destruct acc as [e|[best bestScore]]; [done|].
    destruct (enabled c') eqn:Hen; [|done]. simpl.
    destruct (calculateCategoryScore regexMatchCount p c') as [e|score]
      eqn:Hscore; [done|].
    destruct (Nat.ltb_spec bestScore score); [|done].
    right. repeat split; [done..|]. exists score. split; [done|lia]. }
  specialize (Hfold (categories config) (inr (start, 0))).
  destruct (foldl step _ _) as [e|[best bestScore]]; [done|].
  intros [= <-].
  destruct Hfold as [[= ->]|Hfound]; [by apply Forall_forall | by left | |].
  - by left.
  - by right.
Qed.

End CategoryFacts.

Lemma findBestCategory_choice_witness :
  starting_category DEFAULT_FILTER_CONFIG = Some general_category \/
  (general_category ∈ categories DEFAULT_FILTER_CONFIG /\
   enabled general_category = true /\
   exists score,
     calculateCategoryScore no_match blog_page general_category = inr score
     /\ 0 < score).
Proof.
  apply (findBestCategory_choice no_match DEFAULT_FILTER_CONFIG blog_page).
  vm_compute. reflexivity.
Defined.





Section CategoryLimitFacts.
Variable config : ContentFilterConfig.
Variable cid : string.
Variable c : ContentCategory.
Variable m : Z.
Hypothesis category_found : find_category config cid = Some c.
Hypothesis category_limit : cat_maxPages c = Some m.
Hypothesis limit_not_negative : (0 <= m)%Z.

(** What [applyCategoryLimits] keeps of one group. *)
Local Abbreviation kept_of entry :=
  (slice0 (snd entry)
          (match find_category config (fst entry) with
           | Some c => default (Z.of_nat (length (snd entry)))
                               (cat_maxPages c)
           | None => Z.of_nat (length (snd entry))
           end)).




End CategoryLimitFacts.


(** ** The cleaned Markdown has no empty line *)

Lemma Lines_split_cons c (r : string) :
  Text.is_nl c = false ->
  Lines.split (String c r)
  = match Lines.split r with
    | line :: rest => String c line :: rest
    | [] => [String c EmptyString]
    end.
Proof. intros Hc. simpl. by rewrite Hc. Qed.

Lemma Lines_split_nonempty (s : string) : Lines.split s <> [].
Proof.
  destruct s as [|c r]; [done|]. simpl.
  destruct (Text.is_nl c); [done|]. by destruct (Lines.split r).
Qed.

(** A line of [split] holds no newline: splitting it gives it back. *)
Lemma Lines_split_lines (s : string) :
  Forall (fun line => Lines.split line = [line]) (Lines.split s).
Proof.
  induction s as [|c r IH]; [by apply Forall_singleton|].
  simpl. destruct (Text.is_nl c) eqn:Hc.
  { apply Forall_cons. by split. }
  destruct (Lines.split r) as [|line rest] eqn:Hr;
    [by apply Lines_split_nonempty in Hr|].
  apply Forall_cons in IH as [Hline Hrest].
  apply Forall_cons. split; [|done].
  rewrite Lines_split_cons by done. by rewrite Hline.
Qed.

Lemma Lines_split_app (line rest : string) :
  Lines.split line = [line] ->
  Lines.split (line +:+ newline +:+ rest) = line :: Lines.split rest.
Proof.
  induction line as [|c r IH]; [done|].
  intros Hline. simpl in Hline.
  destruct (Text.is_nl c) eqn:Hc; [done|].
  destruct (Lines.split r) as [|l ls] eqn:Hr;
    [by apply Lines_split_nonempty in Hr|].
  injection Hline as -> ->.
  change (String c r +:+ newline +:+ rest)
    with (String c (r +:+ newline +:+ rest)).
  rewrite Lines_split_cons by done. by rewrite IH.
Qed.

Lemma Lines_split_join (lines : list string) :
  lines <> [] ->
  Forall (fun line => Lines.split line = [line]) lines ->
  Lines.split (Lines.join lines) = lines.
Proof.
  induction lines as [|line rest IH]; [done|]. intros _ Hall.
  apply Forall_cons in Hall as [Hline Hrest].
  destruct rest as [|line' rest]; [done|].
  change (Lines.join (line :: line' :: rest))
    with (line +:+ newline +:+ Lines.join (line' :: rest)).
  rewrite Lines_split_app by done. by rewrite IH.
Qed.

Lemma Lines_squeeze_lines (Q : string -> Prop) last lines :
  Forall Q lines ->
  Forall (fun line => Q line /\ line <> EmptyString)
         (Lines.squeeze last lines).
Proof.
  revert last. induction lines as [|line rest IH]; intros last Hall; [done|].
  apply Forall_cons in Hall as [Hline Hrest]. simpl.
  unfold JS.truthy. destruct (String.eqb_spec line "") as [->|Hne]; simpl.
  { by apply IH. }
  destruct (_ && last); [by apply IH|].
  apply Forall_cons. split; [done | by apply IH].
Qed.

(** Whatever the regular-expression rewrites of
    [cleanMarkdownContent] produce, the text it returns is empty or has no
    empty line: the last pass drops every empty line, and so removes the
    blank lines that separate Markdown paragraphs. *)
Theorem cleanMarkdownContent_no_empty_line (re : RegexApi) content :
  let cleaned := cleanMarkdownContent re content in
  cleaned = EmptyString \/
  Forall (fun line => line <> EmptyString) (Lines.split cleaned).
Proof.
  intros cleaned. subst cleaned. unfold cleanMarkdownContent.
  match goal with
  | |- context [Lines.squeeze false (Lines.split ?text)] =>
      pose proof (Lines_squeeze_lines _ false _ (Lines_split_lines text))
        as Hkept;
      destruct (Lines.squeeze false (Lines.split text)) as [|line rest]
  end.
  { by left. }
  right. rewrite Lines_split_join; [|done|].
  - eapply Forall_impl; [exact Hkept|]. by intros l [_ Hl].
  - eapply Forall_impl; [exact Hkept|]. by intros l [Hl _].
Qed.

(** ** Which headings [demoteHeadings] demotes *)





(** ** The options the constructor settles on *)



(** When the user sets no [formatLimits], the limits in force during
    a run are those of the output format ([full] when none is chosen):
    the [maxPages], [maxCharsPerPage] and [maxTotalChars] the user passes
    are replaced by [applyFormatLimits] and have no effect. *)
Theorem user_limits_have_no_effect env userOptions g :
  u_formatLimits userOptions = None ->
  LLMSGenerator_new env userOptions = inr g ->
  limits_in_force g
  = format_default (default full (u_outputFormat userOptions)).
Proof.
  intros Hnone. unfold LLMSGenerator_new, mergeWithDefaults.
  destruct (negb _); [done|]. intros [= <-].
  unfold limits_in_force, applyFormatLimits, format_limit, pipeline_options.
  cbn. rewrite Hnone. cbn.
  by destruct (u_outputFormat userOptions) as [[]|].
Qed.

Lemma user_limits_have_no_effect_witness :
  exists g,
    LLMSGenerator_new bare_env (limits_only "https://a.b/" 10 500 9000)
    = inr g /\
    limits_in_force g = (5000, 200000, 50000000)%Z.
Proof.
  eexists. split; [reflexivity|].
  apply (user_limits_have_no_effect bare_env
           (limits_only "https://a.b/" 10 500 9000));
    reflexivity.
Defined.

(** ** The route handler and its cache *)

Lemma ContentCache_get_after_set c key content now now' :
  ContentCache_get now' key (ContentCache_set now key content c)
  = if (ttl c <? now' - now)%Z
    then ({| cache := delete key (cache c); ttl := ttl c |}, None)
    else (ContentCache_set now key content c, Some content).
Proof.
  unfold ContentCache_get, ContentCache_set. cbn [cache ttl].
  rewrite lookup_insert_eq. cbn [ce_timestamp ce_content].
  destruct (ttl c <? now' - now)%Z; [|done].
  by rewrite delete_insert_eq.
Qed.

(** An entry written with [set] at time [now] is what [get] returns
    for its key as long as no more than the time to live has passed
    (exactly the time to live still counts as fresh); after that [get]
    returns nothing and removes the entry.  Entries under other keys are
    read as before. *)
Theorem ContentCache_set_get c key content now now' :
  ContentCache_get now' key (ContentCache_set now key content c)
  = (if (ttl c <? now' - now)%Z
     then ({| cache := delete key (cache c); ttl := ttl c |}, None)
     else (ContentCache_set now key content c, Some content)) /\
  forall key', key' <> key ->
    snd (ContentCache_get now' key' (ContentCache_set now key content c))
    = snd (ContentCache_get now' key' c).
Proof.
  split; [apply ContentCache_get_after_set|].
  intros key' Hne. unfold ContentCache_get, ContentCache_set.
    cbn [cache ttl]. rewrite lookup_insert_ne by done.
    destruct (cache c !! key') as [entry|]; [|done].
    by destruct (ttl c <? now' - ce_timestamp entry)%Z.
Qed.

Section RouteFacts.
Variable api : UrlApi.
Variable defaultCacheKeyGenerator : UserOptions -> Thrown + string.
Variable config : RouteConfig.

Local Abbreviation handler := (GET api defaultCacheKeyGenerator config).

Lemma createGET_state cache0 :
  createGET config = inr (Some cache0) ->
  enableCache config = true /\ cache0 = ContentCache_new (cacheTtl config).
Proof.
  unfold createGET. destruct (_ && _); [done|].
  destruct (enableCache config); [|done]. by intros [= <-].
Qed.

Lemma revalidation_of_new call c :
  cache c = ∅ ->
  match revalidation api config (Some c) call with
  | GoesOn st => st = Some c
  | _ => True
  end.
Proof.
  intros Hempty. unfold revalidation.
  destruct (request_url call) as [requestUrl|]; [|done].
  destruct (enableRevalidation config); [|done].
  destruct (parseURL api requestUrl) as [urlObj|]; [|done].
  destruct (searchParams_get api urlObj "revalidate") as [r|]; [|done].
  destruct (String.eqb_spec r "true") as [->|Hne].
  - destruct (searchParams_get api urlObj "secret") as [given|]; [|done].
    destruct (revalidationSecret config) as [expected|]; [|done].
    destruct (String.eqb given expected); [|done].
    simpl. unfold ContentCache_clear. destruct c as [m t]. simpl in *.
    by rewrite Hempty.
  - repeat (destruct r as [|[[] [] [] [] [] [] [] []] r]; try done).
Qed.

(** A handler made by [createGET] with caching on answers from its
    cache: once a call has generated a non-empty text and answered 200,
    every later call that does not revalidate and comes no later than the
    time to live after it gets that same text with status 200, and the
    generator is not run for it (the answer does not depend on what the
    generator would return). *)
Theorem GET_answers_from_cache cache0 key content call1 call2 :
  createGET config = inr (Some cache0) ->
  cacheKeyGenerator defaultCacheKeyGenerator config (generatorOptions config)
  = inr key ->
  key <> EmptyString -> content <> EmptyString ->
  generated call1 = inr content ->
  nr_status (snd (handler (Some cache0) call1)) = 200%Z ->
  let state := fst (handler (Some cache0) call1) in
  revalidation api config state call2 = GoesOn state ->
  (now_get call2 - now_set call1 <= cacheTtl config * 60 * 1000)%Z ->
  snd (handler (Some cache0) call1) = okResponse config call1 content /\
  handler state call2 = (state, okResponse config call2 content).
Proof.
  intros Hcreate Hkey Hkeyne Hcontent Hgen Hstatus state.
  apply createGET_state in Hcreate as [Hcache ->].
  assert (Hk : JS.truthy key = true).
  { unfold JS.truthy. by destruct (String.eqb_spec key ""). }
  assert (Hc : JS.truthy content = true).
  { unfold JS.truthy. by destruct (String.eqb_spec content ""). }
  assert (Hfirst : handler (Some (ContentCache_new (cacheTtl config))) call1
                   = (Some (ContentCache_set (now_set call1) key content
                              (ContentCache_new (cacheTtl config))),
                      okResponse config call1 content)).
  { revert Hstatus. unfold GET.
    pose proof (revalidation_of_new call1
                  (ContentCache_new (cacheTtl config)) eq_refl) as Hreval.
    destruct (revalidation api config _ call1) as [| |st]; [done..|].
    subst st. rewrite Hcache, Hkey, Hk, Hgen. done. }
  subst state. rewrite Hfirst. cbn [fst snd].
  intros Hreval Hfresh. split; [done|].
  unfold GET. rewrite Hreval, Hcache, Hkey, Hk.
  rewrite ContentCache_get_after_set.
  destruct (Z.ltb_spec (ttl (ContentCache_new (cacheTtl config)))
              (now_get call2 - now_set call1)) as [Hexpired|_].
  { unfold ContentCache_new in Hexpired. simpl in Hexpired. lia. }
  simpl. by rewrite Hc.
Qed.

(** With revalidation on, a request that asks for it
    ([revalidate=true]) and does not carry the configured secret is
    answered 401: the cache is left as it is and the generator is not
    run. *)
Theorem GET_unauthorized state call requestUrl urlObj :
  enableRevalidation config = true ->
  request_url call = Some requestUrl ->
  parseURL api requestUrl = Some urlObj ->
  searchParams_get api urlObj "revalidate" = Some "true" ->
  searchParams_get api urlObj "secret" <> revalidationSecret config ->
  handler state call = (state, Unauthorized).
Proof.
  intros Hon Hrequest Hurl Hrevalidate Hsecret.
  unfold GET, revalidation.
  rewrite Hrequest, Hon, Hurl, Hrevalidate.
  destruct (searchParams_get api urlObj "secret") as [given|]; [|done].
  destruct (revalidationSecret config) as [expected|]; [|done].
  destruct (String.eqb_spec given expected) as [->|]; done.
Qed.

End RouteFacts.

Lemma GET_answers_from_cache_witness :
  let first :=
    GET Toy.api fixed_key cached_route (Some (ContentCache_new 1))
        (plain_call 0 (inr "doc")) in
  snd first = okResponse cached_route (plain_call 0 (inr "doc")) "doc" /\
  GET Toy.api fixed_key cached_route (fst first)
      (plain_call 60000 (inl NonError))
  = (fst first,
     okResponse cached_route (plain_call 60000 (inl NonError)) "doc").
Proof.
  apply (GET_answers_from_cache Toy.api fixed_key cached_route
           (ContentCache_new 1) "key" "doc" (plain_call 0 (inr "doc"))
           (plain_call 60000 (inl NonError)));
    try done.
Defined.

Lemma GET_unauthorized_witness :
  GET Toy.api fixed_key cached_route (Some (ContentCache_new 1))
      {| request_url := Some "https://a.b/llms.txt?revalidate=true&secret=no";
         now_get := 0; now_set := 0; isoDate := "now";
         generated := inr "doc" |}
  = (Some (ContentCache_new 1), Unauthorized).
Proof.
  eapply (GET_unauthorized Toy.api fixed_key cached_route);
    [reflexivity | reflexivity | reflexivity | reflexivity | done].
Defined.

(** ** File-system discovery *)

Section ScanFacts.
Variable fs : FsApi.
Variable followSymlinks : bool.
Variable fileIncludePatterns fileExcludePatterns : list string.
Variable maxFileSystemDepth : Z.

Local Abbreviation process :=
  (processFile fs fileIncludePatterns fileExcludePatterns).
Local Abbreviation entry_step :=
  (scanEntry fs followSymlinks fileIncludePatterns fileExcludePatterns).
Local Abbreviation entries_loop :=
  (scanEntries fs followSymlinks fileIncludePatterns fileExcludePatterns).
Local Abbreviation scan :=
  (scanDirectory fs followSymlinks fileIncludePatterns fileExcludePatterns
     maxFileSystemDepth).
Local Abbreviation file_ok :=
  (admitted fs followSymlinks fileIncludePatterns fileExcludePatterns).

Local Abbreviation compile_ok :=
  (patterns_compile fs fileIncludePatterns fileExcludePatterns).
Local Abbreviation agree :=
  (counters_agree fs fileIncludePatterns fileExcludePatterns).

Lemma matchesFilePatterns_compiles path patterns :
  (forall pattern, pattern ∈ patterns ->
     exists test,
       RegExp_test fs ("^" +:+ regexPattern pattern +:+ "$") = inr test) ->
  exists b, matchesFilePatterns fs path patterns = inr b.
Proof.
  induction patterns as [|pattern rest IH]; intros Hall; [by eexists|].
  simpl. destruct (Hall pattern) as [test ->]; [apply list_elem_of_here|].
  destruct (_ || _); [by eexists|].
  apply IH. intros p Hp. apply Hall. by apply list_elem_of_further.
Qed.

Lemma matchesFilePatterns_include path :
  compile_ok ->
  exists b, matchesFilePatterns fs path fileIncludePatterns = inr b.
Proof.
  intros Hok. apply matchesFilePatterns_compiles. intros p Hp.
  apply Hok, elem_of_app. by left.
Qed.

Lemma matchesFilePatterns_exclude path :
  compile_ok ->
  exists b, matchesFilePatterns fs path fileExcludePatterns = inr b.
Proof.
  intros Hok. apply matchesFilePatterns_compiles. intros p Hp.
  apply Hok, elem_of_app. by right.
Qed.

Local Abbreviation kept :=
  (scan_inv fs followSymlinks fileIncludePatterns fileExcludePatterns).

Lemma count_excluded_inv st :
  included (stats st) = length (files st) ->
  included (stats st) < totalScanned (stats st) ->
  (compile_ok ->
   totalScanned (stats st) <= S (included (stats st) + excluded (stats st))) ->
  Forall file_ok (files st) ->
  kept (count_excluded st).
Proof.
  intros Hinc Hlt Hall Hfiles. split; [|done].
  unfold counters_agree, count_excluded. cbn.
  split; [done|]. split; [lia|]. intros Hok. specialize (Hall Hok). lia.
Qed.

Lemma processFile_inv fullPath relPath symlink st :
  (symlink = true -> followSymlinks = true) ->
  kept st -> kept (fst (process fullPath relPath symlink st)).
Proof.
  intros Hlink [(Hinc & Hle & Hall) Hfiles]. unfold processFile.
  assert (Hexcluded : kept (count_excluded (count_scanned st))).
  { apply count_excluded_inv; cbn; [done | lia | | done].
    intros Hok. specialize (Hall Hok). lia. }
  destruct (matchesFilePatterns fs relPath fileExcludePatterns)
    as [e|[|]] eqn:Hexc; cbn [fst]; [|done|].
  { split; [|done]. unfold counters_agree. cbn.
    split; [done|]. split; [lia|]. intros Hok.
    destruct (matchesFilePatterns_exclude relPath Hok) as [b Hb].
    congruence. }
  destruct (matchesFilePatterns fs relPath fileIncludePatterns)
    as [e|[|]] eqn:Hincl; cbn [fst]; [| |done].
  { split; [|done]. unfold counters_agree. cbn.
    split; [done|]. split; [lia|]. intros Hok.
    destruct (matchesFilePatterns_include relPath Hok) as [b Hb].
    congruence. }
  destruct (stat fs fullPath) as [e|s] eqn:Hstat; cbn [fst]; [done|].
  split.
  - unfold counters_agree, include_file. cbn. rewrite length_app. cbn.
    split; [lia|]. split; [lia|]. intros Hok. specialize (Hall Hok). lia.
  - unfold include_file. cbn. apply Forall_app. split; [done|].
    apply Forall_singleton. unfold admitted. cbn.
    repeat split; [done | done | by exists s | done].
Qed.

Lemma scanEntry_inv recur basePath dirPath depth entry st :
  (forall p d st', kept st' -> kept (recur p d st')) ->
  kept st ->
  kept (fst (entry_step recur basePath dirPath depth entry st)).
Proof.
  intros Hrecur Hst. unfold scanEntry.
  destruct (de_kind entry).
  - destruct (negb followSymlinks) eqn:Hfollow; [done|].
    apply negb_false_iff in Hfollow.
    destruct (realpath fs _) as [|realPath]; [done|].
    destruct (stat fs realPath) as [|realStat]; [done|].
    destruct (st_isDirectory realStat); [by apply Hrecur|].
    destruct (st_isFile realStat); [|done].
    cbn [fst]. by apply processFile_inv.
  - destruct (matchesFilePatterns fs _ fileExcludePatterns) as [e|[|]];
      cbn [fst]; [done | | by apply Hrecur].
    destruct Hst as [(Hinc & Hle & Hall) Hfiles]. split; [|done].
    unfold counters_agree, count_excluded. cbn.
    split; [done|]. split; [done|]. intros Hok. specialize (Hall Hok). lia.
  - by apply processFile_inv.
  - done.
Qed.

Lemma scanEntries_inv recur basePath dirPath depth entries st :
  (forall p d st', kept st' -> kept (recur p d st')) ->
  kept st ->
  kept (entries_loop recur basePath dirPath depth entries st).
Proof.
  intros Hrecur. revert st.
  induction entries as [|entry rest IH]; intros st Hst; [done|].
  simpl.
  pose proof (scanEntry_inv recur basePath dirPath depth entry st Hrecur Hst)
    as Hstep.
  destruct (entry_step recur basePath dirPath depth entry st) as [st' [e|[]]];
    [done | by apply IH].
Qed.

Lemma scanDirectory_inv fuel basePath : forall dirPath depth st,
  kept st -> kept (scan fuel basePath dirPath depth st).
Proof.
  induction fuel as [|fuel IH]; intros dirPath depth st Hst; simpl.
  { by destruct (_ <? _)%Z. }
  destruct (_ <? _)%Z; [done|].
  destruct (readdir fs dirPath) as [|entries]; [done|].
  apply scanEntries_inv; [by apply IH|].
  destruct Hst as [(Hinc & Hle & Hall) Hfiles]. by split.
Qed.

(** The scan does not depend on fuel beyond the number of levels left. *)
Lemma scanDirectory_fuel fuel basePath : forall dirPath depth st,
  (maxFileSystemDepth + 1 - depth <= Z.of_nat fuel)%Z ->
  scan (S fuel) basePath dirPath depth st
  = scan fuel basePath dirPath depth st.
Proof.
  induction fuel as [|fuel IH]; intros dirPath depth st Hfuel.
  { simpl. destruct (Z.ltb_spec maxFileSystemDepth depth); [done|lia]. }
  change (scan (S (S fuel)) basePath dirPath depth st)
    with (if (maxFileSystemDepth <? depth)%Z then st
          else match readdir fs dirPath with
               | inl _ => st
               | inr entries =>
                   entries_loop (scan (S fuel) basePath) basePath dirPath
                                depth entries (count_directory st)
               end).
  change (scan (S fuel) basePath dirPath depth st)
    with (if (maxFileSystemDepth <? depth)%Z then st
          else match readdir fs dirPath with
               | inl _ => st
               | inr entries =>
                   entries_loop (scan fuel basePath) basePath dirPath
                                depth entries (count_directory st)
               end).
  destruct (Z.ltb_spec maxFileSystemDepth depth); [done|].
  destruct (readdir fs dirPath) as [|entries]; [done|].
  generalize (count_directory st). clear st.
  induction entries as [|entry rest IHentries]; intros st; [done|].
  cbn [scanEntries].
  assert (Hentry : entry_step (scan (S fuel) basePath) basePath dirPath
                     depth entry st
                   = entry_step (scan fuel basePath) basePath dirPath
                       depth entry st).
  { unfold scanEntry. destruct (de_kind entry); [| |done..].
    - destruct (negb followSymlinks); [done|].
      destruct (realpath fs _) as [|realPath]; [done|].
      destruct (stat fs realPath) as [|realStat]; [done|].
      destruct (st_isDirectory realStat); [|done].
      by rewrite IH by lia.
    - destruct (matchesFilePatterns fs _ fileExcludePatterns) as [|[|]];
        [done..|].
      by rewrite IH by lia. }
  rewrite Hentry.
  destruct (entry_step (scan fuel basePath) basePath dirPath depth entry st)
    as [st' [e|[]]]; [done | apply IHentries].
Qed.

(** In what [discoverFilesFromFileSystem] returns, [totalFiles] and
    the counter [included] are the number of files listed, and each of
    these files was counted in [totalScanned]; when no glob pattern is
    malformed, every file scanned was counted as included or as excluded.
    Every file listed matches an include pattern and no exclude pattern,
    could be read by [stat], and is a symbolic link only if links are
    followed. *)
Theorem discovered_files_are_admitted enable fileSystemBasePath elapsed :
  let result :=
    discoverFilesFromFileSystem fs followSymlinks fileIncludePatterns
      fileExcludePatterns maxFileSystemDepth enable fileSystemBasePath
      elapsed in
  totalFiles result = length (fsr_files result) /\
  included (fsr_stats result) = length (fsr_files result) /\
  included (fsr_stats result) <= totalScanned (fsr_stats result) /\
  (compile_ok ->
   totalScanned (fsr_stats result)
   <= included (fsr_stats result) + excluded (fsr_stats result)) /\
  Forall file_ok (fsr_files result).
Proof.
  intros result. subst result. unfold discoverFilesFromFileSystem.
  destruct enable; cbn [negb].
  - match goal with
    | |- context [scan ?fuel ?b ?d ?z ?st0] =>
        pose proof (scanDirectory_inv fuel b d z st0) as Hinv
    end.
    destruct Hinv as [(Hinc & Hle & Hall) Hfiles].
    { split; [|done]. repeat split; cbn; lia. }
    cbn. done.
  - cbn. repeat split; [lia | intros _; lia | done].
Qed.

End ScanFacts.

(** ** What a glob pattern is turned into *)

Lemma String_app_assoc (a b c : string) :
  (a +:+ b) +:+ c = a +:+ (b +:+ c).
Proof.
  induction a as [|x a IH]; [done|].
  change (String x ((a +:+ b) +:+ c) = String x (a +:+ (b +:+ c))).
  by f_equal.
Qed.

Lemma String_app_nil_r (a : string) : a +:+ EmptyString = a.
Proof.
  induction a as [|x a IH]; [done|].
  change (String x (a +:+ EmptyString) = String x a). by f_equal.
Qed.

Lemma replaceChar_app c by_ (s t : string) :
  Glob.replaceChar c by_ (s +:+ t)
  = Glob.replaceChar c by_ s +:+ Glob.replaceChar c by_ t.
Proof.
  induction s as [|x s IH]; [done|].
  change (String x s +:+ t) with (String x (s +:+ t)).
  cbn [Glob.replaceChar]. rewrite IH.
  by rewrite String_app_assoc.
Qed.

Lemma regexPattern_char c :
  Glob.replaceChar "." "\."
    (Glob.replaceChar "?" "[^/]"
       (Glob.replaceChar "*" "[^/]*" (String c EmptyString)))
  = glob_char c.
Proof.
  unfold glob_char. simpl.
  destruct (Ascii.eqb_spec c "*") as [->|Hstar]; [done|]. simpl.
  destruct (Ascii.eqb_spec c "?") as [->|Hq]; [done|]. simpl.
  by destruct (Ascii.eqb_spec c ".") as [->|Hdot].
Qed.

Lemma regexPattern_step (s t : string) :
  Glob.replaceChar "." "\."
    (Glob.replaceChar "?" "[^/]" (Glob.replaceChar "*" "[^/]*" (s +:+ t)))
  = Glob.replaceChar "." "\."
      (Glob.replaceChar "?" "[^/]" (Glob.replaceChar "*" "[^/]*" s))
    +:+ Glob.replaceChar "." "\."
          (Glob.replaceChar "?" "[^/]" (Glob.replaceChar "*" "[^/]*" t)).
Proof. by rewrite !replaceChar_app. Qed.

Lemma doubleStars_cons c c' p :
  Glob.doubleStars (String c (String c' p))
  = if Ascii.eqb c "*" && Ascii.eqb c' "*"
    then ".*" +:+ Glob.doubleStars p
    else String c EmptyString +:+ Glob.doubleStars (String c' p).
Proof. done. Qed.

Lemma glob_in_one_pass_cons c c' p :
  glob_in_one_pass (String c (String c' p))
  = if Ascii.eqb c "*" && Ascii.eqb c' "*"
    then "\.[^/]*" +:+ glob_in_one_pass p
    else glob_char c +:+ glob_in_one_pass (String c' p).
Proof. done. Qed.

(** The four rewrites that turn a glob pattern into a regular
    expression amount to one pass in which [*] becomes [[^/]*], [?]
    becomes [[^/]], a dot is escaped, and two stars in a row become an
    escaped dot followed by [[^/]*]: the [.*] that the first rewrite puts
    for them is rewritten by the later ones.  So [**] stands for a dot
    and a run of characters other than [/], not for any run of
    characters. *)
Theorem regexPattern_in_one_pass pattern :
  regexPattern pattern = glob_in_one_pass pattern.
Proof.
  unfold regexPattern.
  assert (Hboth : forall p,
            (Glob.replaceChar "." "\."
               (Glob.replaceChar "?" "[^/]"
                  (Glob.replaceChar "*" "[^/]*" (Glob.doubleStars p)))
             = glob_in_one_pass p) /\
            forall c,
              Glob.replaceChar "." "\."
                (Glob.replaceChar "?" "[^/]"
                   (Glob.replaceChar "*" "[^/]*"
                      (Glob.doubleStars (String c p))))
              = glob_in_one_pass (String c p)).
  { induction p as [|c' p [IHp IHc]].
    { split; [done|]. intros c. apply (regexPattern_char c). }
    split; [apply IHc|]. intros c.
    rewrite doubleStars_cons, glob_in_one_pass_cons.
    destruct (Ascii.eqb c "*" && Ascii.eqb c' "*").
    - rewrite (regexPattern_step ".*"). by rewrite IHp.
    - rewrite regexPattern_step, regexPattern_char. by rewrite IHc. }
  apply Hboth.
Qed.

Example regexPattern_of_default :
  regexPattern "**/*.md" = "\.[^/]*/[^/]*\.md".
Proof. reflexivity. Qed.

(** A scan that follows the link [up] goes round the cycle until the depth
    limit stops it. *)
Example scan_of_a_cycle :
  let result :=
    discoverFilesFromFileSystem cyclic_fs true ["**/*.md"] [] 2 true "/app"
                                5 in
  map relativePath (fsr_files result) = ["a.md"; "docs/b.md"; "a.md"] /\
  totalFiles result = 3 /\
  fsr_stats result = mkFileDiscoveryStats 4 3 1 3 5.
Proof. vm_compute. done. Qed.

(** ** The command line *)

(** [parseArgs] ends the process with exit code 1 only when one of the
    arguments starts with a dash and is none of the options it knows; that
    argument is the one it reports.  (An argument in the place of the
    value of [--output] or [--config] is not looked at.) *)
Theorem parseArgs_exits_on_unknown_option args printed :
  parseArgs args = Exited 1 printed ->
  exists arg, arg ∈ args /\ printed = UnknownOption arg /\
              JS.startsWith arg "-" = true /\
              key_in arg known_options = false.
Proof.
  unfold parseArgs. generalize (mkCLIConfig None None None None None None).
  intros config. revert config printed.
  assert (Hboth :
    (forall config printed,
       parseArgs_from args config = Exited 1 printed ->
       exists arg, arg ∈ args /\ printed = UnknownOption arg /\
                   JS.startsWith arg "-" = true /\
                   key_in arg known_options = false) /\
    (forall first config printed,
       parseArgs_from (first :: args) config = Exited 1 printed ->
       exists arg, arg ∈ first :: args /\ printed = UnknownOption arg /\
                   JS.startsWith arg "-" = true /\
                   key_in arg known_options = false)).
  {
    induction args as [|second args [IH IHcons]].
    - split; [done|]. intros first config printed. cbn [parseArgs_from].
      repeat match goal with
             | |- context [if ?b then _ else _] => destruct b eqn:?
             end; try done.
      intros [= <-]. exists first. split; [apply list_elem_of_here|].
      split; [done|]. split; [done|].
      unfold key_in, known_options in *. cbn [existsb] in *.
      repeat match goal with
             | H : _ || _ = false |- _ => apply orb_false_elim in H as [? ?]
             end.
      repeat match goal with
             | H : String.eqb _ _ = false |- _ => rewrite H
             end.
      done.
    - split; [apply IHcons|]. intros first config printed.
      assert (Hlater : forall config',
                parseArgs_from (second :: args) config' = Exited 1 printed ->
                exists arg, arg ∈ first :: second :: args /\
                            printed = UnknownOption arg /\
                            JS.startsWith arg "-" = true /\
                            key_in arg known_options = false).
      { intros config' Hexit.
        destruct (IHcons second config' printed Hexit) as (arg & Hin & Hrest).
        exists arg. split; [by apply list_elem_of_further | done]. }
      assert (Hlatest : forall config',
                parseArgs_from args config' = Exited 1 printed ->
                exists arg, arg ∈ first :: second :: args /\
                            printed = UnknownOption arg /\
                            JS.startsWith arg "-" = true /\
                            key_in arg known_options = false).
      { intros config' Hexit.
        destruct (IH config' printed Hexit) as (arg & Hin & Hrest).
        exists arg. split; [by do 2 apply list_elem_of_further | done]. }
      change (parseArgs_from (first :: second :: args) config)
        with (if negb (JS.truthy first)
              then parseArgs_from (second :: args) config
              else if key_in first ["--output"; "-o"] then
                parseArgs_from args
                  (if JS.truthy second
                   then mkCLIConfig (Some second) (cli_config config)
                          (cli_verbose config) (cli_dryRun config)
                          (cli_force config) (cli_stats config)
                   else config)
              else if key_in first ["--config"; "-c"] then
                parseArgs_from args
                  (if JS.truthy second
                   then mkCLIConfig (cli_output config) (Some second)
                          (cli_verbose config) (cli_dryRun config)
                          (cli_force config) (cli_stats config)
                   else config)
              else if key_in first ["--verbose"; "-v"] then
                parseArgs_from (second :: args)
                  (mkCLIConfig (cli_output config) (cli_config config)
                     (Some true) (cli_dryRun config) (cli_force config)
                     (cli_stats config))
              else if key_in first ["--dry-run"; "-d"] then
                parseArgs_from (second :: args)
                  (mkCLIConfig (cli_output config) (cli_config config)
                     (cli_verbose config) (Some true) (cli_force config)
                     (cli_stats config))
              else if key_in first ["--force"; "-f"] then
                parseArgs_from (second :: args)
                  (mkCLIConfig (cli_output config) (cli_config config)
                     (cli_verbose config) (cli_dryRun config) (Some true)
                     (cli_stats config))
              else if key_in first ["--stats"; "-s"] then
                parseArgs_from (second :: args)
                  (mkCLIConfig (cli_output config) (cli_config config)
                     (cli_verbose config) (cli_dryRun config)
                     (cli_force config) (Some true))
              else if key_in first ["--help"; "-h"] then Exited 0 Help
              else if String.eqb first "--version" then Exited 0 Version
              else if JS.startsWith first "-"
              then Exited 1 (UnknownOption first)
              else parseArgs_from (second :: args) config).
      destruct (negb (JS.truthy first)); [apply Hlater|].
      destruct (key_in first ["--output"; "-o"]) eqn:?; [apply Hlatest|].
      destruct (key_in first ["--config"; "-c"]) eqn:?; [apply Hlatest|].
      destruct (key_in first ["--verbose"; "-v"]) eqn:?; [apply Hlater|].
      destruct (key_in first ["--dry-run"; "-d"]) eqn:?; [apply Hlater|].
      destruct (key_in first ["--force"; "-f"]) eqn:?; [apply Hlater|].
      destruct (key_in first ["--stats"; "-s"]) eqn:?; [apply Hlater|].
      destruct (key_in first ["--help"; "-h"]) eqn:?; [done|].
      destruct (String.eqb first "--version") eqn:?; [done|].
      destruct (JS.startsWith first "-") eqn:?; [|apply Hlater].
      intros [= <-]. exists first. split; [apply list_elem_of_here|].
      split; [done|]. split; [done|].
      unfold key_in, known_options in *. cbn [existsb] in *.
      repeat match goal with
             | H : _ || _ = false |- _ => apply orb_false_elim in H as [? ?]
             end.
      repeat match goal with
             | H : String.eqb _ _ = false |- _ => rewrite H
             end.
      done.
  }
  apply Hboth.
Qed.

Lemma parseArgs_exits_on_unknown_option_witness :
  exists arg, arg ∈ ["-v"; "-o"; "--help"; "--fast"] /\
              UnknownOption "--fast" = UnknownOption arg /\
              JS.startsWith arg "-" = true /\
              key_in arg known_options = false.
Proof.
  apply (parseArgs_exits_on_unknown_option ["-v"; "-o"; "--help"; "--fast"]).
  reflexivity.
Defined.

Lemma parseArgs_from_switches args : forall config,
  Forall (fun arg => arg ∈ switches) args ->
  parseArgs_from args config
  = Parsed
      (mkCLIConfig (cli_output config) (cli_config config)
         (from_option Some (cli_verbose config)
                      (switched "--verbose" "-v" args))
         (from_option Some (cli_dryRun config)
                      (switched "--dry-run" "-d" args))
         (from_option Some (cli_force config)
                      (switched "--force" "-f" args))
         (from_option Some (cli_stats config)
                      (switched "--stats" "-s" args))).
Proof.
  induction args as [|first args IH]; intros config Hall.
  { by destruct config. }
  apply Forall_cons in Hall as [Hfirst Hall].
  unfold switches in Hfirst.
  repeat (apply elem_of_cons in Hfirst as [->|Hfirst]);
    [..|by apply elem_of_nil in Hfirst];
    cbn - [switched]; rewrite IH by done;
    unfold switched; cbn [existsb cli_output cli_config cli_verbose
                          cli_dryRun cli_force cli_stats];
    repeat match goal with
           | |- context [String.eqb ?a ?b] =>
               let v := eval vm_compute in (String.eqb a b) in
               change (String.eqb a b) with v
           end;
    cbn [orb from_option]; do 2 f_equal;
    match goal with
    | |- context [existsb ?f args] => by destruct (existsb f args)
    end.
Qed.

(** On a command line made of the switches [--verbose], [--dry-run],
    [--force], [--stats] and their short forms, [parseArgs] returns a
    configuration in which a switch is [true] exactly when one of its two
    spellings occurs, in any place and any number of times; it leaves the
    output and the configuration file unset. *)
Theorem parseArgs_switches args :
  Forall (fun arg => arg ∈ switches) args ->
  parseArgs args
  = Parsed (mkCLIConfig None None
              (switched "--verbose" "-v" args)
              (switched "--dry-run" "-d" args)
              (switched "--force" "-f" args)
              (switched "--stats" "-s" args)).
Proof.
  intros Hall. unfold parseArgs. rewrite parseArgs_from_switches by done.
  cbn [cli_output cli_config cli_verbose cli_dryRun cli_force cli_stats].
  f_equal. f_equal; by destruct (switched _ _ args).
Qed.

Lemma parseArgs_switches_witness :
  parseArgs ["-f"; "--verbose"; "-f"]
  = Parsed (mkCLIConfig None None (Some true) None (Some true) None).
Proof.
  apply (parseArgs_switches ["-f"; "--verbose"; "-f"]).
  repeat apply Forall_cons_2; [..|apply Forall_nil_2];
    unfold switches; rewrite !elem_of_cons; tauto.
Defined.

(** ** The rendered document *)








Section RenderFacts.
Variable P : Platform.
Variable fetch : Network.
Variable sched : list Tick.
Variable clock : nat.
Variable em_dash : ascii.
Variable isoDate : string.
Variable env : Env.


End RenderFacts.

